(** * PullSmart Filters: the content script [content.js], embedded and verified

    The script augments the pull-request list of a host site with saved
    search filters.  This development embeds the class [GitHubPRFilter] of
    [src/content.js] together with the part of the browser it talks to
    (strings, [JSON], [localStorage], the HTML fragment parser behind
    [innerHTML], the two mount points of the host page, timers and the
    console), and settles the properties the specification states.

    Conventions.
    - A JavaScript string is a list of UTF-16 code units ([jsstring]); a
      code unit is a number below 65536.  [lit] turns a literal into one.
    - A method that can throw returns a [completion]; methods that touch
      the page, the storage, the console or the timers pass the whole
      [State] along.
    - The script does not compute with IEEE doubles; the numbers of a
      JSON text are kept through the interface [Float64].
    - Fields marked ghost record what happened (which navigation trigger
      a timer belongs to, which delayed re-checks were made); the script
      does not read them, see [handleLocationChange_erase] and
      [runTimer_erase]. *)

From Stdlib Require Import NArith ZArith List String Ascii Lia Bool.
From stdpp Require Import base option list gmap.

Open Scope string_scope.
Open Scope list_scope.
Open Scope N_scope.

Set Warnings "-register-all".

(** ** Strings *)

Definition jsstring := list N.

Definition lit (s : string) : jsstring :=
  map N_of_ascii (list_ascii_of_string s).

(** The double quote, which a literal of this file cannot hold. *)
Definition dq : jsstring := [34].
(** Line feed. *)
Definition nl : jsstring := [10].

Definition str_eqb (a b : jsstring) : bool := bool_decide (a = b).

(** [String.prototype.startsWith] at position 0. *)
Fixpoint startsWith (s p : jsstring) {struct p} : bool :=
  match p, s with
  | [], _ => true
  | _ :: _, [] => false
  | a :: p', b :: s' => (a =? b) && startsWith s' p'
  end.

(** [String.prototype.includes]: is [p] a substring of [s]? *)
Fixpoint includes (s p : jsstring) : bool :=
  startsWith s p ||
  match s with
  | [] => false
  | _ :: s' => includes s' p
  end.

(** [String.prototype.split] with a separator of one code unit. *)
Fixpoint split (sep : N) (s : jsstring) : list jsstring :=
  match s with
  | [] => [[]]
  | c :: s' =>
      if c =? sep then [] :: split sep s'
      else match split sep s' with
           | [] => [[c]]
           | w :: ws => (c :: w) :: ws
           end
  end.

(** [Array.prototype.slice(b, e)] for [0 <= b <= e]. *)
Definition slice {A} (b e : nat) (l : list A) : list A :=
  take (e - b) (drop b l).

(** [Array.prototype.join] on an array of strings. *)
Fixpoint join (sep : jsstring) (l : list jsstring) : jsstring :=
  match l with
  | [] => []
  | [w] => w
  | w :: ws => w ++ sep ++ join sep ws
  end.

(** White space and line terminators, as [String.prototype.trim] strips. *)
Definition isWhiteSpace (c : N) : bool :=
  (c =? 9) || (c =? 10) || (c =? 11) || (c =? 12) || (c =? 13) ||
  (c =? 32) || (c =? 160) || (c =? 5760) ||
  ((8192 <=? c) && (c <=? 8202)) ||
  (c =? 8232) || (c =? 8233) || (c =? 8239) || (c =? 8287) ||
  (c =? 12288) || (c =? 65279).

Fixpoint trimStart (s : jsstring) : jsstring :=
  match s with
  | c :: s' => if isWhiteSpace c then trimStart s' else s
  | [] => []
  end.

Fixpoint trimEnd (s : jsstring) : jsstring :=
  match s with
  | [] => []
  | c :: s' =>
      match trimEnd s' with
      | [] => if isWhiteSpace c then [] else [c]
      | t => c :: t
      end
  end.

Definition trim (s : jsstring) : jsstring := trimEnd (trimStart s).

(** ** Exceptions and the console *)

Inductive exn :=
| TypeError | SyntaxError | URIError
| QuotaExceededError | SecurityError | NotFoundError.

Inductive completion (A : Type) :=
| Normal (a : A)
| Throw (e : exn).
Arguments Normal {A} a.
Arguments Throw {A} e.

(** Sequencing: the first exception ends the computation.  With these
    instances [x ← c; k] runs [c], then [k] on its value. *)
#[global] Instance completion_ret : MRet completion := fun A a => Normal a.
#[global] Instance completion_bind : MBind completion := fun A B k c =>
  match c with
  | Normal a => k a
  | Throw e => Throw e
  end.

(** [try { c } catch (e) { h e }]. *)
Definition try_catch {A} (c : completion A) (h : exn -> A) : A :=
  match c with
  | Normal a => a
  | Throw e => h e
  end.

(** The computations of a list, run in order; the first exception ends
    the run. *)
Fixpoint inOrder {A} (l : list (completion A)) : completion (list A) :=
  match l with
  | [] => Normal []
  | c :: l' => x ← c; xs ← inOrder l'; Normal (x :: xs)
  end.

Inductive console_entry :=
| Warn (msg : jsstring)
| Error (msg : jsstring) (e : exn).

(** ** Constants of the script *)

Definition STORAGE_PREFIX : jsstring := lit "GH_PR_Filters_".
Definition MAX_RETRY_ATTEMPTS : nat := 3.
Definition RETRY_DELAY : N := 500.

(** ** Page classification and the repository path *)

Definition isPullRequestPage (pathname : jsstring) : bool :=
  includes pathname (lit "/pulls").

Definition getRepoPath (pathname : jsstring) : jsstring :=
  join (lit "/") (slice 1 3 (split 47 pathname)).

Definition getStorageKey : jsstring := STORAGE_PREFIX ++ lit "global".


(** ** Numbers

    The script never computes with the numbers a stored JSON text may
    hold; it only carries them from [JSON.parse] to [JSON.stringify], to a
    template literal or to a comparison with zero.  Those uses of the
    platform's doubles are the interface below. *)

Class Float64 := {
  number : Type;
  (** the double a JSON number literal denotes *)
  number_of_literal : jsstring -> number;
  (** [Number::toString] *)
  Number_toString : number -> jsstring;
  (** neither an infinity nor NaN *)
  Number_isFinite : number -> bool;
  (** [StringToNumber] *)
  StringToNumber : jsstring -> number;
  (** [n > 0] *)
  Number_positive : number -> bool;
}.

(** ** JSON values, [JSON.stringify] and [JSON.parse] *)

Section Script.
Context {F64 : Float64}.

(** A value built by [JSON.parse], or an array literal of [{label, query}]
    objects.  An object lists its properties in property order. *)
Inductive json :=
| JNull
| JBool (b : bool)
| JNum (n : number)
| JStr (s : jsstring)
| JArr (elements : list json)
| JObj (properties : list (jsstring * json)).

(** A JavaScript value as the script meets it: [None] is [undefined]. *)
Definition jsvalue := option json.

Definition isHighSurrogate (c : N) : bool := (55296 <=? c) && (c <=? 56319).
Definition isLowSurrogate (c : N) : bool := (56320 <=? c) && (c <=? 57343).

Definition hexDigit (d : N) : N := if d <? 10 then 48 + d else 87 + d.

(** [UnicodeEscape]: a backslash, [u] and four lower-case hex digits. *)
Definition UnicodeEscape (c : N) : jsstring :=
  [92; 117; hexDigit (c / 4096 mod 16); hexDigit (c / 256 mod 16);
   hexDigit (c / 16 mod 16); hexDigit (c mod 16)].

(** The escapes of one code unit that is not part of a surrogate pair. *)
Definition quoteUnit (c : N) : jsstring :=
  if c =? 8 then [92; 98]
  else if c =? 9 then [92; 116]
  else if c =? 10 then [92; 110]
  else if c =? 12 then [92; 102]
  else if c =? 13 then [92; 114]
  else if c =? 34 then [92; 34]
  else if c =? 92 then [92; 92]
  else if (c <? 32) || isHighSurrogate c || isLowSurrogate c
       then UnicodeEscape c
  else [c].

(** The body of [QuoteJSONString]: code point by code point; a surrogate
    pair is copied, a lone surrogate escaped. *)
Fixpoint quoteBody (s : jsstring) : jsstring :=
  match s with
  | [] => []
  | c :: s' =>
      match s' with
      | d :: s'' =>
          if isHighSurrogate c && isLowSurrogate d
          then c :: d :: quoteBody s''
          else quoteUnit c ++ quoteBody s'
      | [] => quoteUnit c
      end
  end.

Definition QuoteJSONString (s : jsstring) : jsstring :=
  dq ++ quoteBody s ++ dq.

(** [JSON.stringify(v)] without replacer or indentation. *)
Fixpoint JSON_stringify (v : json) : jsstring :=
  match v with
  | JNull => lit "null"
  | JBool true => lit "true"
  | JBool false => lit "false"
  | JNum n => if Number_isFinite n then Number_toString n else lit "null"
  | JStr s => QuoteJSONString s
  | JArr l => lit "[" ++ join (lit ",") (List.map JSON_stringify l) ++ lit "]"
  | JObj m =>
      lit "{" ++
      join (lit ",")
        (List.map (fun kv => QuoteJSONString (fst kv) ++ lit ":" ++
                             JSON_stringify (snd kv)) m) ++
      lit "}"
  end.

(** *** The lexer of [JSON.parse] *)

Inductive token :=
| TLBrace | TRBrace | TLBrack | TRBrack | TColon | TComma
| TString (s : jsstring)
| TNumber (literal : jsstring)
| TTrue | TFalse | TNull.

(** Where the lexer stands inside a number literal. *)
Inductive numstate :=
| NMinus | NZero | NInt | NDot | NFrac | NExp | NExpSign | NExpDigits.

Inductive lexstate :=
| LStart
| LStr (acc : jsstring)
| LEsc (acc : jsstring)
| LHex (acc : jsstring) (more : nat) (v : N)
| LWord (expect : jsstring) (t : token)
| LNum (st : numstate) (acc : jsstring).

Definition isDigit (c : N) : bool := (48 <=? c) && (c <=? 57).

Definition hexValue (c : N) : option N :=
  if isDigit c then Some (c - 48)
  else if (97 <=? c) && (c <=? 102) then Some (c - 87)
  else if (65 <=? c) && (c <=? 70) then Some (c - 55)
  else None.

Definition lex_start (c : N) : option (list token * lexstate) :=
  if (c =? 9) || (c =? 10) || (c =? 13) || (c =? 32) then Some ([], LStart)
  else if c =? 123 then Some ([TLBrace], LStart)
  else if c =? 125 then Some ([TRBrace], LStart)
  else if c =? 91 then Some ([TLBrack], LStart)
  else if c =? 93 then Some ([TRBrack], LStart)
  else if c =? 58 then Some ([TColon], LStart)
  else if c =? 44 then Some ([TComma], LStart)
  else if c =? 34 then Some ([], LStr [])
  else if c =? 45 then Some ([], LNum NMinus [c])
  else if c =? 48 then Some ([], LNum NZero [c])
  else if isDigit c then Some ([], LNum NInt [c])
  else if c =? 116 then Some ([], LWord (lit "rue") TTrue)
  else if c =? 102 then Some ([], LWord (lit "alse") TFalse)
  else if c =? 110 then Some ([], LWord (lit "ull") TNull)
  else None.

(** A number literal ends before [c]: emit it and lex [c] afresh. *)
Definition lex_number_end (acc : jsstring) (c : N) :
  option (list token * lexstate) :=
  match lex_start c with
  | Some (ts, st) => Some (TNumber acc :: ts, st)
  | None => None
  end.

Definition isExponentMark (c : N) : bool := (c =? 101) || (c =? 69).

Definition lex_number (st : numstate) (acc : jsstring) (c : N) :
  option (list token * lexstate) :=
  let continue st' := Some ([], LNum st' (acc ++ [c])) in
  match st with
  | NMinus =>
      if c =? 48 then continue NZero
      else if isDigit c then continue NInt else None
  | NZero =>
      if c =? 46 then continue NDot
      else if isExponentMark c then continue NExp
      else lex_number_end acc c
  | NInt =>
      if isDigit c then continue NInt
      else if c =? 46 then continue NDot
      else if isExponentMark c then continue NExp
      else lex_number_end acc c
  | NDot => if isDigit c then continue NFrac else None
  | NFrac =>
      if isDigit c then continue NFrac
      else if isExponentMark c then continue NExp
      else lex_number_end acc c
  | NExp =>
      if (c =? 43) || (c =? 45) then continue NExpSign
      else if isDigit c then continue NExpDigits else None
  | NExpSign => if isDigit c then continue NExpDigits else None
  | NExpDigits =>
      if isDigit c then continue NExpDigits else lex_number_end acc c
  end.

Definition lex_escape (acc : jsstring) (c : N) :
  option (list token * lexstate) :=
  let unit u := Some ([], LStr (acc ++ [u])) in
  if c =? 34 then unit 34
  else if c =? 92 then unit 92
  else if c =? 47 then unit 47
  else if c =? 98 then unit 8
  else if c =? 102 then unit 12
  else if c =? 110 then unit 10
  else if c =? 114 then unit 13
  else if c =? 116 then unit 9
  else if c =? 117 then Some ([], LHex acc 4 0)
  else None.

Definition lex_step (st : lexstate) (c : N) :
  option (list token * lexstate) :=
  match st with
  | LStart => lex_start c
  | LStr acc =>
      if c =? 34 then Some ([TString acc], LStart)
      else if c =? 92 then Some ([], LEsc acc)
      else if c <? 32 then None
      else Some ([], LStr (acc ++ [c]))
  | LEsc acc => lex_escape acc c
  | LHex acc more v =>
      match hexValue c with
      | Some d =>
          match more with
          | 1%nat => Some ([], LStr (acc ++ [v * 16 + d]))
          | _ => Some ([], LHex acc (pred more) (v * 16 + d))
          end
      | None => None
      end
  | LWord expect t =>
      match expect with
      | e :: es =>
          if c =? e
          then match es with
               | [] => Some ([t], LStart)
               | _ => Some ([], LWord es t)
               end
          else None
      | [] => None
      end
  | LNum st acc => lex_number st acc c
  end.

Definition lex_end (st : lexstate) : option (list token) :=
  match st with
  | LStart => Some []
  | LNum (NZero | NInt | NFrac | NExpDigits) acc => Some [TNumber acc]
  | _ => None
  end.

Fixpoint lex (st : lexstate) (s : jsstring) : option (list token) :=
  match s with
  | [] => lex_end st
  | c :: s' =>
      match lex_step st c with
      | Some (ts, st') =>
          match lex st' s' with
          | Some ts' => Some (ts ++ ts')
          | None => None
          end
      | None => None
      end
  end.

(** *** Objects under construction

    [JSON.parse] defines the properties of an object in source order; a
    repeated key keeps its place and takes the later value, and the keys
    that are array indices come first, in ascending order. *)

Definition decimalValue (k : jsstring) : N :=
  fold_left (fun n c => n * 10 + (c - 48)) k 0.

Definition arrayIndex (k : jsstring) : option N :=
  match k with
  | [] => None
  | c :: k' =>
      if forallb isDigit k && (length k <=? 10)%nat &&
         (negb (c =? 48) || bool_decide (k' = [])) &&
         (decimalValue k <? 4294967295)
      then Some (decimalValue k) else None
  end.

Definition hasProperty (m : list (jsstring * json)) (k : jsstring) : bool :=
  existsb (fun kv => str_eqb (fst kv) k) m.

Fixpoint replaceProperty (m : list (jsstring * json)) (k : jsstring)
  (v : json) : list (jsstring * json) :=
  match m with
  | [] => []
  | (k', v') :: m' =>
      if str_eqb k' k then (k', v) :: m'
      else (k', v') :: replaceProperty m' k v
  end.

Fixpoint insertIndexProperty (m : list (jsstring * json)) (i : N)
  (k : jsstring) (v : json) : list (jsstring * json) :=
  match m with
  | [] => [(k, v)]
  | (k', v') :: m' =>
      match arrayIndex k' with
      | Some j =>
          if j <? i then (k', v') :: insertIndexProperty m' i k v
          else (k, v) :: m
      | None => (k, v) :: m
      end
  end.

Definition defineProperty (m : list (jsstring * json)) (k : jsstring)
  (v : json) : list (jsstring * json) :=
  if hasProperty m k then replaceProperty m k v
  else match arrayIndex k with
       | Some i => insertIndexProperty m i k v
       | None => m ++ [(k, v)]
       end.

(** *** The parser of [JSON.parse], a machine over the tokens *)

(** A container that waits for the value being read. *)
Inductive frame :=
| InArray (elements : list json)
| InObject (properties : list (jsstring * json)) (key : jsstring).

Inductive pstate :=
| PValue (stack : list frame)
| PArrayFirst (stack : list frame)
| PArrayNext (elements : list json) (stack : list frame)
| PObjectFirst (stack : list frame)
| PObjectKey (properties : list (jsstring * json)) (stack : list frame)
| PObjectColon (properties : list (jsstring * json)) (key : jsstring)
    (stack : list frame)
| PObjectNext (properties : list (jsstring * json)) (stack : list frame)
| PDone (v : json).

(** A value is complete: hand it to the innermost open container. *)
Definition deliver (v : json) (stack : list frame) : pstate :=
  match stack with
  | [] => PDone v
  | InArray es :: stack' => PArrayNext (es ++ [v]) stack'
  | InObject ps k :: stack' => PObjectNext (defineProperty ps k v) stack'
  end.

Definition parse_value (t : token) (stack : list frame) : option pstate :=
  match t with
  | TNull => Some (deliver JNull stack)
  | TTrue => Some (deliver (JBool true) stack)
  | TFalse => Some (deliver (JBool false) stack)
  | TNumber l => Some (deliver (JNum (number_of_literal l)) stack)
  | TString s => Some (deliver (JStr s) stack)
  | TLBrack => Some (PArrayFirst stack)
  | TLBrace => Some (PObjectFirst stack)
  | _ => None
  end.

Definition parse_step (st : pstate) (t : token) : option pstate :=
  match st with
  | PValue stack => parse_value t stack
  | PArrayFirst stack =>
      match t with
      | TRBrack => Some (deliver (JArr []) stack)
      | _ => parse_value t (InArray [] :: stack)
      end
  | PArrayNext es stack =>
      match t with
      | TComma => Some (PValue (InArray es :: stack))
      | TRBrack => Some (deliver (JArr es) stack)
      | _ => None
      end
  | PObjectFirst stack =>
      match t with
      | TRBrace => Some (deliver (JObj []) stack)
      | TString k => Some (PObjectColon [] k stack)
      | _ => None
      end
  | PObjectKey ps stack =>
      match t with
      | TString k => Some (PObjectColon ps k stack)
      | _ => None
      end
  | PObjectColon ps k stack =>
      match t with
      | TColon => Some (PValue (InObject ps k :: stack))
      | _ => None
      end
  | PObjectNext ps stack =>
      match t with
      | TComma => Some (PObjectKey ps stack)
      | TRBrace => Some (deliver (JObj ps) stack)
      | _ => None
      end
  | PDone _ => None
  end.

Fixpoint parse_tokens (st : pstate) (ts : list token) : option pstate :=
  match ts with
  | [] => Some st
  | t :: ts' =>
      match parse_step st t with
      | Some st' => parse_tokens st' ts'
      | None => None
      end
  end.

(** [JSON.parse(text)]: the value, or a [SyntaxError]. *)
Definition JSON_parse (text : jsstring) : completion json :=
  match lex LStart text with
  | Some ts =>
      match parse_tokens (PValue []) ts with
      | Some (PDone v) => Normal v
      | _ => Throw SyntaxError
      end
  | None => Throw SyntaxError
  end.

(** *** Conversions the script applies to parsed values *)

(** [ToString], as a template literal and [encodeURIComponent] apply it.
    An object is converted by its [toString]: the one of
    [Object.prototype] gives [[object Object]]; an own property of that
    name, which in a parsed value is never a function, hides it, then
    [valueOf] returns the object itself and the conversion throws.  An
    array is converted by [join], which converts its elements in order. *)
Fixpoint ToString_json (v : json) : completion jsstring :=
  match v with
  | JNull => Normal (lit "null")
  | JBool true => Normal (lit "true")
  | JBool false => Normal (lit "false")
  | JNum n => Normal (Number_toString n)
  | JStr s => Normal s
  | JArr l =>
      parts ← inOrder
                (List.map (fun x => match x with
                                    | JNull => Normal []
                                    | _ => ToString_json x
                                    end) l);
      Normal (join (lit ",") parts)
  | JObj m =>
      if hasProperty m (lit "toString") then Throw TypeError
      else Normal (lit "[object Object]")
  end.

Definition ToString (v : jsvalue) : completion jsstring :=
  match v with
  | None => Normal (lit "undefined")
  | Some x => ToString_json x
  end.

(** [v > 0], for a value compared as the script compares [length]: the
    value is made a primitive, then a number.  An object becomes the
    string [[object Object]], which is no number, unless an own
    [toString] makes the conversion throw; an array becomes the string
    [join] gives. *)
Definition greaterThanZero (v : jsvalue) : completion bool :=
  match v with
  | None => Normal false
  | Some JNull => Normal false
  | Some (JBool b) => Normal b
  | Some (JNum n) => Normal (Number_positive n)
  | Some (JObj m) =>
      if hasProperty m (lit "toString") then Throw TypeError
      else Normal false
  | Some x =>
      s ← ToString_json x; Normal (Number_positive (StringToNumber s))
  end.

Fixpoint lookupProperty (m : list (jsstring * json)) (k : jsstring) :
  jsvalue :=
  match m with
  | [] => None
  | (k', v) :: m' => if str_eqb k' k then Some v else lookupProperty m' k
  end.

(** [v.label] and [v.query]: reading a property that no prototype
    defines.  Reading from [null] throws. *)
Definition getProperty (v : json) (k : jsstring) : completion jsvalue :=
  match v with
  | JNull => Throw TypeError
  | JObj m => Normal (lookupProperty m k)
  | _ => Normal None
  end.

(** The object literal [{ label, query }]. *)
Definition newFilter (label query : jsstring) : json :=
  JObj [(lit "label", JStr label); (lit "query", JStr query)].

(** ** [encodeURIComponent] *)

Definition isAsciiLetter (c : N) : bool :=
  ((65 <=? c) && (c <=? 90)) || ((97 <=? c) && (c <=? 122)).

(** The characters [encodeURIComponent] leaves alone. *)
Definition isUnreserved (c : N) : bool :=
  isAsciiLetter c || isDigit c ||
  (c =? 45) || (c =? 95) || (c =? 46) || (c =? 33) || (c =? 126) ||
  (c =? 42) || (c =? 39) || (c =? 40) || (c =? 41).

Definition upperHexDigit (d : N) : N := if d <? 10 then 48 + d else 55 + d.

Definition percentEncode (b : N) : jsstring :=
  [37; upperHexDigit (b / 16); upperHexDigit (b mod 16)].

Definition utf8 (cp : N) : list N :=
  if cp <? 128 then [cp]
  else if cp <? 2048 then [192 + cp / 64; 128 + cp mod 64]
  else if cp <? 65536
       then [224 + cp / 4096; 128 + cp / 64 mod 64; 128 + cp mod 64]
  else [240 + cp / 262144; 128 + cp / 4096 mod 64;
        128 + cp / 64 mod 64; 128 + cp mod 64].

Definition encodeCodePoint (cp : N) : jsstring :=
  flat_map percentEncode (utf8 cp).

(** Throws [URIError] on a surrogate that has no partner. *)
Fixpoint encodeURIComponent (s : jsstring) : completion jsstring :=
  match s with
  | [] => Normal []
  | c :: s' =>
      if isUnreserved c then
        r ← encodeURIComponent s'; Normal (c :: r)
      else if isLowSurrogate c then Throw URIError
      else if isHighSurrogate c then
        match s' with
        | d :: s'' =>
            if isLowSurrogate d then
              r ← encodeURIComponent s'';
              Normal (encodeCodePoint
                        (65536 + (c - 55296) * 1024 + (d - 56320)) ++ r)
            else Throw URIError
        | [] => Throw URIError
        end
      else
        r ← encodeURIComponent s'; Normal (encodeCodePoint c ++ r)
  end.

(** ** The page: nodes *)

(** The one event listener the script installs: the click handler of the
    favourite button, which reads the search input and calls
    [addNewFilter]. *)
Inductive listener := ClickAddNewFilter.

Inductive node :=
| Text (data : jsstring)
| Element (tag : jsstring) (attrs : list (jsstring * jsstring))
    (listeners : list listener) (children : list node).

Fixpoint getAttribute (attrs : list (jsstring * jsstring)) (name : jsstring) :
  option jsstring :=
  match attrs with
  | [] => None
  | (k, v) :: attrs' =>
      if str_eqb k name then Some v else getAttribute attrs' name
  end.

(** The class list of an element: its [class] attribute split at ASCII
    white space. *)
Definition isAsciiWhiteSpace (c : N) : bool :=
  (c =? 9) || (c =? 10) || (c =? 12) || (c =? 13) || (c =? 32).

Fixpoint splitWhiteSpace (s : jsstring) : list jsstring :=
  match s with
  | [] => [[]]
  | c :: s' =>
      if isAsciiWhiteSpace c then [] :: splitWhiteSpace s'
      else match splitWhiteSpace s' with
           | [] => [[c]]
           | w :: ws => (c :: w) :: ws
           end
  end.

Definition hasClass (n : node) (cls : jsstring) : bool :=
  match n with
  | Text _ => false
  | Element _ attrs _ _ =>
      match getAttribute attrs (lit "class") with
      | Some v => existsb (fun w => str_eqb w cls) (splitWhiteSpace v)
      | None => false
      end
  end.

(** [Node.textContent]. *)
Fixpoint textContent (n : node) : jsstring :=
  match n with
  | Text d => d
  | Element _ _ _ kids => flat_map textContent kids
  end.

(** ** The HTML fragment parser behind [innerHTML]

    The model follows the tokenizer of the HTML standard through its data,
    tag, attribute and character-reference states and the tree builder
    through the nesting of elements.  It covers the markup the script
    writes and markup of the same shape in a label.  Outside the model:
    comments, doctypes and CDATA; raw-text elements; named references
    other than [amp], [lt], [gt], [quot], [apos] and [nbsp], numeric
    references and references without a semicolon; implied end tags, the
    adoption agency algorithm and table rules.  Statements about every
    label rest only on the start tag of the first element, which none of
    these can change. *)

Inductive htoken :=
| HStartTag (name : jsstring) (attrs : list (jsstring * jsstring))
    (selfClosing : bool)
| HEndTag (name : jsstring)
| HText (data : jsstring).

(** The tag being read. *)
Record tagctx := {
  t_end : bool;
  t_name : jsstring;
  t_attrs : list (jsstring * jsstring);
}.

Inductive hstate :=
| Data (text : jsstring)
| TagOpen (text : jsstring)
| EndTagOpen (text : jsstring)
| TagName (t : tagctx)
| BeforeAttrName (t : tagctx)
| AttrName (t : tagctx) (name : jsstring)
| AfterAttrName (t : tagctx) (name : jsstring)
| BeforeAttrValue (t : tagctx) (name : jsstring)
| AttrValueDQ (t : tagctx) (name value : jsstring)
| AttrValueSQ (t : tagctx) (name value : jsstring)
| AttrValueUnq (t : tagctx) (name value : jsstring)
| AfterAttrValueQ (t : tagctx)
| SelfClosingStartTag (t : tagctx).

Definition toAsciiLower (c : N) : N :=
  if (65 <=? c) && (c <=? 90) then c + 32 else c.

(** U+0000 becomes U+FFFD inside a tag. *)
Definition inTag (c : N) : N := if c =? 0 then 65533 else c.

(** The named character reference at the head of [s] (after the
    ampersand): its replacement and its length. *)
Definition namedReference (s : jsstring) : option (N * nat) :=
  if startsWith s (lit "amp;") then Some (38, 4%nat)
  else if startsWith s (lit "lt;") then Some (60, 3%nat)
  else if startsWith s (lit "gt;") then Some (62, 3%nat)
  else if startsWith s (lit "quot;") then Some (34, 5%nat)
  else if startsWith s (lit "apos;") then Some (39, 5%nat)
  else if startsWith s (lit "nbsp;") then Some (160, 5%nat)
  else None.

(** Replace the character references of a text run or attribute value;
    [skip] counts the code units of a reference still to pass over. *)
Fixpoint decodeReferences (skip : nat) (s : jsstring) : jsstring :=
  match s with
  | [] => []
  | c :: s' =>
      match skip with
      | S k => decodeReferences k s'
      | O =>
          if c =? 38 then
            match namedReference s' with
            | Some (r, n) => r :: decodeReferences n s'
            | None => c :: decodeReferences 0 s'
            end
          else c :: decodeReferences 0 s'
      end
  end.

Definition flushText (text : jsstring) : list htoken :=
  match text with
  | [] => []
  | _ => [HText (decodeReferences 0 text)]
  end.

Definition emitTag (t : tagctx) (selfClosing : bool) : list htoken :=
  if t_end t then [HEndTag (t_name t)]
  else [HStartTag (t_name t) (t_attrs t) selfClosing].

(** An attribute is complete; a repeated name is dropped. *)
Definition addAttribute (t : tagctx) (name value : jsstring) : tagctx :=
  match getAttribute (t_attrs t) name with
  | Some _ => t
  | None =>
      {| t_end := t_end t; t_name := t_name t;
         t_attrs := t_attrs t ++ [(name, decodeReferences 0 value)] |}
  end.

Definition extendName (t : tagctx) (c : N) : tagctx :=
  {| t_end := t_end t; t_name := t_name t ++ [inTag (toAsciiLower c)];
     t_attrs := t_attrs t |}.

Definition beforeAttrName (t : tagctx) (c : N) : list htoken * hstate :=
  if isAsciiWhiteSpace c then ([], BeforeAttrName t)
  else if c =? 47 then ([], SelfClosingStartTag t)
  else if c =? 62 then (emitTag t false, Data [])
  else ([], AttrName t [inTag (toAsciiLower c)]).

Definition hstep (st : hstate) (c : N) : list htoken * hstate :=
  match st with
  | Data text =>
      if c =? 60 then ([], TagOpen text)
      else if c =? 0 then ([], Data text)
      else ([], Data (text ++ [c]))
  | TagOpen text =>
      if isAsciiLetter c then
        (flushText text,
         TagName {| t_end := false; t_name := [toAsciiLower c];
                    t_attrs := [] |})
      else if c =? 47 then ([], EndTagOpen text)
      else if c =? 60 then ([], TagOpen (text ++ [60]))
      else ([], Data (text ++ [60; c]))
  | EndTagOpen text =>
      if isAsciiLetter c then
        (flushText text,
         TagName {| t_end := true; t_name := [toAsciiLower c];
                    t_attrs := [] |})
      else if c =? 62 then ([], Data text)
      else ([], Data (text ++ [60; 47; c]))
  | TagName t =>
      if isAsciiWhiteSpace c then ([], BeforeAttrName t)
      else if c =? 47 then ([], SelfClosingStartTag t)
      else if c =? 62 then (emitTag t false, Data [])
      else ([], TagName (extendName t c))
  | BeforeAttrName t => beforeAttrName t c
  | AttrName t name =>
      if isAsciiWhiteSpace c then ([], AfterAttrName t name)
      else if c =? 47 then ([], SelfClosingStartTag (addAttribute t name []))
      else if c =? 62 then (emitTag (addAttribute t name []) false, Data [])
      else if c =? 61 then ([], BeforeAttrValue t name)
      else ([], AttrName t (name ++ [inTag (toAsciiLower c)]))
  | AfterAttrName t name =>
      if isAsciiWhiteSpace c then ([], AfterAttrName t name)
      else if c =? 47 then ([], SelfClosingStartTag (addAttribute t name []))
      else if c =? 61 then ([], BeforeAttrValue t name)
      else if c =? 62 then (emitTag (addAttribute t name []) false, Data [])
      else ([], AttrName (addAttribute t name []) [inTag (toAsciiLower c)])
  | BeforeAttrValue t name =>
      if isAsciiWhiteSpace c then ([], BeforeAttrValue t name)
      else if c =? 34 then ([], AttrValueDQ t name [])
      else if c =? 39 then ([], AttrValueSQ t name [])
      else if c =? 62 then (emitTag (addAttribute t name []) false, Data [])
      else ([], AttrValueUnq t name [inTag c])
  | AttrValueDQ t name value =>
      if c =? 34 then ([], AfterAttrValueQ (addAttribute t name value))
      else ([], AttrValueDQ t name (value ++ [inTag c]))
  | AttrValueSQ t name value =>
      if c =? 39 then ([], AfterAttrValueQ (addAttribute t name value))
      else ([], AttrValueSQ t name (value ++ [inTag c]))
  | AttrValueUnq t name value =>
      if isAsciiWhiteSpace c
      then ([], BeforeAttrName (addAttribute t name value))
      else if c =? 62
      then (emitTag (addAttribute t name value) false, Data [])
      else ([], AttrValueUnq t name (value ++ [inTag c]))
  | AfterAttrValueQ t => beforeAttrName t c
  | SelfClosingStartTag t =>
      if c =? 62 then (emitTag t true, Data [])
      else beforeAttrName t c
  end.

(** At the end of the input a text run is flushed and a tag cut short is
    dropped. *)
Definition hend (st : hstate) : list htoken :=
  match st with
  | Data text => flushText text
  | TagOpen text => flushText (text ++ [60])
  | EndTagOpen text => flushText (text ++ [60; 47])
  | _ => []
  end.

Fixpoint tokenize (st : hstate) (s : jsstring) : list htoken :=
  match s with
  | [] => hend st
  | c :: s' => let (ts, st') := hstep st c in ts ++ tokenize st' s'
  end.

(** Newlines are normalised before tokenizing: CR LF and CR become LF. *)
Fixpoint normalizeNewlines (s : jsstring) : jsstring :=
  match s with
  | [] => []
  | c :: s' =>
      if c =? 13 then
        match s' with
        | d :: s'' => if d =? 10 then 10 :: normalizeNewlines s''
                      else 10 :: normalizeNewlines s'
        | [] => [10]
        end
      else c :: normalizeNewlines s'
  end.

(** *** Tree construction *)

(** An element whose end tag has not been seen. *)
Record open_element := {
  o_tag : jsstring;
  o_attrs : list (jsstring * jsstring);
  o_foreign : bool;
  o_children : list node;
}.

Definition closeElement (o : open_element) : node :=
  Element (o_tag o) (o_attrs o) [] (o_children o).

(** Append a node to a child list; text joins a text node before it. *)
Fixpoint appendNode (kids : list node) (n : node) : list node :=
  match kids with
  | [] => [n]
  | [Text d] =>
      match n with
      | Text d' => [Text (d ++ d')]
      | _ => [Text d; n]
      end
  | k :: kids' => k :: appendNode kids' n
  end.

Definition withChild (o : open_element) (n : node) : open_element :=
  {| o_tag := o_tag o; o_attrs := o_attrs o; o_foreign := o_foreign o;
     o_children := appendNode (o_children o) n |}.

(** The open elements, innermost first, and the children of the root. *)
Definition builder : Type := list open_element * list node.

Definition insertNode (b : builder) (n : node) : builder :=
  match b with
  | ([], root) => ([], appendNode root n)
  | (o :: stack, root) => (withChild o n :: stack, root)
  end.

(** Close open elements, innermost first, until the one named [name] has
    been closed; [n] is the element just closed. *)
Fixpoint closeInto (n : node) (found : bool) (name : jsstring)
  (stack : list open_element) (root : list node) : builder :=
  match stack with
  | [] => ([], appendNode root n)
  | o :: stack' =>
      if found then (withChild o n :: stack', root)
      else closeInto (closeElement (withChild o n))
             (str_eqb (o_tag o) name) name stack' root
  end.

Definition isOpen (name : jsstring) (stack : list open_element) : bool :=
  existsb (fun o => str_eqb (o_tag o) name) stack.

Definition isVoid (name : jsstring) : bool :=
  existsb (str_eqb name)
    (List.map lit ["area"; "base"; "br"; "col"; "embed"; "hr"; "img";
                   "input"; "link"; "meta"; "source"; "track"; "wbr"]).

(** SVG restores the case of [viewBox], which the tokenizer lowered. *)
Definition adjustForeignAttribute (a : jsstring * jsstring) :
  jsstring * jsstring :=
  if str_eqb (fst a) (lit "viewbox") then (lit "viewBox", snd a) else a.

Definition treeStep (b : builder) (t : htoken) : builder :=
  match t with
  | HText d => insertNode b (Text d)
  | HStartTag name attrs selfClosing =>
      let foreign :=
        match fst b with
        | o :: _ => o_foreign o
        | [] => false
        end || str_eqb name (lit "svg") || str_eqb name (lit "math") in
      let attrs' :=
        if foreign then List.map adjustForeignAttribute attrs else attrs in
      if (if foreign then selfClosing else isVoid name)
      then insertNode b (Element name attrs' [] [])
      else ({| o_tag := name; o_attrs := attrs'; o_foreign := foreign;
               o_children := [] |} :: fst b, snd b)
  | HEndTag name =>
      match fst b with
      | o :: stack =>
          if isOpen name (fst b)
          then closeInto (closeElement o) (str_eqb (o_tag o) name) name
                 stack (snd b)
          else b
      | [] => b
      end
  end.

(** At the end of the input every open element is closed; [n] is the
    element just closed. *)
Fixpoint closeAllInto (n : node) (stack : list open_element)
  (root : list node) : list node :=
  match stack with
  | [] => appendNode root n
  | o :: stack' => closeAllInto (closeElement (withChild o n)) stack' root
  end.

Definition closeAll (b : builder) : list node :=
  match fst b with
  | [] => snd b
  | o :: stack => closeAllInto (closeElement o) stack (snd b)
  end.

(** The children an element gets when [html] is assigned to its
    [innerHTML]. *)
Definition parseFragment (html : jsstring) : list node :=
  closeAll
    (fold_left treeStep (tokenize (Data []) (normalizeNewlines html))
       ([], [])).

(** ** Building the injected elements *)

(** [createElementFromHtml]: the first child of a [div] whose [innerHTML]
    is the trimmed markup, or [None] for [null]. *)
Definition createElementFromHtml (html : jsstring) : option node :=
  head (parseFragment (trim html)).

(** The template literal of [createFilterItem]. *)
Definition itemHtml (checked repoPath encodedQuery label : jsstring) :
  jsstring :=
  nl ++ lit "      <a class=" ++ dq ++ lit "SelectMenu-item custom-item" ++
  dq ++ lit " role=" ++ dq ++ lit "menuitemradio" ++ dq ++
  lit " aria-checked=" ++ dq ++ checked ++ dq ++ lit " href=" ++ dq ++
  lit "/" ++ repoPath ++ lit "/issues?q=" ++ encodedQuery ++ dq ++
  lit " data-turbo-frame=" ++ dq ++ lit "repo-content-turbo-frame" ++ dq ++
  lit ">" ++ nl ++ lit "        <svg aria-hidden=" ++ dq ++ lit "true" ++
  dq ++ lit " height=" ++ dq ++ lit "16" ++ dq ++ lit " viewBox=" ++ dq ++
  lit "0 0 16 16" ++ dq ++ lit " version=" ++ dq ++ lit "1.1" ++ dq ++
  lit " width=" ++ dq ++ lit "16" ++ dq ++ lit " data-view-component=" ++
  dq ++ lit "true" ++ dq ++ lit " class=" ++ dq ++
  lit "octicon octicon-check SelectMenu-icon SelectMenu-icon--check" ++ dq ++
  lit ">" ++ nl ++ lit "          <path d=" ++ dq ++
  lit "M13.78 4.22a.75.75 0 0 1 0 1.06l-7.25 7.25a.75.75 0 0 1-1.06" ++
  lit " 0L2.22 9.28a.751.751 0 0 1 .018-1.042.751.751 0 0 1 1.042-." ++
  lit "018L6 10.94l6.72-6.72a.75.75 0 0 1 1.06 0Z" ++ dq ++ lit "></path>" ++
  nl ++ lit "        </svg>" ++ nl ++ lit "        " ++ label ++ nl ++
  lit "      </a>" ++ nl ++ lit "    ".

Definition ToString_bool (b : bool) : jsstring :=
  if b then lit "true" else lit "false".

Definition createFilterItem (pathname : jsstring) (label query : jsvalue)
  (checked : bool) : completion (option node) :=
  q ← ToString query;
  encodedQuery ← encodeURIComponent q;
  text ← ToString label;
  Normal (createElementFromHtml
            (itemHtml (ToString_bool checked) (getRepoPath pathname)
               encodedQuery text)).

(** The template literal of [createAddToFavButton]. *)
Definition favButtonHtml : jsstring :=
  nl ++ lit "      <button id=" ++ dq ++ lit "fav-button" ++ dq ++
  lit " class=" ++ dq ++
  lit "Button Button--iconOnly Button--invisible Button--medium" ++ dq ++
  lit " data-view-component=" ++ dq ++ lit "true" ++ dq ++ lit " type=" ++
  dq ++ lit "button" ++ dq ++ lit " variant=" ++ dq ++ lit "small" ++ dq ++
  lit " id=" ++ dq ++ lit "favorite-query-button" ++ dq ++ lit " role=" ++
  dq ++ lit "button" ++ dq ++ lit ">" ++ nl ++ lit "        <svg class=" ++
  dq ++ lit "octicon octicon-search subnav-search-icon" ++ dq ++
  lit " data-view-component=" ++ dq ++ lit "true" ++ dq ++ lit " width=" ++
  dq ++ lit "16" ++ dq ++ lit " version=" ++ dq ++ lit "1.1" ++ dq ++
  lit " viewBox=" ++ dq ++ lit "0 0 471.701 471.701" ++ dq ++
  lit " height=" ++ dq ++ lit "16" ++ dq ++ lit " aria-hidden=" ++ dq ++
  lit "true" ++ dq ++ lit ">" ++ nl ++ lit "            <path d=" ++ dq ++
  lit "M433.601,67.001c-24.7-24.7-57.4-38.2-92.3-38.2s-67.7,13.6-92" ++
  lit ".4,38.3l-12.9,12.9l-13.1-13.1 c-24.7-24.7-57.6-38.4-92.5-38." ++
  lit "4c-34.8,0-67.6,13.6-92.2,38.2c-24.7,24.7-38.3,57.5-38.2,92.4" ++
  lit "c0,34.9,13.7,67.6,38.4,92.3 l187.8,187.8c2.6,2.6,6.1,4,9.5,4" ++
  lit "c3.4,0,6.9-1.3,9.5-3.9l188.2-187.5c24.7-24.7,38.3-57.5,38.3-" ++
  lit "92.4 C471.801,124.501,458.301,91.701,433.601,67.001z M414.40" ++
  lit "1,232.701l-178.7,178l-178.3-178.3c-19.6-19.6-30.4-45.6-30.4-" ++
  lit "73.3 s10.7-53.7,30.3-73.2c19.5-19.5,45.5-30.3,73.1-30.3c27.7" ++
  lit ",0,53.8,10.8,73.4,30.4l22.6,22.6c5.3,5.3,13.8,5.3,19.1,0l22." ++
  lit "4-22.4 c19.6-19.6,45.7-30.4,73.3-30.4c27.6,0,53.6,10.8,73.2," ++
  lit "30.3c19.6,19.6,30.3,45.6,30.3,73.3 C444.801,187.101,434.001," ++
  lit "213.101,414.401,232.701z" ++ dq ++ lit "></path>" ++ nl ++
  lit "        </svg>" ++ nl ++ lit "      </button>" ++ nl ++ lit "    ".

(** The button, with its click listener.  The markup is constant and its
    first node is the button element. *)
Definition createAddToFavButton : completion node :=
  match createElementFromHtml favButtonHtml with
  | Some (Element tag attrs ls kids) =>
      Normal (Element tag attrs (ls ++ [ClickAddNewFilter]) kids)
  | Some (Text d) => Normal (Text d)
  | None => Throw TypeError
  end.

(** ** [localStorage] *)

(** The store of the page's origin.  Access can be denied altogether
    ([SecurityError]), and a write that would take the store beyond its
    quota fails ([QuotaExceededError]). *)
Record Storage := {
  items : gmap jsstring jsstring;
  accessible : bool;
  quota : N;
}.

Definition storageSize (m : gmap jsstring jsstring) : N :=
  map_fold (fun k v n => n + N.of_nat (length k) + N.of_nat (length v)) 0 m.

Definition getItem (st : Storage) (key : jsstring) :
  completion (option jsstring) :=
  if accessible st then Normal (items st !! key) else Throw SecurityError.

Definition setItem (st : Storage) (key value : jsstring) :
  completion Storage :=
  if accessible st then
    let m := <[key := value]> (items st) in
    if storageSize m <=? quota st
    then Normal {| items := m; accessible := true; quota := quota st |}
    else Throw QuotaExceededError
  else Throw SecurityError.

(** ** The page: mount points *)

Definition SUBNAV_SEARCH_SELECTOR : jsstring := lit ".subnav-search".
Definition SUBNAV_SEARCH_INPUT_SELECTOR : jsstring :=
  SUBNAV_SEARCH_SELECTOR ++ lit " .subnav-search-input".
Definition FILTERS_SEARCH_SELECTOR : jsstring :=
  lit "#filters-select-menu .SelectMenu-list".

(** The document, as far as the script looks at it: what
    [document.querySelector] finds for each of the three selectors.  The
    two mount points are distinct elements of the host page, neither
    inside the other.
    - [filtersDropdown]: the children of the first element matching
      [FILTERS_SEARCH_SELECTOR], [None] when there is none;
    - [filterContainer]: the children of the first element matching
      [SUBNAV_SEARCH_SELECTOR];
    - [searchInput]: the value of the first element matching
      [SUBNAV_SEARCH_INPUT_SELECTOR]. *)
Record Document := {
  filtersDropdown : option (list node);
  filterContainer : option (list node);
  searchInput : option jsstring;
}.

(** ** Timers *)

(** A pending call of the retry callback.  [chain] is ghost: the number
    of the navigation trigger whose retry window the call belongs to. *)
Record Timer := {
  due : N;
  chain : nat;
}.

(** The timer to run next and the timers that stay: the earliest one,
    the first of these in the order they were set. *)
Fixpoint nextTimer (ts : list Timer) : option (Timer * list Timer) :=
  match ts with
  | [] => None
  | t :: ts' =>
      match nextTimer ts' with
      | Some (u, rest) =>
          if due u <? due t then Some (u, t :: rest) else Some (t, ts')
      | None => Some (t, [])
      end
  end.

(** ** The state: the [GitHubPRFilter] instance and its window *)

Record State := {
  (** fields of the instance *)
  filters : json;
  retryAttempts : nat;
  (** the window *)
  pathname : jsstring;
  localStorage : Storage;
  document : Document;
  console : list console_entry;
  timers : list Timer;
  now : N;
  (** the messages [prompt] has shown *)
  prompts : list jsstring;
  (** ghost: the navigation triggers so far, and the delayed re-checks
      made, each with its chain and its time *)
  triggers : nat;
  rechecks : list (nat * N);
}.

Definition set_filters (v : json) (s : State) : State :=
  {| filters := v; retryAttempts := retryAttempts s;
     pathname := pathname s; localStorage := localStorage s;
     document := document s; console := console s; timers := timers s;
     now := now s; prompts := prompts s; triggers := triggers s;
     rechecks := rechecks s |}.

Definition set_retryAttempts (n : nat) (s : State) : State :=
  {| filters := filters s; retryAttempts := n;
     pathname := pathname s; localStorage := localStorage s;
     document := document s; console := console s; timers := timers s;
     now := now s; prompts := prompts s; triggers := triggers s;
     rechecks := rechecks s |}.

Definition set_pathname (p : jsstring) (s : State) : State :=
  {| filters := filters s; retryAttempts := retryAttempts s;
     pathname := p; localStorage := localStorage s;
     document := document s; console := console s; timers := timers s;
     now := now s; prompts := prompts s; triggers := triggers s;
     rechecks := rechecks s |}.

Definition set_localStorage (st : Storage) (s : State) : State :=
  {| filters := filters s; retryAttempts := retryAttempts s;
     pathname := pathname s; localStorage := st;
     document := document s; console := console s; timers := timers s;
     now := now s; prompts := prompts s; triggers := triggers s;
     rechecks := rechecks s |}.

Definition set_document (d : Document) (s : State) : State :=
  {| filters := filters s; retryAttempts := retryAttempts s;
     pathname := pathname s; localStorage := localStorage s;
     document := d; console := console s; timers := timers s;
     now := now s; prompts := prompts s; triggers := triggers s;
     rechecks := rechecks s |}.

Definition log (e : console_entry) (s : State) : State :=
  {| filters := filters s; retryAttempts := retryAttempts s;
     pathname := pathname s; localStorage := localStorage s;
     document := document s; console := console s ++ [e];
     timers := timers s; now := now s; prompts := prompts s;
     triggers := triggers s; rechecks := rechecks s |}.

Definition set_timers (ts : list Timer) (s : State) : State :=
  {| filters := filters s; retryAttempts := retryAttempts s;
     pathname := pathname s; localStorage := localStorage s;
     document := document s; console := console s; timers := ts;
     now := now s; prompts := prompts s; triggers := triggers s;
     rechecks := rechecks s |}.

Definition set_now (t : N) (s : State) : State :=
  {| filters := filters s; retryAttempts := retryAttempts s;
     pathname := pathname s; localStorage := localStorage s;
     document := document s; console := console s; timers := timers s;
     now := t; prompts := prompts s; triggers := triggers s;
     rechecks := rechecks s |}.

Definition add_prompt (m : jsstring) (s : State) : State :=
  {| filters := filters s; retryAttempts := retryAttempts s;
     pathname := pathname s; localStorage := localStorage s;
     document := document s; console := console s; timers := timers s;
     now := now s; prompts := prompts s ++ [m]; triggers := triggers s;
     rechecks := rechecks s |}.

Definition set_triggers (n : nat) (s : State) : State :=
  {| filters := filters s; retryAttempts := retryAttempts s;
     pathname := pathname s; localStorage := localStorage s;
     document := document s; console := console s; timers := timers s;
     now := now s; prompts := prompts s; triggers := n;
     rechecks := rechecks s |}.

Definition add_recheck (c : nat * N) (s : State) : State :=
  {| filters := filters s; retryAttempts := retryAttempts s;
     pathname := pathname s; localStorage := localStorage s;
     document := document s; console := console s; timers := timers s;
     now := now s; prompts := prompts s; triggers := triggers s;
     rechecks := rechecks s ++ [c] |}.

Definition set_filtersDropdown (kids : list node) (s : State) : State :=
  set_document
    {| filtersDropdown := Some kids;
       filterContainer := filterContainer (document s);
       searchInput := searchInput (document s) |} s.

Definition set_filterContainer (kids : list node) (s : State) : State :=
  set_document
    {| filtersDropdown := filtersDropdown (document s);
       filterContainer := Some kids;
       searchInput := searchInput (document s) |} s.

(** ** Persistence *)

(** The [try] block of [loadFilters]. *)
Definition loadFilters_body (s : State) : completion json :=
  stored ← getItem (localStorage s) getStorageKey;
  match stored with
  | Some (c :: text) => JSON_parse (c :: text)
  | _ => Normal (JArr [])
  end.

Definition loadFilters (s : State) : State * json :=
  try_catch
    (v ← loadFilters_body s; Normal (s, v))
    (fun error => (log (Error (lit "Error loading filters:") error) s,
                   JArr [])).

Definition saveFilters (s : State) : State :=
  try_catch
    (st ← setItem (localStorage s) getStorageKey
            (JSON_stringify (filters s));
     Normal (set_localStorage st s))
    (fun error => log (Error (lit "Error saving filters:") error) s).

(** ** Rendering *)

Definition CUSTOM_ITEM : jsstring := lit "custom-item".

(** Has [n] a proper descendant of class [custom-item]? *)
Fixpoint hasCustomDescendant (n : node) : bool :=
  match n with
  | Text _ => false
  | Element _ _ _ kids =>
      existsb (fun k => hasClass k CUSTOM_ITEM || hasCustomDescendant k) kids
  end.

(** The loop of [clearOldItems] over the children of the dropdown.
    [querySelectorAll] lists every descendant of class [custom-item] in
    document order, and [removeChild] throws [NotFoundError] at the first
    of them that is not a child of the dropdown. *)
Fixpoint removeCustomItems (kids : list node) :
  list node * completion unit :=
  match kids with
  | [] => ([], Normal ())
  | k :: kids' =>
      if hasClass k CUSTOM_ITEM then
        if hasCustomDescendant k then (kids', Throw NotFoundError)
        else removeCustomItems kids'
      else if hasCustomDescendant k then (kids, Throw NotFoundError)
      else let (r, c) := removeCustomItems kids' in (k :: r, c)
  end.

Definition clearOldItems (dropdown : option (list node)) :
  option (list node) * completion unit :=
  match dropdown with
  | None => (None, Normal ())
  | Some kids => let (r, c) := removeCustomItems kids in (Some r, c)
  end.

(** [prepend] takes a node or a string; [null] becomes the text [null]. *)
Definition nodeOrText (n : option node) : node :=
  match n with
  | Some x => x
  | None => Text (lit "null")
  end.

(** The [forEach] of [initializeDropdown]: one item per filter, each put
    in front of the children so far. *)
Fixpoint prependItems (path : jsstring) (fs : list json) (kids : list node) :
  list node * completion unit :=
  match fs with
  | [] => (kids, Normal ())
  | f :: fs' =>
      match (label ← getProperty f (lit "label");
             query ← getProperty f (lit "query");
             createFilterItem path label query false) with
      | Normal item => prependItems path fs' (nodeOrText item :: kids)
      | Throw e => (kids, Throw e)
      end
  end.

(** [if (this.filters.length > 0) this.filters.slice().reverse().forEach(..)]
    for whatever value [this.filters] holds. *)
Definition addExistingFilters (path : jsstring) (fs : json)
  (kids : list node) : list node * completion unit :=
  match fs with
  | JNull => (kids, Throw TypeError)
  | JArr l => prependItems path (rev l) kids
  | JStr [] => (kids, Normal ())
  | JStr _ => (kids, Throw TypeError)
  | JObj m =>
      match greaterThanZero (lookupProperty m (lit "length")) with
      | Normal true => (kids, Throw TypeError)
      | Normal false => (kids, Normal ())
      | Throw e => (kids, Throw e)
      end
  | _ => (kids, Normal ())
  end.

Definition initializeDropdown (s : State) : State * completion unit :=
  match filtersDropdown (document s) with
  | None => (s, Normal ())
  | Some kids =>
      let (cleared, c) := removeCustomItems kids in
      let s1 := set_filtersDropdown cleared s in
      match c with
      | Throw e => (s1, Throw e)
      | Normal _ =>
          match filterContainer (document s1) with
          | None => (s1, Normal ())
          | Some container =>
              let (items, c') :=
                addExistingFilters (pathname s1) (filters s1) cleared in
              let s2 := set_filtersDropdown items s1 in
              match c' with
              | Throw e => (s2, Throw e)
              | Normal _ =>
                  match createAddToFavButton with
                  | Normal b =>
                      (set_filterContainer (container ++ [b]) s2, Normal ())
                  | Throw e => (s2, Throw e)
                  end
              end
          end
      end
  end.

(** ** Retrying and navigation *)

Definition mountPointPresent (s : State) : bool :=
  match filterContainer (document s) with
  | Some _ => true
  | None => false
  end.

Definition RETRY_WARNING : jsstring :=
  lit "Failed to initialize GitHub PR Filter after maximum retry attempts".

(** [g] is the chain of the retry window this call belongs to. *)
Definition retryInitialization (g : nat) (s : State) : State :=
  if (MAX_RETRY_ATTEMPTS <=? retryAttempts s)%nat then
    log (Warn RETRY_WARNING) s
  else
    let s1 := set_retryAttempts (S (retryAttempts s)) s in
    set_timers (timers s1 ++ [{| due := now s1 + RETRY_DELAY; chain := g |}])
      s1.

(** The callback [retryInitialization] hands to [setTimeout]. *)
Definition retryCallback (g : nat) (s : State) : State * completion unit :=
  if mountPointPresent s then initializeDropdown s
  else (retryInitialization g s, Normal ()).

Definition handleLocationChange (s : State) : State * completion unit :=
  let g := S (triggers s) in
  let s1 := set_triggers g (set_retryAttempts 0 s) in
  if negb (isPullRequestPage (pathname s1)) then (s1, Normal ())
  else
    let (s2, v) := loadFilters s1 in
    let s3 := set_filters v s2 in
    if mountPointPresent s3 then initializeDropdown s3
    else (retryInitialization g s3, Normal ()).

(** The event loop runs the next timer: time moves to its due time and
    the callback makes its delayed re-check. *)
Definition runTimer (s : State) : option (State * completion unit) :=
  match nextTimer (timers s) with
  | None => None
  | Some (t, rest) =>
      let time := N.max (now s) (due t) in
      let s1 := set_now time (set_timers rest s) in
      Some (retryCallback (chain t) (add_recheck (chain t, time) s1))
  end.

(** A record of the mutation observer, as far as the callback reads it. *)
Record mutation := {
  target_id : jsstring;
  target_turbo_body : option jsstring;
}.

Definition isNavigationMutation (m : mutation) : bool :=
  str_eqb (target_id m) (lit "js-repo-pjax-container") ||
  match target_turbo_body m with
  | Some _ => true
  | None => false
  end.

(** The callback of the [MutationObserver]. *)
Definition onMutations (ms : list mutation) (s : State) :
  State * completion unit :=
  if existsb isNavigationMutation ms then handleLocationChange s
  else (s, Normal ()).

(** ** Adding a filter *)

(** [prompt] shows the message and returns the user's answer, [None]
    when the user cancels; [promptAsync] resolves to it or to the empty
    string. *)
Definition promptAsync (message : jsstring) (answer : option jsstring)
  (s : State) : State * jsstring :=
  (add_prompt message s,
   match answer with
   | Some (c :: r) => c :: r
   | _ => []
   end).

(** [this.filters.push(newFilter)]. *)
Definition pushFilter (f : json) (s : State) : completion State :=
  match filters s with
  | JArr l => Normal (set_filters (JArr (l ++ [f])) s)
  | _ => Throw TypeError
  end.

Definition addNewFilter (query : jsstring) (answer : option jsstring)
  (s : State) : State :=
  match query with
  | [] => s
  | _ =>
      let (s1, label) := promptAsync (lit "Enter filter label:") answer s in
      match label with
      | [] => s1
      | _ =>
          match pushFilter (newFilter label query) s1 with
          | Throw error => log (Error (lit "Error adding filter:") error) s1
          | Normal s2 =>
              let (s3, c) := initializeDropdown (saveFilters s2) in
              match c with
              | Throw error =>
                  log (Error (lit "Error adding filter:") error) s3
              | Normal _ => s3
              end
          end
      end
  end.

(** The click listener of the favourite button. *)
Definition clickFavButton (answer : option jsstring) (s : State) :
  State * completion unit :=
  match searchInput (document s) with
  | None => (s, Throw TypeError)
  | Some value => (addNewFilter value answer s, Normal ())
  end.

(** [new GitHubPRFilter()] in a window. *)
Definition construct (s : State) : State * completion unit :=
  handleLocationChange (set_retryAttempts 0 (set_filters (JArr []) s)).

(** ** Notions the statements use *)

(** A filter as the specification has it: a label and a query. *)
Record Filter := {
  label : jsstring;
  query : jsstring;
}.

Definition filterValue (f : Filter) : json := newFilter (label f) (query f).

(** The array [this.filters] holds for a sequence of filters. *)
Definition filterArray (fs : list Filter) : json :=
  JArr (List.map filterValue fs).

(** The node [initializeDropdown] prepends for a filter. *)
Definition renderItem (path : jsstring) (f : Filter) : completion node :=
  item ← createFilterItem path (Some (JStr (label f)))
           (Some (JStr (query f))) false;
  Normal (nodeOrText item).

(** The items the script injected among the children of the dropdown. *)
Definition injectedItems (kids : list node) : list node :=
  List.filter (fun k => hasClass k CUSTOM_ITEM) kids.

(** What an item of the dropdown shows: its text, trimmed. *)
Definition itemText (n : node) : jsstring := trim (textContent n).

(** The children of an element node. *)
Definition childNodes (n : node) : list node :=
  match n with
  | Text _ => []
  | Element _ _ _ kids => kids
  end.

Definition tagName (n : node) : option jsstring :=
  match n with
  | Text _ => None
  | Element tag _ _ _ => Some tag
  end.

Definition attribute (n : node) (name : jsstring) : option jsstring :=
  match n with
  | Text _ => None
  | Element _ attrs _ _ => getAttribute attrs name
  end.

(** A character of [location.pathname]: the URL parser percent-encodes
    controls, the space, the double quote, [#], [<], [>], [?], the
    backtick, the braces and everything above [~]. *)
Definition isPathChar (c : N) : bool :=
  (33 <=? c) && (c <=? 126) &&
  negb ((c =? 34) || (c =? 35) || (c =? 60) || (c =? 62) || (c =? 63) ||
        (c =? 96) || (c =? 123) || (c =? 125)).

(** What happens after a navigation trigger while no other trigger
    arrives and the mount point stays away: the event loop runs a timer,
    the host page changes the document, or time passes short of the next
    timer. *)
Inductive quiet_step : State -> State -> Prop :=
| step_timer s s' c :
    runTimer s = Some (s', c) -> quiet_step s s'
| step_page s d :
    filterContainer d = None -> quiet_step s (set_document d s)
| step_wait s t :
    now s <= t -> Forall (fun u => t <= due u) (timers s) ->
    quiet_step s (set_now t s).

Inductive quiet_run : State -> State -> Prop :=
| run_done s : quiet_run s s
| run_step s s' s'' : quiet_run s s' -> quiet_step s' s'' -> quiet_run s s''.

(** The same while the event loop is free to run a timer late: time
    passes as it will, and a timer that is overdue runs at the time it is
    taken up. *)
Inductive window_step : State -> State -> Prop :=
| late_timer s s' c :
    runTimer s = Some (s', c) -> window_step s s'
| late_page s d :
    filterContainer d = None -> window_step s (set_document d s)
| late_wait s t :
    now s <= t -> window_step s (set_now t s).

Inductive window_run : State -> State -> Prop :=
| window_done s : window_run s s
| window_next s s' s'' :
    window_run s s' -> window_step s' s'' -> window_run s s''.

(** The times of the delayed re-checks made after the first [n], of
    whatever trigger. *)
Definition recheckTimes (n : nat) (s : State) : list N :=
  List.map snd (drop n (rechecks s)).

(** Each of the times [ts] is at least [RETRY_DELAY] after the one
    before it, the first after [t]. *)
Fixpoint spaced (t : N) (ts : list N) : Prop :=
  match ts with
  | [] => True
  | u :: ts' => t + RETRY_DELAY <= u /\ spaced u ts'
  end.

(** The last of the times [ts], or [t] when there is none. *)
Fixpoint lastTime (t : N) (ts : list N) : N :=
  match ts with
  | [] => t
  | u :: ts' => lastTime u ts'
  end.

(** Run the pending timers, at most [n] of them. *)
Fixpoint runTimers (n : nat) (s : State) : State :=
  match n with
  | O => s
  | S n' =>
      match runTimer s with
      | Some (s', _) => runTimers n' s'
      | None => s
      end
  end.

(** No timer is overdue, and no timer belongs to a trigger yet to come. *)
Definition consistent (s : State) : Prop :=
  Forall (fun t => now s <= due t /\ (chain t <= triggers s)%nat) (timers s).

(** The states the script can be in: it is constructed in a window where
    no timer of its own is pending; then navigation triggers, timers and
    clicks run its methods, and around them the host page changes the
    document and the location, other scripts write the storage, and time
    passes short of the next timer. *)
Inductive reachable : State -> Prop :=
| reach_construct s :
    timers s = [] -> reachable (fst (construct s))
| reach_trigger s :
    reachable s -> reachable (fst (handleLocationChange s))
| reach_mutations s ms :
    reachable s -> reachable (fst (onMutations ms s))
| reach_timer s s' c :
    reachable s -> runTimer s = Some (s', c) -> reachable s'
| reach_click s answer :
    reachable s -> reachable (fst (clickFavButton answer s))
| reach_page s d :
    reachable s -> reachable (set_document d s)
| reach_location s p :
    reachable s -> reachable (set_pathname p s)
| reach_storage s st :
    reachable s -> reachable (set_localStorage st s)
| reach_wait s t :
    reachable s -> now s <= t -> Forall (fun u => t <= due u) (timers s) ->
    reachable (set_now t s).

(** A state without its ghost fields. *)
Definition eraseTimer (t : Timer) : Timer := {| due := due t; chain := 0 |}.

Definition eraseGhost (s : State) : State :=
  {| filters := filters s; retryAttempts := retryAttempts s;
     pathname := pathname s; localStorage := localStorage s;
     document := document s; console := console s;
     timers := List.map eraseTimer (timers s); now := now s;
     prompts := prompts s; triggers := 0; rechecks := [] |}.

(** The delayed re-checks of chain [g] made after the first [n]. *)
Definition rechecksSince (n : nat) (g : nat) (s : State) : list N :=
  List.map snd
    (List.filter (fun c => (fst c =? g)%nat) (drop n (rechecks s))).

(** ** Auxiliary definitions of the proofs *)

(** The tokenizer over a prefix of its input: the tokens it emits and
    the state it ends in. *)
Fixpoint hrun (st : hstate) (s : jsstring) : list htoken * hstate :=
  match s with
  | [] => ([], st)
  | c :: s' =>
      let (ts, st') := hstep st c in
      let (ts', st'') := hrun st' s' in
      (ts ++ ts', st'')
  end.

(** A code unit that a double-quoted attribute value takes as it is:
    not U+0000, not a carriage return, not the double quote and not the
    ampersand. *)
Definition attrPlain (c : N) : bool :=
  negb ((c =? 0) || (c =? 13) || (c =? 34) || (c =? 38)).

(** The attributes of the anchor of a filter item. *)
Definition itemAttributes (checked href : jsstring) :
  list (jsstring * jsstring) :=
  [(lit "class", lit "SelectMenu-item custom-item");
   (lit "role", lit "menuitemradio");
   (lit "aria-checked", checked);
   (lit "href", href);
   (lit "data-turbo-frame", lit "repo-content-turbo-frame")].

(** The link target the template of [createFilterItem] writes. *)
Definition itemHref (repoPath encodedQuery : jsstring) : jsstring :=
  lit "/" ++ repoPath ++ lit "/issues?q=" ++ encodedQuery.

(** The start tag of the anchor in the template of [createFilterItem],
    and what the template puts after it. *)
Definition itemOpenTag (checked href : jsstring) : jsstring :=
  lit "<a class=" ++ dq ++ lit "SelectMenu-item custom-item" ++ dq ++
  lit " role=" ++ dq ++ lit "menuitemradio" ++ dq ++
  lit " aria-checked=" ++ dq ++ checked ++ dq ++
  lit " href=" ++ dq ++ href ++ dq ++
  lit " data-turbo-frame=" ++ dq ++ lit "repo-content-turbo-frame" ++ dq ++
  lit ">".

Definition itemBody (label : jsstring) : jsstring :=
  nl ++ lit "        <svg aria-hidden=" ++ dq ++ lit "true" ++ dq ++
  lit " height=" ++ dq ++ lit "16" ++ dq ++ lit " viewBox=" ++ dq ++
  lit "0 0 16 16" ++ dq ++ lit " version=" ++ dq ++ lit "1.1" ++ dq ++
  lit " width=" ++ dq ++ lit "16" ++ dq ++ lit " data-view-component=" ++
  dq ++ lit "true" ++ dq ++ lit " class=" ++ dq ++
  lit "octicon octicon-check SelectMenu-icon SelectMenu-icon--check" ++ dq ++
  lit ">" ++ nl ++ lit "          <path d=" ++ dq ++
  lit "M13.78 4.22a.75.75 0 0 1 0 1.06l-7.25 7.25a.75.75 0 0 1-1.06" ++
  lit " 0L2.22 9.28a.751.751 0 0 1 .018-1.042.751.751 0 0 1 1.042-." ++
  lit "018L6 10.94l6.72-6.72a.75.75 0 0 1 1.06 0Z" ++ dq ++ lit "></path>" ++
  nl ++ lit "        </svg>" ++ nl ++ lit "        " ++ label ++ nl ++
  lit "      </a>" ++ nl ++ lit "    ".

(** The first node a tree builder will deliver is the element [tag] with
    the attributes [attrs]: it is the outermost open element, or already
    the first child of the root. *)
Definition firstElement (tag : jsstring) (attrs : list (jsstring * jsstring))
  (b : builder) : Prop :=
  (snd b = [] /\
   exists inner o,
     fst b = inner ++ [o] /\ o_tag o = tag /\ o_attrs o = attrs) \/
  (exists kids rest, snd b = Element tag attrs [] kids :: rest).

(** The pending timers of chain [g]. *)
Definition ofChain (g : nat) (ts : list Timer) : list Timer :=
  List.filter (fun t => (chain t =? g)%nat) ts.

(** What running the timer [t] does while the mount point is away;
    [rest] are the timers that stay. *)
Definition fireTimer (t : Timer) (rest : list Timer) (s : State) : State :=
  let time := N.max (now s) (due t) in
  retryInitialization (chain t)
    (add_recheck (chain t, time) (set_now time (set_timers rest s))).

(** The time of the [i]-th delayed re-check of a window opened at [t0]. *)
Definition recheckTime (t0 : N) (i : nat) : N := t0 + RETRY_DELAY * N.of_nat i.

(** The invariant of the retry window of chain [g], opened at time [t0]
    when [n0] re-checks had been made and the console held [c0]. *)
Record window_inv (g : nat) (t0 : N) (n0 : nat) (c0 : list console_entry)
  (s : State) : Prop := {
  inv_absent : filterContainer (document s) = None;
  inv_triggers : triggers s = g;
  inv_attempts : (retryAttempts s <= MAX_RETRY_ATTEMPTS)%nat;
  inv_timers :
    Forall (fun t => now s <= due t /\ (chain t <= g)%nat) (timers s);
  inv_trace : (n0 <= length (rechecks s))%nat;
  inv_console :
    exists extra,
      console s = c0 ++ extra /\
      (ofChain g (timers s) = [] -> In (Warn RETRY_WARNING) extra);
  inv_chain :
    exists k,
      rechecksSince n0 g s = List.map (recheckTime t0) (seq 1 k) /\
      (k <= MAX_RETRY_ATTEMPTS)%nat /\
      (ofChain g (timers s) = [] \/
       ofChain g (timers s) =
         [{| due := recheckTime t0 (S k); chain := g |}] /\
       (S k <= retryAttempts s)%nat);
}.

(** The invariant of the retry window of a trigger at which no timer
    was pending: the trigger was number [g], at time [t0], when [n0]
    re-checks had been made and the console held [c0].  Either one timer
    is pending, due [RETRY_DELAY] after the latest re-check, and no
    warning has been logged; or three re-checks have been made, the
    warning has been logged and no timer is pending. *)
Record lone_inv (g : nat) (t0 : N) (n0 : nat) (c0 : list console_entry)
  (s : State) : Prop := {
  lone_absent : filterContainer (document s) = None;
  lone_trace : (n0 <= length (rechecks s))%nat;
  lone_chain : Forall (fun c => fst c = g) (drop n0 (rechecks s));
  lone_spaced : spaced t0 (recheckTimes n0 s);
  lone_state :
    (exists t,
        timers s = [t] /\ chain t = g /\
        due t = lastTime t0 (recheckTimes n0 s) + RETRY_DELAY /\
        retryAttempts s = S (length (recheckTimes n0 s)) /\
        (length (recheckTimes n0 s) < MAX_RETRY_ATTEMPTS)%nat /\
        console s = c0) \/
    (timers s = [] /\
     length (recheckTimes n0 s) = MAX_RETRY_ATTEMPTS /\
     retryAttempts s = MAX_RETRY_ATTEMPTS /\
     console s = c0 ++ [Warn RETRY_WARNING]);
}.

(** The tokens of the JSON text of a filter, and of an array of them. *)
Definition filterTokens (f : Filter) : list token :=
  [TLBrace; TString (lit "label"); TColon; TString (label f); TComma;
   TString (lit "query"); TColon; TString (query f); TRBrace].

Fixpoint elementTokens (fs : list Filter) : list token :=
  match fs with
  | [] => []
  | [f] => filterTokens f
  | f :: fs' => filterTokens f ++ TComma :: elementTokens fs'
  end.

(** [text] lexes to [ts] and leaves the lexer between tokens, whatever
    follows. *)
Definition lexes (text : jsstring) (ts : list token) : Prop :=
  forall rest ts',
    lex LStart rest = Some ts' ->
    lex LStart (text ++ rest) = Some (ts ++ ts').

(** ** Notions of the further properties *)

(** A child of the dropdown that the script did not inject. *)
Definition isHostItem (k : node) : bool := negb (hasClass k CUSTOM_ITEM).

(** No child of the dropdown holds an injected item further down. *)
Definition flatItems (kids : list node) : bool :=
  forallb (fun k => negb (hasCustomDescendant k)) kids.

(** How deep the arrays of a value nest. *)
Fixpoint arrayDepth (v : json) : nat :=
  match v with
  | JArr l => S (fold_right (fun x d => Nat.max (arrayDepth x) d) 0%nat l)
  | _ => 0%nat
  end.

(** A code unit that a text run takes as it is: not U+0000, not a
    carriage return, not the ampersand and not the less-than sign. *)
Definition textPlain (c : N) : bool :=
  negb ((c =? 0) || (c =? 13) || (c =? 38) || (c =? 60)).

(** The check mark in the template of [createFilterItem]. *)
Definition checkIcon : node :=
  Element (lit "svg")
    [(lit "aria-hidden", lit "true"); (lit "height", lit "16");
     (lit "viewBox", lit "0 0 16 16"); (lit "version", lit "1.1");
     (lit "width", lit "16"); (lit "data-view-component", lit "true");
     (lit "class",
      lit "octicon octicon-check SelectMenu-icon SelectMenu-icon--check")]
    []
    [Text (nl ++ lit "          ");
     Element (lit "path")
       [(lit "d",
         lit "M13.78 4.22a.75.75 0 0 1 0 1.06l-7.25 7.25a.75.75 0 0 1-1.06" ++
         lit " 0L2.22 9.28a.751.751 0 0 1 .018-1.042.751.751 0 0 1 1.042-." ++
         lit "018L6 10.94l6.72-6.72a.75.75 0 0 1 1.06 0Z")] [] [];
     Text (nl ++ lit "        ")].

(** The item of the template with [label] as one run of text. *)
Definition plainItem (checked href label : jsstring) : node :=
  Element (lit "a") (itemAttributes checked href) []
    [Text (nl ++ lit "        "); checkIcon;
     Text (nl ++ lit "        " ++ label ++ nl ++ lit "      ")].

(** The template after the start tag of the anchor, up to the label and
    from the label on, trailing white space trimmed. *)
Definition itemBodyHead : jsstring :=
  nl ++ lit "        <svg aria-hidden=" ++ dq ++ lit "true" ++ dq ++
  lit " height=" ++ dq ++ lit "16" ++ dq ++ lit " viewBox=" ++ dq ++
  lit "0 0 16 16" ++ dq ++ lit " version=" ++ dq ++ lit "1.1" ++ dq ++
  lit " width=" ++ dq ++ lit "16" ++ dq ++ lit " data-view-component=" ++
  dq ++ lit "true" ++ dq ++ lit " class=" ++ dq ++
  lit "octicon octicon-check SelectMenu-icon SelectMenu-icon--check" ++ dq ++
  lit ">" ++ nl ++ lit "          <path d=" ++ dq ++
  lit "M13.78 4.22a.75.75 0 0 1 0 1.06l-7.25 7.25a.75.75 0 0 1-1.06" ++
  lit " 0L2.22 9.28a.751.751 0 0 1 .018-1.042.751.751 0 0 1 1.042-." ++
  lit "018L6 10.94l6.72-6.72a.75.75 0 0 1 1.06 0Z" ++ dq ++ lit "></path>" ++
  nl ++ lit "        </svg>" ++ nl ++ lit "        ".

Definition itemBodyTail : jsstring := nl ++ lit "      </a>".

(** A filter whose label is plain text and whose query
    [encodeURIComponent] encodes. *)
Definition isPlainFilter (f : Filter) : bool :=
  forallb textPlain (label f) &&
  match encodeURIComponent (query f) with
  | Normal _ => true
  | Throw _ => false
  end.

(** The item of such a filter at the location [path]. *)
Definition plainItemOf (path : jsstring) (f : Filter) : node :=
  plainItem (lit "false")
    (itemHref (getRepoPath path)
       (match encodeURIComponent (query f) with
        | Normal enc => enc
        | Throw _ => []
        end))
    (label f).

End Script.

(** The favourite button [createAddToFavButton] returns. *)
Definition favButton : node := Eval vm_compute in
    match createAddToFavButton with
    | Normal b => b
    | Throw _ => Text []
    end.

(** ** Concrete pages

    The closed examples below hold no number, so any reading of
    [Float64] serves them: here a number is kept as its literal. *)

Definition literalNumbers : Float64 :=
  {| number := jsstring;
     number_of_literal := fun l => l;
     Number_toString := fun n => n;
     Number_isFinite := fun _ => true;
     StringToNumber := fun s => s;
     Number_positive := fun _ => false |}.

Definition emptyStorage : Storage :=
  {| items := ∅; accessible := true; quota := 5242880 |}.

(** A store that takes no write, as in a private window. *)
Definition fullStorage : Storage :=
  {| items := ∅; accessible := true; quota := 0 |}.

(** The search input of the host page. *)
Definition hostInput : node :=
  Element (lit "input")
    [(lit "class", lit "form-control subnav-search-input")] [] [].

(** An entry of the host page's own filter menu. *)
Definition hostEntry : node :=
  Element (lit "a") [(lit "class", lit "SelectMenu-item")] []
    [Text (lit "Your pull requests")].

(** The pull-request list of a repository, both mount points present. *)
Definition pullsDocument : Document :=
  {| filtersDropdown := Some [hostEntry];
     filterContainer := Some [hostInput];
     searchInput := Some (lit "is:pr is:open") |}.

(** The same page before the host has rendered its mount points. *)
Definition bareDocument : Document :=
  {| filtersDropdown := None; filterContainer := None;
     searchInput := None |}.

Definition filterA : Filter := {| label := lit "A"; query := lit "is:open" |}.
Definition filterB : Filter := {| label := lit "B"; query := lit "is:closed" |}.
Definition filterC : Filter := {| label := lit "C"; query := lit "is:merged" |}.

Definition pageState (fs : @json literalNumbers) (st : Storage)
  (d : Document) : @State literalNumbers :=
  {| filters := fs; retryAttempts := 0;
     pathname := lit "/org/repo/pulls"; localStorage := st; document := d;
     console := []; timers := []; now := 0; prompts := [];
     triggers := 0; rechecks := [] |}.

(** The page with three stored filters, [A] the oldest. *)
Definition pageABC : @State literalNumbers :=
  pageState (@filterArray literalNumbers [filterA; filterB; filterC])
    emptyStorage pullsDocument.

(** What the dropdown of a state shows for the injected items, in visual
    order. *)
Definition shownItems {F64 : Float64} (s : State) : option (list jsstring) :=
  option_map (fun kids => List.map itemText (injectedItems kids))
    (filtersDropdown (document s)).

(** How many favourite buttons the search bar holds. *)
Definition buttonCount {F64 : Float64} (s : State) : option nat :=
  option_map
    (fun kids =>
       length (List.filter
                 (fun k => bool_decide (attribute k (lit "id") =
                                        Some (lit "fav-button"))) kids))
    (filterContainer (document s)).

(** The page with one filter in memory and a store that takes no write. *)
Definition pageFull : @State literalNumbers :=
  pageState (@filterArray literalNumbers [filterA]) fullStorage pullsDocument.

Definition storageHolding (text : jsstring) : Storage :=
  {| items := {[ getStorageKey := text ]}; accessible := true;
     quota := 5242880 |}.

(** The key holds the empty string. *)
Definition pageEmptyText : @State literalNumbers :=
  pageState (JArr []) (storageHolding []) pullsDocument.

(** The key holds a JSON text cut short. *)
Definition truncatedText : jsstring := lit "[{" ++ dq ++ lit "label" ++ dq.

Definition pageTruncated : @State literalNumbers :=
  pageState (JArr []) (storageHolding truncatedText) pullsDocument.

(** A label that is markup. *)
Definition markupLabel : jsstring := lit "<img src=x onerror=alert(1)>".

(** The page before its mount points exist, nothing stored. *)
Definition pageBare : @State literalNumbers :=
  pageState (JArr []) emptyStorage bareDocument.

(** A location whose first segment holds a character reference. *)
Definition ampersandPath : jsstring := lit "/a&amp;b/c/pulls".

(** The [href] of the item a call of [createFilterItem] returned. *)
Definition itemLink (c : completion (option node)) : option jsstring :=
  match c with
  | Normal (Some item) => attribute item (lit "href")
  | _ => None
  end.

(** ** Further pages *)

(** The key holds the JSON text of an object, and of [null]. *)
Definition pageObject : @State literalNumbers :=
  pageState (JArr []) (storageHolding (lit "{}")) pullsDocument.

Definition pageNull : @State literalNumbers :=
  pageState (JArr []) (storageHolding (lit "null")) pullsDocument.

(** The key holds the JSON text of the three filters. *)
Definition pageStored : @State literalNumbers :=
  pageState (JArr [])
    (storageHolding
       (JSON_stringify (@filterArray literalNumbers
                          [filterA; filterB; filterC])))
    pullsDocument.

(** The item of filter [A] as an earlier render left it. *)
Definition itemA : node :=
  plainItemOf (lit "/org/repo/pulls") filterA.

(** The search bar without the filter menu, and the filter menu, holding
    an injected item, without the search bar. *)
Definition searchBarOnly : Document :=
  {| filtersDropdown := None; filterContainer := Some [hostInput];
     searchInput := Some (lit "is:pr is:open") |}.

Definition menuOnly : Document :=
  {| filtersDropdown := Some [itemA; hostEntry]; filterContainer := None;
     searchInput := None |}.

(** A dropdown where an injected item sits inside an entry of the host
    page. *)
Definition nestedDocument : Document :=
  {| filtersDropdown :=
       Some [Element (lit "div") [(lit "class", lit "SelectMenu-group")] []
               [itemA]];
     filterContainer := Some [hostInput];
     searchInput := Some (lit "is:pr is:open") |}.

(** A filter whose label is markup. *)
Definition filterMarkup : Filter :=
  {| label := markupLabel; query := lit "is:open" |}.

Definition pageMarkup : @State literalNumbers :=
  pageState (@filterArray literalNumbers [filterMarkup]) emptyStorage
    pullsDocument.

(** The bare page after two navigation triggers: two retries pending. *)
Definition pageTwoTriggers : @State literalNumbers :=
  fst (handleLocationChange (fst (handleLocationChange pageBare))).

(** The issues list of the repository, both mount points present, with a
    retry of the page before still pending. *)
Definition pageStaleTimer : @State literalNumbers :=
  {| filters := @filterArray literalNumbers [filterA]; retryAttempts := 1;
     pathname := lit "/org/repo/issues"; localStorage := emptyStorage;
     document := pullsDocument; console := [];
     timers := [{| due := 500; chain := 1 |}]; now := 0; prompts := [];
     triggers := 2; rechecks := [] |}.

(** The bare page at time 100, while the retry that the construction set
    is pending. *)
Definition pageRetrying : @State literalNumbers :=
  set_now 100 (fst (construct pageBare)).

(** A filter whose label is an object with a property [toString], and a
    value for the filters whose [length] is such an object. *)
Definition filterOddLabel : @json literalNumbers :=
  JObj [(lit "label", JObj [(lit "toString", JStr (lit "x"))]);
        (lit "query", JStr (lit "is:open"))].

Definition oddLength : @json literalNumbers :=
  JObj [(lit "length", JObj [(lit "toString", JStr (lit "x"))])].

(** * Properties *)

Section Facts.
Context {F64 : Float64}.

(** ** Facts about strings *)

Lemma startsWith_spec s p :
  startsWith s p = true <-> exists post, s = p ++ post.
Proof.
  revert s; induction p as [|a p IH]; intros s; simpl.
  - split; [intros _; exists s; reflexivity | trivial].
  - destruct s as [|b s].
    + split; [discriminate | intros [post H]; discriminate].
    + rewrite andb_true_iff, N.eqb_eq, IH. split.
      * intros [-> [post ->]]. eauto.
      * intros [post H]. injection H as -> ->. eauto.
Qed.

Lemma includes_spec s p :
  includes s p = true <-> exists pre post, s = pre ++ p ++ post.
Proof.
  induction s as [|c s IH]; simpl; rewrite orb_true_iff, startsWith_spec.
  - split.
    + intros [[post H] | H]; [| discriminate]. exists [], post. exact H.
    + intros [pre [post H]]. left.
      destruct pre; [eauto | discriminate].
  - rewrite IH. split.
    + intros [[post H] | [pre [post H]]].
      * exists [], post. exact H.
      * exists (c :: pre), post. simpl. now rewrite H.
    + intros [[|d pre] [post H]].
      * left. eauto.
      * right. injection H as _ ->. eauto.
Qed.

(** C5.  The page classification is the substring test for [/pulls]: it
    holds exactly of the paths that contain [/pulls] somewhere, so it
    accepts [/org/repo/pulls], rejects [/org/repo/issues] and accepts
    [/org/repo/pulls-archive]. *)
Theorem isPullRequestPage_substring :
  (forall pathname,
      isPullRequestPage pathname = true <->
      exists pre post, pathname = pre ++ lit "/pulls" ++ post) /\
  isPullRequestPage (lit "/org/repo/pulls") = true /\
  isPullRequestPage (lit "/org/repo/issues") = false /\
  isPullRequestPage (lit "/org/repo/pulls-archive") = true.
Proof.
  split; [intros pathname; apply includes_spec |].
  repeat split; reflexivity.
Qed.

(** ** Persistence *)

Lemma getStorageKey_value : getStorageKey = lit "GH_PR_Filters_global".
Proof. reflexivity. Qed.

Lemma loadFilters_set_pathname s p :
  loadFilters (set_pathname p s) =
  (set_pathname p (fst (loadFilters s)), snd (loadFilters s)).
Proof.
  unfold loadFilters, loadFilters_body; simpl.
  destruct (getItem (localStorage s) getStorageKey) as [[[|c text]|]|e];
    simpl; try reflexivity.
  destruct (JSON_parse (c :: text)); reflexivity.
Qed.

Lemma saveFilters_set_pathname s p :
  saveFilters (set_pathname p s) = set_pathname p (saveFilters s).
Proof.
  unfold saveFilters; simpl.
  destruct (setItem (localStorage s) getStorageKey
              (JSON_stringify (filters s))); reflexivity.
Qed.

(** C9.  The storage key is the one constant string
    [GH_PR_Filters_global]: [loadFilters] and [saveFilters] do the same in
    every location, although the repository path that [getRepoPath]
    computes differs from one repository to the next. *)
Theorem storage_key_global :
  getStorageKey = lit "GH_PR_Filters_global" /\
  (forall s p,
      loadFilters (set_pathname p s) =
      (set_pathname p (fst (loadFilters s)), snd (loadFilters s))) /\
  (forall s p,
      saveFilters (set_pathname p s) = set_pathname p (saveFilters s)) /\
  (forall s,
      loadFilters_body s =
      (stored ← getItem (localStorage s) (lit "GH_PR_Filters_global");
       match stored with
       | Some (c :: text) => JSON_parse (c :: text)
       | _ => Normal (JArr [])
       end)) /\
  (forall s,
      saveFilters s =
      try_catch
        (st ← setItem (localStorage s) (lit "GH_PR_Filters_global")
                (JSON_stringify (filters s));
         Normal (set_localStorage st s))
        (fun error => log (Error (lit "Error saving filters:") error) s)) /\
  getRepoPath (lit "/octo/alpha/pulls") <> getRepoPath (lit "/octo/beta/pulls").
Proof.
  split; [reflexivity |].
  split; [apply loadFilters_set_pathname |].
  split; [apply saveFilters_set_pathname |].
  split; [reflexivity |].
  split; [reflexivity |].
  vm_compute. discriminate.
Qed.

Lemma loadFilters_caught s e :
  loadFilters_body s = Throw e ->
  loadFilters s = (log (Error (lit "Error loading filters:") e) s, JArr []).
Proof. unfold loadFilters. intros ->. reflexivity. Qed.

(** C6, as amended.  [loadFilters] returns the empty sequence when the key
    is missing or holds the empty string, without a diagnostic; it returns
    the empty sequence and logs a diagnostic when the stored text is not
    empty and is malformed JSON; and whatever its [try] block throws, it
    returns the empty sequence with a diagnostic instead of raising. *)
Theorem loadFilters_recovers (s : State) :
  (getItem (localStorage s) getStorageKey = Normal None \/
   getItem (localStorage s) getStorageKey = Normal (Some []) ->
   loadFilters s = (s, JArr [])) /\
  (forall text e,
      getItem (localStorage s) getStorageKey = Normal (Some text) ->
      text <> [] ->
      JSON_parse text = Throw e ->
      loadFilters s =
      (log (Error (lit "Error loading filters:") e) s, JArr [])) /\
  (forall e,
      loadFilters_body s = Throw e ->
      loadFilters s =
      (log (Error (lit "Error loading filters:") e) s, JArr [])).
Proof.
  split; [| split].
  - unfold loadFilters, loadFilters_body. intros [-> | ->]; reflexivity.
  - intros text e Hget Hne Hparse. apply loadFilters_caught.
    unfold loadFilters_body. rewrite Hget. simpl.
    destruct text as [|c text]; [congruence | exact Hparse].
  - apply loadFilters_caught.
Qed.

(** ** Adding a filter *)

(** C8.  [addNewFilter] with an empty query returns at once: no prompt is
    shown and nothing changes.  With a query, a prompt that is cancelled
    or answered with the empty string ends the flow after the prompt: the
    filter list, the storage and the page are as before. *)
Theorem addNewFilter_aborts (s : State) (query : jsstring)
  (answer : option jsstring) :
  query = [] \/ answer = None \/ answer = Some [] ->
  let s' := addNewFilter query answer s in
  filters s' = filters s /\
  localStorage s' = localStorage s /\
  document s' = document s /\
  console s' = console s /\
  (query = [] -> s' = s) /\
  (query <> [] -> s' = add_prompt (lit "Enter filter label:") s).
Proof.
  intros H. unfold addNewFilter.
  destruct query as [|c q].
  - simpl. repeat split; congruence.
  - destruct H as [H | [-> | ->]]; [discriminate | |];
      simpl; repeat split; congruence.
Qed.

(** ** [JSON.parse] after [JSON.stringify] *)

Ltac cmp_cases :=
  repeat match goal with
    | |- context [(?a <=? ?b)%N] => destruct (N.leb_spec a b)
    | |- context [(?a <? ?b)%N] => destruct (N.ltb_spec a b)
    | |- context [(?a =? ?b)%N] => destruct (N.eqb_spec a b)
    end; simpl.

Lemma hexValue_hexDigit d : d < 16 -> hexValue (hexDigit d) = Some d.
Proof.
  intros H. unfold hexValue, hexDigit, isDigit.
  cmp_cases; try lia; f_equal; lia.
Qed.

Lemma hex4 c :
  c < 65536 ->
  (((0 * 16 + c / 4096 mod 16) * 16 + c / 256 mod 16) * 16 +
   c / 16 mod 16) * 16 + c mod 16 = c.
Proof.
  intros H.
  pose proof (N.div_mod c 16 ltac:(lia)).
  pose proof (N.div_mod (c / 16) 16 ltac:(lia)).
  pose proof (N.div_mod (c / 16 / 16) 16 ltac:(lia)).
  rewrite !N.Div0.div_div in *.
  change (16 * 16) with 256 in *. change (256 * 16) with 4096 in *.
  assert (c / 4096 < 16) by (apply N.Div0.div_lt_upper_bound; lia).
  rewrite (N.mod_small (c / 4096)) by assumption.
  lia.
Qed.

Lemma lex_silent st c st' s :
  lex_step st c = Some ([], st') -> lex st (c :: s) = lex st' s.
Proof. simpl. intros ->. destruct (lex st' s); reflexivity. Qed.

Lemma lex_emit st c t st' s ts :
  lex_step st c = Some ([t], st') ->
  lex st' s = Some ts ->
  lex st (c :: s) = Some (t :: ts).
Proof. simpl. intros -> ->. reflexivity. Qed.

Lemma lex_UnicodeEscape c acc rest :
  c < 65536 ->
  lex (LStr acc) (UnicodeEscape c ++ rest) = lex (LStr (acc ++ [c])) rest.
Proof.
  intros H. unfold UnicodeEscape.
  cbn [app].
  rewrite (lex_silent (LStr acc) 92 (LEsc acc)) by reflexivity.
  rewrite (lex_silent (LEsc acc) 117 (LHex acc 4 0)) by reflexivity.
  assert (Hd : forall x, x mod 16 < 16) by (intros; apply N.mod_lt; lia).
  erewrite (lex_silent (LHex acc 4 0));
    [| cbn [lex_step]; rewrite hexValue_hexDigit by apply Hd; reflexivity].
  erewrite (lex_silent (LHex acc _ _));
    [| cbn [lex_step]; rewrite hexValue_hexDigit by apply Hd; reflexivity].
  erewrite (lex_silent (LHex acc _ _));
    [| cbn [lex_step]; rewrite hexValue_hexDigit by apply Hd; reflexivity].
  erewrite (lex_silent (LHex acc _ _));
    [| cbn [lex_step]; rewrite hexValue_hexDigit by apply Hd; reflexivity].
  cbn [pred]. rewrite (hex4 c H). reflexivity.
Qed.

Ltac escaped :=
  cbn [app]; do 2 (erewrite lex_silent by reflexivity); reflexivity.

Lemma lex_quoteUnit c acc rest :
  lex (LStr acc) (quoteUnit c ++ rest) = lex (LStr (acc ++ [c])) rest.
Proof.
  unfold quoteUnit.
  destruct (N.eqb_spec c 8) as [-> | H8]; [escaped |].
  destruct (N.eqb_spec c 9) as [-> | H9]; [escaped |].
  destruct (N.eqb_spec c 10) as [-> | H10]; [escaped |].
  destruct (N.eqb_spec c 12) as [-> | H12]; [escaped |].
  destruct (N.eqb_spec c 13) as [-> | H13]; [escaped |].
  destruct (N.eqb_spec c 34) as [-> | H34]; [escaped |].
  destruct (N.eqb_spec c 92) as [-> | H92]; [escaped |].
  destruct ((c <? 32) || isHighSurrogate c || isLowSurrogate c) eqn:E.
  - apply lex_UnicodeEscape.
    unfold isHighSurrogate, isLowSurrogate in E.
    rewrite !orb_true_iff, !andb_true_iff, N.ltb_lt, !N.leb_le in E. lia.
  - rewrite !orb_false_iff, N.ltb_ge in E. destruct E as [[E _] _].
    cbn [app]. apply lex_silent. cbn [lex_step].
    destruct (N.eqb_spec c 34); [contradiction |].
    destruct (N.eqb_spec c 92); [contradiction |].
    destruct (N.ltb_spec c 32); [lia | reflexivity].
Qed.

Lemma lex_surrogate c acc rest :
  isHighSurrogate c || isLowSurrogate c = true ->
  lex (LStr acc) (c :: rest) = lex (LStr (acc ++ [c])) rest.
Proof.
  intros H. apply lex_silent. cbn [lex_step].
  unfold isHighSurrogate, isLowSurrogate in H.
  rewrite orb_true_iff, !andb_true_iff, !N.leb_le in H.
  destruct (N.eqb_spec c 34); [lia |].
  destruct (N.eqb_spec c 92); [lia |].
  destruct (N.ltb_spec c 32); [lia | reflexivity].
Qed.

Lemma quoteBody_cons c d s :
  quoteBody (c :: d :: s) =
  if isHighSurrogate c && isLowSurrogate d
  then c :: d :: quoteBody s
  else quoteUnit c ++ quoteBody (d :: s).
Proof. reflexivity. Qed.

Lemma lex_quoteBody_bounded n : forall s acc rest,
  (length s <= n)%nat ->
  lex (LStr acc) (quoteBody s ++ rest) = lex (LStr (acc ++ s)) rest.
Proof.
  induction n as [|n IH]; intros s acc rest Hn.
  - destruct s; [| simpl in Hn; lia]. now rewrite app_nil_r.
  - destruct s as [|c [|d s]].
    + now rewrite app_nil_r.
    + cbn [quoteBody]. apply lex_quoteUnit.
    + rewrite quoteBody_cons.
      destruct (isHighSurrogate c && isLowSurrogate d) eqn:E.
      * apply andb_true_iff in E as [Ec Ed].
        cbn [app]. rewrite lex_surrogate by (rewrite Ec; reflexivity).
        rewrite lex_surrogate by (rewrite Ed; apply orb_true_r).
        rewrite IH; [| cbn [length] in *; lia].
        now rewrite <- !app_assoc.
      * rewrite <- app_assoc, lex_quoteUnit.
        rewrite IH; [| cbn [length] in *; lia].
        now rewrite <- app_assoc.
Qed.

Lemma lex_quoteBody s acc rest :
  lex (LStr acc) (quoteBody s ++ rest) = lex (LStr (acc ++ s)) rest.
Proof. apply (lex_quoteBody_bounded (length s)). lia. Qed.

(** *** Lexing the text of a filter array *)

Lemma lexes_nil : lexes [] [].
Proof. intros rest ts H. exact H. Qed.

Lemma lexes_app a ta b tb :
  lexes a ta -> lexes b tb -> lexes (a ++ b) (ta ++ tb).
Proof.
  intros Ha Hb rest ts H. rewrite <- !app_assoc.
  apply Ha, Hb, H.
Qed.

Lemma lexes_punctuation c t :
  lex_step LStart c = Some ([t], LStart) -> lexes [c] [t].
Proof. intros H rest ts Hr. exact (lex_emit _ _ _ _ _ _ H Hr). Qed.

Lemma lexes_QuoteJSONString s : lexes (QuoteJSONString s) [TString s].
Proof.
  intros rest ts H. unfold QuoteJSONString, dq.
  cbn [app]. rewrite (lex_silent LStart 34 (LStr [])) by reflexivity.
  rewrite <- app_assoc, lex_quoteBody. cbn [app].
  apply (lex_emit (LStr s) 34 (TString s) LStart); [reflexivity | exact H].
Qed.

Lemma lexes_cons a t b tb :
  lexes a [t] -> lexes b tb -> lexes (a ++ b) (t :: tb).
Proof. intros Ha Hb. exact (lexes_app a [t] b tb Ha Hb). Qed.

Ltac lexes_one :=
  solve [apply lexes_punctuation; reflexivity | apply lexes_QuoteJSONString].

Lemma lexes_filter f : lexes (JSON_stringify (filterValue f)) (filterTokens f).
Proof.
  unfold filterValue, newFilter, filterTokens.
  cbn [JSON_stringify List.map join fst snd].
  change (lit "{") with [123]. change (lit "}") with [125].
  change (lit ":") with [58]. change (lit ",") with [44].
  rewrite <- !app_assoc.
  repeat (apply lexes_cons; [lexes_one |]).
  lexes_one.
Qed.

Lemma lexes_elements fs :
  lexes (join (lit ",") (List.map JSON_stringify (List.map filterValue fs)))
    (elementTokens fs).
Proof.
  induction fs as [|f [|f' fs] IH].
  - apply lexes_nil.
  - apply lexes_filter.
  - change (lexes (JSON_stringify (filterValue f) ++ [44] ++
                   join (lit ",")
                     (List.map JSON_stringify
                        (List.map filterValue (f' :: fs))))
              (filterTokens f ++ TComma :: elementTokens (f' :: fs))).
    apply lexes_app; [apply lexes_filter |].
    apply lexes_cons; [lexes_one | exact IH].
Qed.

Lemma lexes_filterArray fs :
  lexes (JSON_stringify (filterArray fs))
    (TLBrack :: elementTokens fs ++ [TRBrack]).
Proof.
  unfold filterArray. cbn [JSON_stringify].
  change (lit "[") with [91]. change (lit "]") with [93].
  apply lexes_cons; [lexes_one |].
  apply lexes_app; [apply lexes_elements | lexes_one].
Qed.

Lemma lex_filterArray fs :
  lex LStart (JSON_stringify (filterArray fs)) =
  Some (TLBrack :: elementTokens fs ++ [TRBrack]).
Proof.
  pose proof (lexes_filterArray fs [] [] eq_refl) as H.
  now rewrite !app_nil_r in H.
Qed.

(** *** Parsing the tokens of a filter array *)

Lemma parse_filter f stack ts :
  parse_tokens (PValue stack) (filterTokens f ++ ts) =
  parse_tokens (deliver (filterValue f) stack) ts.
Proof. reflexivity. Qed.

Lemma parse_elements fs : forall f done stack ts,
  parse_tokens (PValue (InArray done :: stack))
    (elementTokens (f :: fs) ++ TRBrack :: ts) =
  parse_tokens
    (deliver (JArr (done ++ List.map filterValue (f :: fs))) stack) ts.
Proof.
  induction fs as [|f' fs IH]; intros f done stack ts.
  - cbn [elementTokens]. rewrite parse_filter. reflexivity.
  - change (elementTokens (f :: f' :: fs))
      with (filterTokens f ++ TComma :: elementTokens (f' :: fs)).
    rewrite <- app_assoc, parse_filter.
    cbn [deliver app parse_tokens parse_step].
    rewrite IH. cbn [List.map]. now rewrite <- app_assoc.
Qed.

Lemma elementTokens_head f fs :
  exists ts, elementTokens (f :: fs) = TLBrace :: ts.
Proof. destruct fs; eexists; reflexivity. Qed.

Lemma parse_filterArray fs :
  parse_tokens (PValue []) (TLBrack :: elementTokens fs ++ [TRBrack]) =
  Some (PDone (filterArray fs)).
Proof.
  destruct fs as [|f fs]; [reflexivity |].
  transitivity (parse_tokens (PValue [InArray []])
                  (elementTokens (f :: fs) ++ [TRBrack])).
  - destruct (elementTokens_head f fs) as [ts ->]. reflexivity.
  - apply parse_elements.
Qed.

Lemma JSON_roundtrip fs :
  JSON_parse (JSON_stringify (filterArray fs)) = Normal (filterArray fs).
Proof.
  unfold JSON_parse. now rewrite lex_filterArray, parse_filterArray.
Qed.

Lemma stringify_filterArray_nonempty fs :
  exists text, JSON_stringify (filterArray fs) = 91 :: text.
Proof. eexists. reflexivity. Qed.

(** C4, as amended.  When the storage takes the write, saving a sequence
    of filters with [saveFilters] and reading it with [loadFilters] gives
    back the sequence, and logs nothing. *)
Theorem save_then_load (s : State) (fs : list Filter) (st : Storage) :
  filters s = filterArray fs ->
  setItem (localStorage s) getStorageKey (JSON_stringify (filters s)) =
    Normal st ->
  saveFilters s = set_localStorage st s /\
  loadFilters (saveFilters s) = (saveFilters s, filterArray fs).
Proof.
  intros Hfs Hset.
  assert (Hsave : saveFilters s = set_localStorage st s).
  { unfold saveFilters. rewrite Hset. reflexivity. }
  split; [exact Hsave |].
  rewrite Hsave. unfold loadFilters, loadFilters_body.
  cbn [localStorage set_localStorage].
  unfold setItem in Hset.
  destruct (accessible (localStorage s)); [| discriminate].
  destruct (_ <=? _); [| discriminate].
  injection Hset as <-. unfold getItem. cbn [accessible items].
  rewrite lookup_insert_eq, Hfs.
  destruct (stringify_filterArray_nonempty fs) as [text Htext].
  cbn [mbind completion_bind]. rewrite Htext, <- Htext.
  rewrite JSON_roundtrip. reflexivity.
Qed.

(** ** Rendering *)

Lemma getProperty_label f :
  getProperty (filterValue f) (lit "label") = Normal (Some (JStr (label f))).
Proof. reflexivity. Qed.

Lemma getProperty_query f :
  getProperty (filterValue f) (lit "query") = Normal (Some (JStr (query f))).
Proof. reflexivity. Qed.

Lemma prependItems_app path l1 : forall l2 kids,
  prependItems path (l1 ++ l2) kids =
  match prependItems path l1 kids with
  | (kids', Normal _) => prependItems path l2 kids'
  | (kids', Throw e) => (kids', Throw e)
  end.
Proof.
  induction l1 as [|f l1 IH]; intros l2 kids; [reflexivity |].
  cbn [app prependItems].
  destruct (_ ← getProperty f (lit "label"); _); [apply IH | reflexivity].
Qed.

Lemma prependItems_one path f item kids :
  renderItem path f = Normal item ->
  prependItems path [filterValue f] kids = (item :: kids, Normal ()).
Proof.
  unfold renderItem. intros H. cbn [prependItems].
  rewrite getProperty_label, getProperty_query.
  cbn [mbind completion_bind] in H |- *.
  destruct (createFilterItem _ _ _ _); [| discriminate].
  injection H as <-. reflexivity.
Qed.

Lemma prependItems_filters path fs : forall items kids,
  Forall2 (fun f item => renderItem path f = Normal item) fs items ->
  prependItems path (rev (List.map filterValue fs)) kids =
  (items ++ kids, Normal ()).
Proof.
  induction fs as [|f fs IH]; intros items kids H.
  - apply Forall2_nil_inv_l in H as ->. reflexivity.
  - apply Forall2_cons_inv_l in H as (item & items' & Hf & Hfs & ->).
    cbn [List.map rev]. rewrite prependItems_app, (IH items' kids Hfs).
    apply prependItems_one, Hf.
Qed.

Lemma createAddToFavButton_value : createAddToFavButton = Normal favButton.
Proof. vm_compute. reflexivity. Qed.

(** C1, as amended.  With both mount points present, old items cleared
    without an error and every filter rendered without an error,
    [initializeDropdown] leaves the items of the stored filters at the
    front of the dropdown in insertion order: the oldest filter first,
    the most recently added last, then the entries that were there
    before. *)
Theorem render_insertion_order (s : State) (fs : list Filter)
  (kids cleared container items : list node) :
  filters s = filterArray fs ->
  filtersDropdown (document s) = Some kids ->
  filterContainer (document s) = Some container ->
  removeCustomItems kids = (cleared, Normal ()) ->
  Forall2 (fun f item => renderItem (pathname s) f = Normal item) fs items ->
  exists s',
    initializeDropdown s = (s', Normal ()) /\
    filtersDropdown (document s') = Some (items ++ cleared) /\
    filterContainer (document s') = Some (container ++ [favButton]).
Proof.
  intros Hfs Hdrop Hcont Hclear Hitems.
  unfold initializeDropdown. rewrite Hdrop, Hclear.
  cbn [set_filtersDropdown set_document document filterContainer
       pathname filters].
  rewrite Hcont, Hfs. unfold filterArray. cbn [addExistingFilters].
  rewrite (prependItems_filters _ _ _ _ Hitems).
  rewrite createAddToFavButton_value.
  eexists. split; [reflexivity |]. split; reflexivity.
Qed.

(** Every successful render appends one more favourite button to the
    search bar. *)
Lemma initializeDropdown_appends s s' kids container :
  filtersDropdown (document s) = Some kids ->
  filterContainer (document s) = Some container ->
  initializeDropdown s = (s', Normal ()) ->
  filterContainer (document s') = Some (container ++ [favButton]).
Proof.
  intros Hdrop Hcont. unfold initializeDropdown. rewrite Hdrop.
  destruct (removeCustomItems kids) as [cleared [[]|e]]; [| discriminate].
  cbn [set_filtersDropdown set_document document filterContainer
       pathname filters].
  rewrite Hcont.
  destruct (addExistingFilters _ _ _) as [items [[]|e]]; [| discriminate].
  rewrite createAddToFavButton_value. intros [= <-]. reflexivity.
Qed.

Lemma initializeDropdown_twice s s1 s2 kids container :
  filtersDropdown (document s) = Some kids ->
  filterContainer (document s) = Some container ->
  initializeDropdown s = (s1, Normal ()) ->
  initializeDropdown s1 = (s2, Normal ()) ->
  filterContainer (document s1) = Some (container ++ [favButton]) /\
  filterContainer (document s2) =
    Some (container ++ [favButton; favButton]).
Proof.
  intros Hdrop Hcont H1 H2.
  pose proof (initializeDropdown_appends _ _ _ _ Hdrop Hcont H1) as Hc1.
  split; [exact Hc1 |].
  assert (exists kids1, filtersDropdown (document s1) = Some kids1)
    as [kids1 Hdrop1].
  { revert H1. unfold initializeDropdown. rewrite Hdrop.
    destruct (removeCustomItems kids) as [cleared [[]|e]]; [| discriminate].
    cbn [set_filtersDropdown set_document document filterContainer
         pathname filters].
    rewrite Hcont.
    destruct (addExistingFilters _ _ _) as [items [[]|e]]; [| discriminate].
    rewrite createAddToFavButton_value. intros [= <-]. eexists. reflexivity. }
  rewrite (initializeDropdown_appends _ _ _ _ Hdrop1 Hc1 H2).
  now rewrite <- app_assoc.
Qed.

(** ** The retry window *)

(** *** The timer queue *)

Lemma nextTimer_None ts : nextTimer ts = None -> ts = [].
Proof.
  destruct ts as [|u ts]; [reflexivity |]. cbn [nextTimer].
  destruct (nextTimer ts) as [[v rest]|]; [destruct (_ <? _) |]; discriminate.
Qed.

Lemma nextTimer_split ts : forall t rest,
  nextTimer ts = Some (t, rest) ->
  exists l1 l2, ts = l1 ++ t :: l2 /\ rest = l1 ++ l2.
Proof.
  induction ts as [|u ts IH]; intros t rest; cbn [nextTimer];
    [discriminate |].
  destruct (nextTimer ts) as [[v rest']|] eqn:E.
  - destruct (due v <? due u).
    + intros [= <- <-]. destruct (IH v rest' eq_refl) as (l1 & l2 & -> & ->).
      exists (u :: l1), l2. auto.
    + intros [= <- <-]. exists [], ts. auto.
  - intros [= <- <-]. apply nextTimer_None in E as ->. exists [], []. auto.
Qed.

Lemma nextTimer_min ts : forall t rest,
  nextTimer ts = Some (t, rest) -> Forall (fun u => due t <= due u) ts.
Proof.
  induction ts as [|u ts IH]; intros t rest; cbn [nextTimer];
    [discriminate |].
  destruct (nextTimer ts) as [[v rest']|] eqn:E.
  - specialize (IH v rest' eq_refl).
    destruct (N.ltb_spec (due v) (due u)); intros [= <- <-].
    + constructor; [lia | exact IH].
    + constructor; [lia |].
      eapply Forall_impl; [exact IH | simpl; intros; lia].
  - intros [= <- <-]. apply nextTimer_None in E as ->.
    constructor; [lia | constructor].
Qed.

Lemma ofChain_app g ts us : ofChain g (ts ++ us) = ofChain g ts ++ ofChain g us.
Proof. apply List.filter_app. Qed.

Lemma ofChain_cons g t ts :
  ofChain g (t :: ts) =
  (if (chain t =? g)%nat then [t] else []) ++ ofChain g ts.
Proof. cbn [ofChain List.filter]. destruct (_ =? _)%nat; reflexivity. Qed.

Lemma ofChain_next_other g ts t rest :
  nextTimer ts = Some (t, rest) -> chain t <> g ->
  ofChain g rest = ofChain g ts.
Proof.
  intros (l1 & l2 & -> & ->)%nextTimer_split Hne.
  rewrite !ofChain_app, ofChain_cons.
  destruct (Nat.eqb_spec (chain t) g); [contradiction | reflexivity].
Qed.

Lemma ofChain_next_only g ts t rest T :
  nextTimer ts = Some (t, rest) -> chain t = g -> ofChain g ts = [T] ->
  t = T /\ ofChain g rest = [].
Proof.
  intros (l1 & l2 & -> & ->)%nextTimer_split Hg.
  rewrite !ofChain_app, ofChain_cons, Hg, Nat.eqb_refl.
  destruct (ofChain g l1) as [|x l]; cbn [app].
  - intros [= -> ->]. auto.
  - intros [= _ H]. destruct l; discriminate.
Qed.

Lemma ofChain_next_nil g ts t rest :
  nextTimer ts = Some (t, rest) -> chain t = g -> ofChain g ts <> [].
Proof.
  intros (l1 & l2 & -> & ->)%nextTimer_split Hg.
  rewrite !ofChain_app, ofChain_cons, Hg, Nat.eqb_refl.
  destruct (ofChain g l1); discriminate.
Qed.

Lemma ofChain_fresh g ts :
  Forall (fun t => (chain t < g)%nat) ts -> ofChain g ts = [].
Proof.
  induction 1 as [|t ts Ht _ IH]; [reflexivity |].
  rewrite ofChain_cons, IH.
  destruct (Nat.eqb_spec (chain t) g); [lia | reflexivity].
Qed.

Lemma nextTimer_Forall (P : Timer -> Prop) ts t rest :
  nextTimer ts = Some (t, rest) -> Forall P ts -> P t /\ Forall P rest.
Proof.
  intros (l1 & l2 & -> & ->)%nextTimer_split.
  rewrite !Forall_app, Forall_cons. tauto.
Qed.

Lemma nextTimer_length ts t rest :
  nextTimer ts = Some (t, rest) -> length ts = S (length rest).
Proof.
  intros (l1 & l2 & -> & ->)%nextTimer_split.
  rewrite !length_app. cbn [length]. lia.
Qed.

(** *** A navigation trigger and a timer, the mount point away *)

Lemma handleLocationChange_absent s :
  isPullRequestPage (pathname s) = true ->
  filterContainer (document s) = None ->
  exists s0 extra,
    handleLocationChange s = (s0, Normal ()) /\
    retryAttempts s0 = 1%nat /\
    timers s0 =
      timers s ++ [{| due := now s + RETRY_DELAY; chain := S (triggers s) |}] /\
    triggers s0 = S (triggers s) /\
    now s0 = now s /\
    rechecks s0 = rechecks s /\
    document s0 = document s /\
    console s0 = console s ++ extra.
Proof.
  intros Hpage Habsent. unfold handleLocationChange.
  cbn [pathname set_triggers set_retryAttempts]. rewrite Hpage.
  cbn [negb]. unfold loadFilters.
  destruct (loadFilters_body _) as [v | e];
    cbn [mbind completion_bind try_catch];
    unfold mountPointPresent;
    cbn [document set_filters set_triggers set_retryAttempts log];
    rewrite Habsent;
    unfold retryInitialization; cbn.
  - eexists. exists []. rewrite app_nil_r. repeat split; reflexivity.
  - eexists. eexists. repeat split; reflexivity.
Qed.

Lemma runTimer_absent s :
  filterContainer (document s) = None ->
  runTimer s =
  match nextTimer (timers s) with
  | Some (t, rest) => Some (fireTimer t rest s, Normal ())
  | None => None
  end.
Proof.
  intros Habsent. unfold runTimer.
  destruct (nextTimer (timers s)) as [[t rest]|]; [| reflexivity].
  unfold retryCallback, mountPointPresent.
  cbn [document add_recheck set_now set_timers]. rewrite Habsent.
  reflexivity.
Qed.

Lemma fireTimer_document t rest s :
  document (fireTimer t rest s) = document s.
Proof.
  unfold fireTimer, retryInitialization.
  destruct (_ <=? _)%nat; reflexivity.
Qed.

(** *** The invariant of a retry window *)

(** Read a field of a state that setters built. *)
Ltac fields :=
  cbn [filters retryAttempts pathname localStorage document console timers
       now prompts triggers rechecks set_filters set_retryAttempts
       set_pathname set_localStorage set_document log set_timers set_now
       add_prompt set_triggers add_recheck set_filtersDropdown
       set_filterContainer filtersDropdown filterContainer searchInput
       eraseGhost].

Lemma since_snoc n0 g (l : list (nat * N)) h tm :
  (n0 <= length l)%nat ->
  List.map snd
    (List.filter (fun c => (fst c =? g)%nat) (drop n0 (l ++ [(h, tm)]))) =
  List.map snd (List.filter (fun c => (fst c =? g)%nat) (drop n0 l)) ++
  (if (h =? g)%nat then [tm] else []).
Proof.
  intros H. rewrite drop_app_le by exact H.
  rewrite List.filter_app, List.map_app. cbn [List.filter fst].
  destruct (h =? g)%nat; reflexivity.
Qed.

Lemma recheckTime_succ t0 k :
  recheckTime t0 k + RETRY_DELAY = recheckTime t0 (S k).
Proof. unfold recheckTime, RETRY_DELAY. lia. Qed.

Lemma recheckTimes_snoc t0 k :
  List.map (recheckTime t0) (seq 1 k) ++ [recheckTime t0 (S k)] =
  List.map (recheckTime t0) (seq 1 (S k)).
Proof. now rewrite seq_S, List.map_app. Qed.

Lemma inv_establish s :
  consistent s ->
  isPullRequestPage (pathname s) = true ->
  filterContainer (document s) = None ->
  let s0 := fst (handleLocationChange s) in
  window_inv (S (triggers s)) (now s) (length (rechecks s)) (console s0) s0.
Proof.
  intros Hcons Hpage Habsent.
  destruct (handleLocationChange_absent s Hpage Habsent)
    as (s0 & extra & -> & Hatt & Htimers & Htrig & Hnow & Hrech & Hdoc & Hcon).
  cbn [fst].
  assert (Hfresh : ofChain (S (triggers s)) (timers s) = []).
  { apply ofChain_fresh. eapply Forall_impl; [exact Hcons |].
    simpl. intros t [_ H]. lia. }
  split.
  - now rewrite Hdoc.
  - exact Htrig.
  - rewrite Hatt. unfold MAX_RETRY_ATTEMPTS. lia.
  - rewrite Htimers, Hnow. apply Forall_app. split.
    + eapply Forall_impl; [exact Hcons |]. simpl. intros t [H1 H2].
      split; [exact H1 | lia].
    + constructor; [| constructor]. cbn [due chain].
      unfold RETRY_DELAY. split; lia.
  - rewrite Hrech. lia.
  - exists []. split; [now rewrite app_nil_r |].
    rewrite Htimers, ofChain_app, Hfresh. simpl.
    rewrite Nat.eqb_refl. discriminate.
  - exists 0%nat. split; [| split].
    + unfold rechecksSince. rewrite Hrech, drop_all. reflexivity.
    + unfold MAX_RETRY_ATTEMPTS. lia.
    + right. split; [| rewrite Hatt; lia].
      rewrite Htimers, ofChain_app, Hfresh. simpl.
      rewrite Nat.eqb_refl. reflexivity.
Qed.

Lemma inv_page g t0 n0 c0 s d :
  window_inv g t0 n0 c0 s ->
  filterContainer d = None ->
  window_inv g t0 n0 c0 (set_document d s).
Proof. intros [] Hd. split; assumption. Qed.

Lemma inv_timer g t0 n0 c0 s t rest :
  window_inv g t0 n0 c0 s ->
  nextTimer (timers s) = Some (t, rest) ->
  window_inv g t0 n0 c0 (fireTimer t rest s).
Proof.
  intros [Habsent Htrig Hatt Htimers Htrace Hcon Hchain] Hnext.
  pose proof (nextTimer_min _ _ _ Hnext) as Hmin.
  destruct (nextTimer_Forall _ _ _ _ Hnext Htimers) as [[Hdue Hle] _].
  assert (Hrest : Forall (fun u => due t <= due u /\ (chain u <= g)%nat) rest).
  { apply (nextTimer_Forall _ _ _ _ Hnext).
    rewrite Forall_forall in Htimers, Hmin |- *. intros u Hu.
    split; [now apply Hmin | now apply Htimers]. }
  destruct Hcon as (extra & Hconsole & Hwarned).
  destruct Hchain as (k & Hsince & Hk & Hpending).
  (* the re-checks of the chain after this one *)
  assert (Hsince' :
      exists k',
        List.map snd
          (List.filter (fun c => (fst c =? g)%nat)
             (drop n0 (rechecks s ++ [(chain t, due t)]))) =
        List.map (recheckTime t0) (seq 1 k') /\
        (chain t <> g -> k' = k) /\
        (chain t = g ->
         k' = S k /\ due t = recheckTime t0 (S k) /\
         (S k <= retryAttempts s)%nat /\
         ofChain g rest = [])).
  { unfold rechecksSince in Hsince.
    rewrite since_snoc by exact Htrace. rewrite Hsince.
    destruct (Nat.eqb_spec (chain t) g) as [Hg | Hg].
    - destruct Hpending as [Hnone | [Hone Hk']].
      + destruct (ofChain_next_nil _ _ _ _ Hnext Hg Hnone).
      + destruct (ofChain_next_only _ _ _ _ _ Hnext Hg Hone) as [-> Hgone].
        exists (S k). cbn [due]. rewrite recheckTimes_snoc.
        split; [reflexivity |]. split; [intros []; reflexivity |].
        intros _. repeat split; assumption.
    - exists k. rewrite app_nil_r. split; [reflexivity |].
      split; [reflexivity | contradiction]. }
  unfold fireTimer. rewrite (N.max_r _ _ Hdue).
  unfold retryInitialization.
  cbn [retryAttempts add_recheck set_now set_timers].
  destruct (Nat.leb_spec MAX_RETRY_ATTEMPTS (retryAttempts s)) as [Hmax | Hmax].
  - (* the attempts are used up: the warning *)
    destruct Hsince' as (k' & Hk'1 & Hother & Hmine).
    split; fields; try assumption.
    + rewrite length_app. cbn [length]. lia.
    + exists (extra ++ [Warn RETRY_WARNING]).
      split; [now rewrite Hconsole, app_assoc |].
      intros _. apply in_or_app. right. left. reflexivity.
    + exists k'. unfold rechecksSince. fields. split; [exact Hk'1 |].
      destruct (Nat.eq_dec (chain t) g) as [Hg | Hg].
      * destruct (Hmine Hg) as (-> & _ & Hka & Hgone).
        split; [lia |]. left. exact Hgone.
      * rewrite (Hother Hg). split; [exact Hk |].
        rewrite (ofChain_next_other _ _ _ _ Hnext Hg). exact Hpending.
  - (* another attempt: a new timer of the same chain *)
    destruct Hsince' as (k' & Hk'1 & Hother & Hmine).
    split; fields; try assumption.
    + apply Forall_app. split; [exact Hrest |].
      constructor; [| constructor]. cbn [due chain].
      unfold RETRY_DELAY. split; lia.
    + rewrite length_app. cbn [length]. lia.
    + exists extra. split; [exact Hconsole |].
      rewrite ofChain_app, ofChain_cons. cbn [chain].
      destruct (Nat.eqb_spec (chain t) g) as [Hg | Hg].
      * intros H. apply app_eq_nil in H as [_ H]. discriminate.
      * cbn [app ofChain List.filter]. rewrite app_nil_r.
        rewrite (ofChain_next_other _ _ _ _ Hnext Hg). exact Hwarned.
    + exists k'. unfold rechecksSince. fields. split; [exact Hk'1 |].
      rewrite ofChain_app, ofChain_cons. cbn [chain].
      destruct (Nat.eqb_spec (chain t) g) as [Hg | Hg].
      * destruct (Hmine Hg) as (-> & Hdue' & Hka & Hgone).
        split; [lia |]. right.
        rewrite Hgone, Hdue', recheckTime_succ, Hg.
        split; [reflexivity | lia].
      * rewrite (Hother Hg). cbn [app ofChain List.filter].
        rewrite app_nil_r, (ofChain_next_other _ _ _ _ Hnext Hg).
        split; [exact Hk |].
        destruct Hpending as [Hnone | [Hone Hk']];
          [left; exact Hnone | right; split; [exact Hone | lia]].
Qed.

Lemma inv_wait g t0 n0 c0 s t :
  window_inv g t0 n0 c0 s ->
  Forall (fun u => t <= due u) (timers s) ->
  window_inv g t0 n0 c0 (set_now t s).
Proof.
  intros [Habsent Htrig Hatt Htimers Htrace Hcon Hchain] Hd.
  split; try assumption. fields.
  rewrite Forall_forall in *. intros u Hu. split; [now apply Hd |].
  now apply Htimers.
Qed.

Lemma inv_step g t0 n0 c0 s s' :
  window_inv g t0 n0 c0 s -> quiet_step s s' -> window_inv g t0 n0 c0 s'.
Proof.
  intros Hinv Hstep. destruct Hstep as [s1 s2 c Hrun | s1 d Hd | s1 t Ht Hd].
  - rewrite (runTimer_absent _ (inv_absent _ _ _ _ _ Hinv)) in Hrun.
    destruct (nextTimer (timers s1)) as [[t rest]|] eqn:E; [| discriminate].
    injection Hrun as <- _. now apply inv_timer.
  - now apply inv_page.
  - now apply inv_wait.
Qed.

Lemma inv_run g t0 n0 c0 s s' :
  window_inv g t0 n0 c0 s -> quiet_run s s' -> window_inv g t0 n0 c0 s'.
Proof.
  intros Hinv Hrun. induction Hrun as [s | s s' s'' _ IH Hstep].
  - exact Hinv.
  - exact (inv_step _ _ _ _ _ _ (IH Hinv) Hstep).
Qed.

Lemma quiet_run_first s s1 s2 :
  quiet_step s s1 -> quiet_run s1 s2 -> quiet_run s s2.
Proof.
  intros Hstep Hrun. induction Hrun as [s1 | s1 s' s'' _ IH Hstep'].
  - eapply run_step; [apply run_done | exact Hstep].
  - eapply run_step; [exact (IH Hstep) | exact Hstep'].
Qed.

(** The pending timers run out: each run of a timer uses up an attempt or
    leaves one timer less. *)
Lemma runTimers_exhaust n : forall s,
  filterContainer (document s) = None ->
  (retryAttempts s <= MAX_RETRY_ATTEMPTS)%nat ->
  (length (timers s) + (MAX_RETRY_ATTEMPTS - retryAttempts s) <= n)%nat ->
  quiet_run s (runTimers n s) /\ timers (runTimers n s) = [].
Proof.
  induction n as [|n IH]; intros s Habsent Hatt Hn.
  - split; [apply run_done |]. cbn [runTimers].
    destruct (timers s); [reflexivity | cbn [length] in Hn; lia].
  - cbn [runTimers]. pose proof (runTimer_absent s Habsent) as Hrun.
    destruct (nextTimer (timers s)) as [[t rest]|] eqn:E.
    + rewrite Hrun.
      assert (Hstep : quiet_step s (fireTimer t rest s))
        by (eapply step_timer; exact Hrun).
      pose proof (nextTimer_length _ _ _ E) as Hlen.
      destruct (IH (fireTimer t rest s)) as [Hq Hnil].
      * now rewrite fireTimer_document.
      * unfold fireTimer, retryInitialization. fields.
        destruct (Nat.leb_spec MAX_RETRY_ATTEMPTS (retryAttempts s));
          fields; lia.
      * unfold fireTimer, retryInitialization. fields.
        destruct (Nat.leb_spec MAX_RETRY_ATTEMPTS (retryAttempts s));
          fields; [| rewrite length_app; cbn [length]]; lia.
      * split; [exact (quiet_run_first _ _ _ Hstep Hq) | exact Hnil].
    + rewrite Hrun. split; [apply run_done | exact (nextTimer_None _ E)].
Qed.

Lemma handleLocationChange_resets s n :
  handleLocationChange (set_retryAttempts n s) = handleLocationChange s.
Proof. reflexivity. Qed.

(** X21.  The retry window of a trigger while retries of earlier
    triggers may still be pending, every timer running at the time it is
    due.  A navigation trigger on a pull-request page whose mount point
    is away and stays away, with no further trigger: the trigger itself
    raises nothing and leaves the page alone; of the delayed re-checks
    made from then on at most three come from the timers of this
    trigger, the [i]-th of them [i] times 500 ms after it; no run of a
    timer raises or touches the page; the pending timers run out; once
    no timer of this trigger is pending a warning has been logged, and
    once no timer is pending at all nothing runs any more.  The next
    trigger starts from a retry counter of zero whatever the counter
    was. *)
Theorem retry_window (s : State) :
  consistent s ->
  isPullRequestPage (pathname s) = true ->
  filterContainer (document s) = None ->
  let s0 := fst (handleLocationChange s) in
  let g := triggers s0 in
  snd (handleLocationChange s) = Normal () /\
  document s0 = document s /\
  (forall s',
      quiet_run s0 s' ->
      (exists k,
          (k <= MAX_RETRY_ATTEMPTS)%nat /\
          rechecksSince (length (rechecks s)) g s' =
          List.map (recheckTime (now s)) (seq 1 k)) /\
      (forall s'' c,
          runTimer s' = Some (s'', c) ->
          c = Normal () /\ document s'' = document s') /\
      (let done := runTimers (length (timers s') + MAX_RETRY_ATTEMPTS) s' in
       quiet_run s' done /\ timers done = []) /\
      (ofChain g (timers s') = [] ->
       exists extra,
         console s' = console s0 ++ extra /\ In (Warn RETRY_WARNING) extra) /\
      (timers s' = [] -> runTimer s' = None)) /\
  (forall s' n,
      handleLocationChange (set_retryAttempts n s') = handleLocationChange s').
Proof.
  intros Hcons Hpage Habsent s0 g.
  pose proof (inv_establish s Hcons Hpage Habsent) as Hinv0.
  destruct (handleLocationChange_absent s Hpage Habsent)
    as (s0' & extra0 & Heq & _ & _ & Htrig & _ & _ & Hdoc & _).
  subst s0 g. rewrite Heq in *. cbn [fst snd] in *. rewrite Htrig.
  split; [reflexivity |]. split; [exact Hdoc |].
  split; [| exact handleLocationChange_resets].
  intros s' Hrun.
  pose proof (inv_run _ _ _ _ _ _ Hinv0 Hrun)
    as [Habs' Htrig' Hatt' Htimers' Htrace' Hcon' Hchain'].
  split; [| split; [| split; [| split]]].
  - destruct Hchain' as (k & Hsince & Hk & _). exists k. split; assumption.
  - intros s'' c Hstep. rewrite (runTimer_absent _ Habs') in Hstep.
    destruct (nextTimer (timers s')) as [[t rest]|]; [| discriminate].
    injection Hstep as <- <-. split; [reflexivity | apply fireTimer_document].
  - apply runTimers_exhaust; [exact Habs' | exact Hatt' | lia].
  - intros Hnone. destruct Hcon' as (extra & Hconsole & Hwarned).
    exists extra. split; [exact Hconsole | exact (Hwarned Hnone)].
  - intros Hnil. unfold runTimer. now rewrite Hnil.
Qed.

(** ** The markup of a filter item *)

(** *** Strings that an attribute value takes as they are *)

Lemma attrPlain_spec c :
  attrPlain c = true <-> c <> 0 /\ c <> 13 /\ c <> 34 /\ c <> 38.
Proof.
  unfold attrPlain. rewrite negb_true_iff, !orb_false_iff, !N.eqb_neq. tauto.
Qed.

Lemma isUnreserved_plain c : isUnreserved c = true -> attrPlain c = true.
Proof.
  unfold isUnreserved, isAsciiLetter, isDigit, attrPlain.
  intros H. apply negb_true_iff. rewrite !orb_false_iff, !N.eqb_neq.
  rewrite !orb_true_iff, !andb_true_iff, !N.leb_le, !N.eqb_eq in H. lia.
Qed.

Lemma upperHexDigit_plain d : attrPlain (upperHexDigit d) = true.
Proof.
  apply attrPlain_spec. unfold upperHexDigit.
  destruct (N.ltb_spec d 10); lia.
Qed.

Lemma percentEncode_plain b :
  Forall (fun c => attrPlain c = true) (percentEncode b).
Proof.
  unfold percentEncode.
  repeat constructor; apply upperHexDigit_plain.
Qed.

Lemma encodeCodePoint_plain cp :
  Forall (fun c => attrPlain c = true) (encodeCodePoint cp).
Proof.
  unfold encodeCodePoint. apply Forall_flat_map, Forall_forall.
  intros b _. apply percentEncode_plain.
Qed.

Lemma encodeURIComponent_plain_bounded n : forall q enc,
  (length q <= n)%nat ->
  encodeURIComponent q = Normal enc ->
  Forall (fun c => attrPlain c = true) enc.
Proof.
  induction n as [|n IH]; intros q enc Hn.
  { destruct q; [| cbn [length] in Hn; lia]. intros [= <-]. constructor. }
  destruct q as [|c q]; [intros [= <-]; constructor |].
  cbn [encodeURIComponent].
  destruct (isUnreserved c) eqn:Eu.
  - destruct (encodeURIComponent q) as [r|] eqn:Er; [| discriminate].
    intros [= <-]. constructor; [now apply isUnreserved_plain |].
    apply (IH q); [cbn [length] in Hn; lia | exact Er].
  - destruct (isLowSurrogate c); [discriminate |].
    destruct (isHighSurrogate c).
    + destruct q as [|d q]; [discriminate |].
      destruct (isLowSurrogate d); [| discriminate].
      destruct (encodeURIComponent q) as [r|] eqn:Er; [| discriminate].
      intros [= <-]. apply Forall_app. split; [apply encodeCodePoint_plain |].
      apply (IH q); [cbn [length] in Hn; lia | exact Er].
    + destruct (encodeURIComponent q) as [r|] eqn:Er; [| discriminate].
      intros [= <-]. apply Forall_app. split; [apply encodeCodePoint_plain |].
      apply (IH q); [cbn [length] in Hn; lia | exact Er].
Qed.

Lemma encodeURIComponent_plain q enc :
  encodeURIComponent q = Normal enc ->
  Forall (fun c => attrPlain c = true) enc.
Proof. apply (encodeURIComponent_plain_bounded (length q)). lia. Qed.

(** *** The repository path of a location path *)

Lemma split_Forall (P : N -> Prop) sep s :
  Forall P s -> Forall (Forall P) (split sep s).
Proof.
  induction 1 as [|c s Hc _ IH]; cbn [split].
  - repeat constructor.
  - destruct (c =? sep).
    + constructor; [constructor | exact IH].
    + destruct (split sep s) as [|w ws].
      * repeat constructor. exact Hc.
      * inversion IH; subst. constructor; [constructor |]; assumption.
Qed.

Lemma join_Forall (P : N -> Prop) sep l :
  Forall P sep -> Forall (Forall P) l -> Forall P (join sep l).
Proof.
  intros Hsep. induction 1 as [|w ws Hw Hws IH]; cbn [join]; [constructor |].
  destruct ws; [exact Hw |].
  apply Forall_app. split; [exact Hw |].
  apply Forall_app. split; [exact Hsep | exact IH].
Qed.

Lemma getRepoPath_Forall (P : N -> Prop) path :
  P 47 -> Forall P path -> Forall P (getRepoPath path).
Proof.
  intros Hslash Hpath. unfold getRepoPath, slice.
  apply join_Forall; [repeat constructor; exact Hslash |].
  apply Forall_take, Forall_drop, split_Forall, Hpath.
Qed.

Lemma isPathChar_plain c : isPathChar c = true -> c <> 38 -> attrPlain c = true.
Proof.
  unfold isPathChar. intros H Hamp. apply attrPlain_spec.
  rewrite !andb_true_iff, !N.leb_le, negb_true_iff, !orb_false_iff,
    !N.eqb_neq in H. lia.
Qed.

(** *** The template and its trimming *)

Lemma itemHtml_shape checked repoPath encodedQuery label :
  itemHtml checked repoPath encodedQuery label =
  (nl ++ lit "      ") ++
  itemOpenTag checked (itemHref repoPath encodedQuery) ++ itemBody label.
Proof.
  unfold itemHtml, itemOpenTag, itemHref, itemBody.
  rewrite <- !app_assoc. reflexivity.
Qed.

Lemma trimStart_app a b c :
  forallb isWhiteSpace a = true ->
  isWhiteSpace c = false ->
  trimStart (a ++ c :: b) = c :: b.
Proof.
  intros Ha Hc. induction a as [|x a IH]; cbn [app trimStart].
  - now rewrite Hc.
  - cbn [forallb] in Ha. apply andb_true_iff in Ha as [-> Ha]. exact (IH Ha).
Qed.

Lemma trimEnd_app a b : trimEnd b <> [] -> trimEnd (a ++ b) = a ++ trimEnd b.
Proof.
  intros Hb. induction a as [|x a IH]; [reflexivity |].
  cbn [app trimEnd]. rewrite IH.
  destruct (a ++ trimEnd b) eqn:E; [| reflexivity].
  apply app_eq_nil in E as [_ E]. contradiction.
Qed.

Lemma trimEnd_nonempty s c :
  In c s -> isWhiteSpace c = false -> trimEnd s <> [].
Proof.
  induction s as [|x s IH]; [intros [] |].
  intros [-> | Hin] Hc; cbn [trimEnd].
  - destruct (trimEnd s); [rewrite Hc |]; discriminate.
  - specialize (IH Hin Hc).
    destruct (trimEnd s); [contradiction | discriminate].
Qed.

Lemma itemOpenTag_head checked href :
  exists rest, itemOpenTag checked href = 60 :: rest.
Proof. eexists. reflexivity. Qed.

Ltac find_unit :=
  repeat first
    [ left; solve [vm_compute; repeat first [left; reflexivity | right]]
    | right ].

Lemma itemBody_nonempty label : trimEnd (itemBody label) <> [].
Proof.
  apply (trimEnd_nonempty _ 62); [| reflexivity].
  unfold itemBody. rewrite !in_app_iff. find_unit.
Qed.

Lemma trim_itemHtml checked repoPath encodedQuery label :
  trim (itemHtml checked repoPath encodedQuery label) =
  itemOpenTag checked (itemHref repoPath encodedQuery) ++
  trimEnd (itemBody label).
Proof.
  rewrite itemHtml_shape. unfold trim.
  destruct (itemOpenTag_head checked (itemHref repoPath encodedQuery))
    as [rest Hrest].
  rewrite Hrest. cbn [app].
  rewrite trimStart_app by reflexivity.
  change (60 :: rest ++ itemBody label) with ((60 :: rest) ++ itemBody label).
  rewrite trimEnd_app by apply itemBody_nonempty.
  reflexivity.
Qed.

(** *** Tokenizing the start tag *)

Lemma normalizeNewlines_app a b :
  Forall (fun c => c <> 13) a ->
  normalizeNewlines (a ++ b) = a ++ normalizeNewlines b.
Proof.
  induction 1 as [|c a Hc _ IH]; [reflexivity |].
  cbn [app normalizeNewlines].
  destruct (N.eqb_spec c 13); [contradiction |]. now rewrite IH.
Qed.

Lemma Forall_forallb (p : N -> bool) l :
  forallb p l = true -> Forall (fun c => p c = true) l.
Proof. intros H. apply Forall_forall. intros c Hc%list_elem_of_In.
  rewrite forallb_forall in H. now apply H. Qed.

Lemma plain_not_CR l :
  Forall (fun c => attrPlain c = true) l -> Forall (fun c => c <> 13) l.
Proof.
  intros H. eapply Forall_impl; [exact H |].
  simpl. intros c Hc. apply attrPlain_spec in Hc. tauto.
Qed.

Lemma literal_not_CR l :
  forallb (fun c => negb (c =? 13)) l = true -> Forall (fun c => c <> 13) l.
Proof.
  intros H%Forall_forallb. eapply Forall_impl; [exact H |].
  simpl. intros c Hc. now apply negb_true_iff, N.eqb_neq in Hc.
Qed.

Lemma itemOpenTag_not_CR checked href :
  Forall (fun c => attrPlain c = true) checked ->
  Forall (fun c => attrPlain c = true) href ->
  Forall (fun c => c <> 13) (itemOpenTag checked href).
Proof.
  intros Hc Hh. unfold itemOpenTag.
  rewrite !Forall_app.
  repeat split;
    first [ apply plain_not_CR; assumption
          | apply literal_not_CR; reflexivity ].
Qed.

Lemma hrun_app st a b :
  hrun st (a ++ b) =
  (fst (hrun st a) ++ fst (hrun (snd (hrun st a)) b),
   snd (hrun (snd (hrun st a)) b)).
Proof.
  revert st; induction a as [|c a IH]; intros st; cbn [app hrun].
  - cbn [fst snd app]. now destruct (hrun st b).
  - destruct (hstep st c) as [ts st']. rewrite IH.
    destruct (hrun st' a) as [ts' st'']. cbn [fst snd].
    destruct (hrun st'' b). cbn [fst snd]. now rewrite app_assoc.
Qed.

Lemma tokenize_hrun st a b :
  tokenize st (a ++ b) = fst (hrun st a) ++ tokenize (snd (hrun st a)) b.
Proof.
  revert st; induction a as [|c a IH]; intros st; cbn [app hrun tokenize].
  - reflexivity.
  - destruct (hstep st c) as [ts st']. rewrite IH.
    destruct (hrun st' a) as [ts' st'']. cbn [fst snd]. now rewrite app_assoc.
Qed.

Lemma hrun_value t name v s :
  Forall (fun c => attrPlain c = true) s ->
  hrun (AttrValueDQ t name v) s = ([], AttrValueDQ t name (v ++ s)).
Proof.
  intros H. revert v; induction H as [|c s Hc _ IH]; intros v.
  - now rewrite app_nil_r.
  - cbn [hrun hstep]. apply attrPlain_spec in Hc as (H0 & _ & H34 & _).
    destruct (N.eqb_spec c 34); [contradiction |].
    unfold inTag. destruct (N.eqb_spec c 0); [contradiction |].
    rewrite IH, <- app_assoc. reflexivity.
Qed.

Lemma decodeReferences_plain s :
  Forall (fun c => attrPlain c = true) s -> decodeReferences 0 s = s.
Proof.
  induction 1 as [|c s Hc _ IH]; [reflexivity |].
  cbn [decodeReferences]. apply attrPlain_spec in Hc as (_ & _ & _ & H38).
  destruct (N.eqb_spec c 38); [contradiction |]. now rewrite IH.
Qed.

Lemma hrun_itemOpenTag checked href :
  Forall (fun c => attrPlain c = true) checked ->
  Forall (fun c => attrPlain c = true) href ->
  hrun (Data []) (itemOpenTag checked href) =
  ([HStartTag (lit "a") (itemAttributes checked href) false], Data []).
Proof.
  intros Hc Hh. unfold itemOpenTag.
  repeat rewrite (app_assoc _ _ (checked ++ _)).
  rewrite hrun_app.
  set (r := hrun (Data []) _). vm_compute in r. subst r. cbn [fst snd].
  rewrite hrun_app, (hrun_value _ _ _ _ Hc). cbn [fst snd app].
  repeat rewrite (app_assoc _ _ (href ++ _)).
  rewrite hrun_app.
  set (r := hrun _ (_ ++ _)). cbv -[decodeReferences] in r. subst r.
  cbn [fst snd].
  rewrite hrun_app, (hrun_value _ _ _ _ Hh). cbn [fst snd app].
  set (r := hrun _ (_ ++ _)). cbv -[decodeReferences] in r. subst r.
  cbn [fst snd].
  rewrite (decodeReferences_plain _ Hc), (decodeReferences_plain _ Hh).
  reflexivity.
Qed.

(** *** The first node the tree builder delivers *)

Section FirstElement.
Variable tag : jsstring.
Variable attrs : list (jsstring * jsstring).

Lemma appendNode_first l kids rest n :
  appendNode (Element tag attrs l kids :: rest) n =
  Element tag attrs l kids :: appendNode rest n.
Proof. destruct rest; reflexivity. Qed.

Lemma bottom_cons (o : open_element) stack inner o' :
  o :: stack = inner ++ [o'] ->
  (stack = [] /\ inner = [] /\ o = o') \/
  (exists inner', inner = o :: inner' /\ stack = inner' ++ [o']).
Proof.
  destruct inner as [|i inner]; cbn [app].
  - intros [= -> <-]. left. auto.
  - intros [= -> ->]. right. eauto.
Qed.

Lemma insertNode_first b n :
  firstElement tag attrs b -> firstElement tag attrs (insertNode b n).
Proof.
  destruct b as [[|o stack] root]; unfold firstElement;
    cbn [fst snd insertNode].
  - intros [[_ (inner & o & H & _)] | (kids & rest & ->)].
    + destruct inner; discriminate.
    + right. rewrite appendNode_first. eauto.
  - intros [[Hroot (inner & o' & H & Htag & Hattrs)] | H];
      [left | right; exact H].
    split; [exact Hroot |].
    apply bottom_cons in H as [(-> & -> & ->) | (inner' & -> & ->)].
    + exists [], (withChild o' n). auto.
    + exists (withChild o n :: inner'), o'. auto.
Qed.

Lemma closeInto_first name stack : forall n found root,
  (root = [] /\
   ((stack = [] /\ exists kids, n = Element tag attrs [] kids) \/
    (exists inner o,
        stack = inner ++ [o] /\ o_tag o = tag /\ o_attrs o = attrs))) \/
  (exists kids rest, root = Element tag attrs [] kids :: rest) ->
  firstElement tag attrs (closeInto n found name stack root).
Proof.
  induction stack as [|o stack IH]; intros n found root H; cbn [closeInto].
  - right. cbn [snd].
    destruct H as [[-> [[_ (kids & ->)] | (inner & o & H & _)]]
                  | (kids & rest & ->)].
    + cbn [appendNode]. eauto.
    + destruct inner; discriminate.
    + rewrite appendNode_first. eauto.
  - destruct found.
    + destruct H as [[Hroot [[H _] | (inner & o' & H & Htag & Hattrs)]] | H];
        [discriminate | left | right; exact H].
      cbn [fst snd]. split; [exact Hroot |].
      apply bottom_cons in H as [(-> & -> & ->) | (inner' & -> & ->)].
      * exists [], (withChild o' n). auto.
      * exists (withChild o n :: inner'), o'. auto.
    + apply IH.
      destruct H as [[Hroot [[H _] | (inner & o' & H & Htag & Hattrs)]] | H];
        [discriminate | left | right; exact H].
      split; [exact Hroot |].
      apply bottom_cons in H as [(-> & -> & ->) | (inner' & -> & ->)].
      * left. split; [reflexivity |]. unfold closeElement, withChild.
        cbn [o_tag o_attrs o_children]. rewrite Htag, Hattrs. eauto.
      * right. eauto.
Qed.

Lemma treeStep_first b t :
  firstElement tag attrs b -> firstElement tag attrs (treeStep b t).
Proof.
  intros H. destruct t as [name tattrs selfClosing | name | d];
    cbn [treeStep].
  - match goal with
    | |- context [if ?c then _ else _] => destruct c
    end.
    + now apply insertNode_first.
    + destruct H as [[Hroot (inner & o' & H & Htag & Hattrs)] | H];
        [left | right; exact H].
      cbn [fst snd]. split; [exact Hroot |].
      eexists (_ :: inner), o'. rewrite H. auto.
  - destruct (fst b) as [|o stack] eqn:E; [exact H |].
    destruct (isOpen name (o :: stack)); [| exact H].
    apply closeInto_first.
    destruct H as [[Hroot (inner & o' & H & Htag & Hattrs)] | H];
      [left | right; exact H].
    split; [exact Hroot |]. rewrite E in H.
    apply bottom_cons in H as [(-> & -> & ->) | (inner' & -> & ->)].
    + left. split; [reflexivity |]. unfold closeElement.
      rewrite Htag, Hattrs. eauto.
    + right. eauto.
  - now apply insertNode_first.
Qed.

Lemma fold_treeStep_first ts : forall b,
  firstElement tag attrs b ->
  firstElement tag attrs (fold_left treeStep ts b).
Proof.
  induction ts as [|t ts IH]; intros b H; [exact H |].
  cbn [fold_left]. apply IH, treeStep_first, H.
Qed.

Lemma closeAllInto_first stack : forall n root,
  (root = [] /\
   ((stack = [] /\ exists kids, n = Element tag attrs [] kids) \/
    (exists inner o,
        stack = inner ++ [o] /\ o_tag o = tag /\ o_attrs o = attrs))) \/
  (exists kids rest, root = Element tag attrs [] kids :: rest) ->
  exists kids rest,
    closeAllInto n stack root = Element tag attrs [] kids :: rest.
Proof.
  induction stack as [|o stack IH]; intros n root H; cbn [closeAllInto].
  - destruct H as [[-> [[_ (kids & ->)] | (inner & o & H & _)]]
                  | (kids & rest & ->)].
    + cbn [appendNode]. eauto.
    + destruct inner; discriminate.
    + rewrite appendNode_first. eauto.
  - apply IH.
    destruct H as [[Hroot [[H _] | (inner & o' & H & Htag & Hattrs)]] | H];
      [discriminate | left | right; exact H].
    split; [exact Hroot |].
    apply bottom_cons in H as [(-> & -> & ->) | (inner' & -> & ->)].
    + left. split; [reflexivity |]. unfold closeElement, withChild.
      cbn [o_tag o_attrs o_children]. rewrite Htag, Hattrs. eauto.
    + right. eauto.
Qed.

Lemma closeAll_first b :
  firstElement tag attrs b ->
  exists kids rest, closeAll b = Element tag attrs [] kids :: rest.
Proof.
  intros H. unfold closeAll.
  destruct (fst b) as [|o stack] eqn:E.
  - destruct H as [[_ (inner & o & H & _)] | H]; [| exact H].
    rewrite E in H. destruct inner; discriminate.
  - apply closeAllInto_first.
    destruct H as [[Hroot (inner & o' & H & Htag & Hattrs)] | H];
      [left | right; exact H].
    split; [exact Hroot |]. rewrite E in H.
    apply bottom_cons in H as [(-> & -> & ->) | (inner' & -> & ->)].
    + left. split; [reflexivity |]. unfold closeElement.
      rewrite Htag, Hattrs. eauto.
    + right. eauto.
Qed.

End FirstElement.

Lemma parseFragment_item checked href tail :
  Forall (fun c => attrPlain c = true) checked ->
  Forall (fun c => attrPlain c = true) href ->
  exists kids rest,
    parseFragment (itemOpenTag checked href ++ tail) =
    Element (lit "a") (itemAttributes checked href) [] kids :: rest.
Proof.
  intros Hc Hh. unfold parseFragment.
  rewrite normalizeNewlines_app by now apply itemOpenTag_not_CR.
  rewrite tokenize_hrun, (hrun_itemOpenTag _ _ Hc Hh). cbn [fst snd app].
  cbn [fold_left].
  generalize (itemAttributes checked href). intros attrs.
  change (treeStep ([], []) (HStartTag (lit "a") attrs false))
    with ([{| o_tag := lit "a"; o_attrs := attrs; o_foreign := false;
              o_children := [] |}], @nil node).
  apply closeAll_first, fold_treeStep_first.
  left. split; [reflexivity |]. exists [].
  eexists. split; [reflexivity |]. split; reflexivity.
Qed.

Lemma ToString_bool_plain b :
  Forall (fun c => attrPlain c = true) (ToString_bool b).
Proof. destruct b; apply Forall_forallb; reflexivity. Qed.

Lemma itemHref_plain repoPath enc :
  Forall (fun c => attrPlain c = true) repoPath ->
  Forall (fun c => attrPlain c = true) enc ->
  Forall (fun c => attrPlain c = true) (itemHref repoPath enc).
Proof.
  intros Hr He. unfold itemHref. rewrite !Forall_app.
  repeat split; try assumption; apply Forall_forallb; reflexivity.
Qed.

Lemma repoPath_plain path :
  Forall (fun c => isPathChar c = true) path ->
  ~ In 38 (getRepoPath path) ->
  Forall (fun c => attrPlain c = true) (getRepoPath path).
Proof.
  intros Hpath Hamp.
  pose proof (getRepoPath_Forall (fun c => isPathChar c = true) path
                eq_refl Hpath) as H.
  rewrite Forall_forall in H |- *. intros c Hc.
  apply isPathChar_plain; [now apply H |].
  intros ->. apply Hamp. now apply list_elem_of_In.
Qed.

(** C10, as amended.  For a location path as the browser serialises it
    whose first two segments hold no ampersand, and a query that
    [encodeURIComponent] encodes, the item [createFilterItem] builds is an
    anchor whose [href] is the slash, the first two segments of the path
    joined by a slash, [/issues?q=] and the encoded query: the link goes
    to the issues search of the repository, whatever the label, a string
    or any other value that converts to one. *)
Theorem filter_item_link (path : jsstring) (label : jsvalue)
  (text q enc : jsstring) (checked : bool) :
  Forall (fun c => isPathChar c = true) path ->
  ~ In 38 (getRepoPath path) ->
  encodeURIComponent q = Normal enc ->
  ToString label = Normal text ->
  exists item,
    createFilterItem path label (Some (JStr q)) checked =
      Normal (Some item) /\
    tagName item = Some (lit "a") /\
    attribute item (lit "href") =
      Some (lit "/" ++ getRepoPath path ++ lit "/issues?q=" ++ enc).
Proof.
  intros Hpath Hamp Henc Hlabel. unfold createFilterItem.
  cbn [ToString ToString_json mbind completion_bind].
  rewrite Henc, Hlabel.
  cbn [mbind completion_bind]. unfold createElementFromHtml.
  rewrite trim_itemHtml.
  destruct (parseFragment_item (ToString_bool checked)
              (itemHref (getRepoPath path) enc)
              (trimEnd (itemBody text)))
    as (kids & rest & ->).
  - apply ToString_bool_plain.
  - apply itemHref_plain;
      [now apply repoPath_plain | now apply (encodeURIComponent_plain q)].
  - eexists. split; [reflexivity |]. split; reflexivity.
Qed.

(** *** Consistency is kept by every event *)

Lemma consistent_initial s : timers s = [] -> consistent s.
Proof. unfold consistent. intros ->. constructor. Qed.

Lemma initializeDropdown_frame s :
  timers (fst (initializeDropdown s)) = timers s /\
  now (fst (initializeDropdown s)) = now s /\
  triggers (fst (initializeDropdown s)) = triggers s.
Proof.
  unfold initializeDropdown.
  destruct (filtersDropdown (document s)); [| auto].
  destruct (removeCustomItems _) as [cleared [[]|e]]; [| auto].
  fields.
  destruct (filterContainer (document s)); [| auto].
  destruct (addExistingFilters _ _ _) as [items [[]|e]]; [| auto].
  destruct createAddToFavButton; auto.
Qed.

Lemma loadFilters_frame s :
  timers (fst (loadFilters s)) = timers s /\
  now (fst (loadFilters s)) = now s /\
  triggers (fst (loadFilters s)) = triggers s /\
  retryAttempts (fst (loadFilters s)) = retryAttempts s /\
  document (fst (loadFilters s)) = document s /\
  pathname (fst (loadFilters s)) = pathname s.
Proof.
  unfold loadFilters. destruct (loadFilters_body s); cbn; auto 10.
Qed.

Lemma consistent_frame s s' :
  timers s' = timers s -> now s' = now s ->
  (triggers s <= triggers s')%nat ->
  consistent s -> consistent s'.
Proof.
  unfold consistent. intros -> -> Htrig H.
  eapply Forall_impl; [exact H |]. simpl. intros t [H1 H2].
  split; [exact H1 | lia].
Qed.

Lemma consistent_retry g s :
  (g <= triggers s)%nat -> consistent s ->
  consistent (retryInitialization g s).
Proof.
  intros Hg H. unfold retryInitialization.
  destruct (_ <=? _)%nat; [exact H |].
  unfold consistent in *. fields. apply Forall_app. split; [exact H |].
  constructor; [| constructor]. cbn [due chain]. unfold RETRY_DELAY.
  split; lia.
Qed.

Lemma consistent_handleLocationChange s :
  consistent s -> consistent (fst (handleLocationChange s)).
Proof.
  intros H. unfold handleLocationChange.
  set (s1 := set_triggers _ _).
  assert (H1 : consistent s1).
  { apply (consistent_frame s); [reflexivity | reflexivity | | exact H].
    subst s1. fields. lia. }
  destruct (negb _); [exact H1 |].
  destruct (loadFilters s1) as [s2 v] eqn:E.
  pose proof (loadFilters_frame s1) as (Ht & Hn & Hg & _).
  rewrite E in Ht, Hn, Hg. cbn [fst] in Ht, Hn, Hg.
  assert (H3 : consistent (set_filters v s2)).
  { apply (consistent_frame s1); fields;
      [exact Ht | exact Hn | lia | exact H1]. }
  destruct (mountPointPresent _).
  - pose proof (initializeDropdown_frame (set_filters v s2))
      as (Ht' & Hn' & Hg').
    apply (consistent_frame (set_filters v s2));
      [exact Ht' | exact Hn' | lia | exact H3].
  - cbn [fst]. apply consistent_retry; [| exact H3].
    fields. rewrite Hg. subst s1. fields. lia.
Qed.

Lemma consistent_runTimer s s' c :
  consistent s -> runTimer s = Some (s', c) -> consistent s'.
Proof.
  intros H. unfold runTimer.
  destruct (nextTimer (timers s)) as [[t rest]|] eqn:E; [| discriminate].
  pose proof (nextTimer_min _ _ _ E) as Hmin.
  unfold consistent in H.
  destruct (nextTimer_Forall _ _ _ _ E H) as [[Hdue Hg] _].
  rewrite (N.max_r _ _ Hdue).
  set (s1 := add_recheck _ _).
  assert (H1 : consistent s1).
  { unfold consistent. subst s1. fields.
    apply (nextTimer_Forall _ _ _ _ E).
    rewrite Forall_forall in H, Hmin |- *. intros u Hu.
    split; [now apply Hmin | now apply H]. }
  unfold retryCallback. destruct (mountPointPresent s1).
  - intros [= Er]. apply (f_equal fst) in Er. cbn [fst] in Er. subst s'.
    pose proof (initializeDropdown_frame s1) as (Ht' & Hn' & Hg').
    apply (consistent_frame s1); [exact Ht' | exact Hn' | lia | exact H1].
  - intros [= <- _]. apply consistent_retry; [exact Hg | exact H1].
Qed.

Lemma consistent_click answer s :
  consistent s -> consistent (fst (clickFavButton answer s)).
Proof.
  intros H. unfold clickFavButton.
  destruct (searchInput (document s)) as [q|]; [| exact H]. cbn [fst].
  unfold addNewFilter. destruct q as [|c q]; [exact H |].
  unfold promptAsync.
  set (s1 := add_prompt _ s).
  assert (H1 : consistent s1) by exact H.
  destruct (match answer with Some (c0 :: r) => c0 :: r | _ => [] end)
    as [|l0 l]; [exact H1 |].
  unfold pushFilter. destruct (filters s1); try exact H1.
  set (s2 := set_filters _ s1).
  assert (H2 : consistent (saveFilters s2)).
  { unfold saveFilters. destruct (setItem _ _ _); exact H1. }
  pose proof (initializeDropdown_frame (saveFilters s2)) as (Ht' & Hn' & Hg').
  destruct (initializeDropdown (saveFilters s2)) as [s3 [[]|e]];
    cbn [fst] in *;
    apply (consistent_frame (saveFilters s2)); fields;
      first [assumption | lia].
Qed.

Lemma consistent_onMutations ms s :
  consistent s -> consistent (fst (onMutations ms s)).
Proof.
  intros H. unfold onMutations.
  destruct (existsb _ ms);
    [now apply consistent_handleLocationChange | exact H].
Qed.

(** Every state the script reaches is consistent. *)
Lemma reachable_consistent s : reachable s -> consistent s.
Proof.
  induction 1 as [s Hnil | s _ IH | s ms _ IH | s s' c _ IH Hrun
                 | s answer _ IH | s d _ IH | s p _ IH | s st _ IH
                 | s t _ IH Ht Hdue].
  - unfold construct. apply consistent_handleLocationChange.
    apply consistent_initial. exact Hnil.
  - now apply consistent_handleLocationChange.
  - now apply consistent_onMutations.
  - exact (consistent_runTimer _ _ _ IH Hrun).
  - now apply consistent_click.
  - exact IH.
  - exact IH.
  - exact IH.
  - unfold consistent in *. fields. rewrite Forall_forall in *.
    intros u Hu. split; [now apply Hdue | now apply IH].
Qed.

(** *** The ghost fields do not steer the script *)

Lemma eraseTimer_idem ts :
  List.map eraseTimer (List.map eraseTimer ts) = List.map eraseTimer ts.
Proof. rewrite List.map_map. reflexivity. Qed.

Lemma nextTimer_erase ts :
  nextTimer (List.map eraseTimer ts) =
  match nextTimer ts with
  | Some (t, rest) => Some (eraseTimer t, List.map eraseTimer rest)
  | None => None
  end.
Proof.
  induction ts as [|u ts IH]; [reflexivity |].
  cbn [List.map nextTimer]. rewrite IH.
  destruct (nextTimer ts) as [[v rest]|]; [| reflexivity].
  cbn [eraseTimer due]. destruct (due v <? due u); reflexivity.
Qed.

(** [initializeDropdown] reads the document, the filters and the path,
    and writes the document. *)
Lemma initializeDropdown_shape s s' :
  document s = document s' ->
  filters s = filters s' ->
  pathname s = pathname s' ->
  (initializeDropdown s = (s, Normal ()) /\
   initializeDropdown s' = (s', Normal ())) \/
  (exists d c,
      initializeDropdown s = (set_document d s, c) /\
      initializeDropdown s' = (set_document d s', c)).
Proof.
  intros Hd Hf Hp. unfold initializeDropdown.
  unfold set_filterContainer, set_filtersDropdown. fields.
  rewrite <- Hd, <- Hf, <- Hp.
  destruct (filtersDropdown (document s)); [| left; auto].
  destruct (removeCustomItems _) as [cleared [[]|e]];
    [| right; eexists; eexists; split; reflexivity].
  destruct (filterContainer (document s));
    [| right; eexists; eexists; split; reflexivity].
  destruct (addExistingFilters _ _ _) as [items [[]|e]];
    [| right; eexists; eexists; split; reflexivity].
  destruct createAddToFavButton;
    right; eexists; eexists; split; reflexivity.
Qed.

(** [loadFilters] reads the storage and writes the console. *)
Lemma loadFilters_shape s :
  (exists v,
      forall s', localStorage s' = localStorage s ->
                 loadFilters s' = (s', v)) \/
  (exists e,
      forall s', localStorage s' = localStorage s ->
                 loadFilters s' =
                 (log (Error (lit "Error loading filters:") e) s', JArr [])).
Proof.
  destruct (loadFilters_body s) as [v|e] eqn:E;
    [left; exists v | right; exists e];
    intros s' Hs'; unfold loadFilters, loadFilters_body in *;
    rewrite Hs', E; reflexivity.
Qed.

Ltac erased :=
  unfold eraseGhost; cbn [fst snd]; fields;
  rewrite ?List.map_app, ?eraseTimer_idem; reflexivity.

(** A navigation trigger does the same to the fields of the script and
    of the window whatever the ghost fields hold. *)
Lemma handleLocationChange_erase s :
  eraseGhost (fst (handleLocationChange (eraseGhost s))) =
    eraseGhost (fst (handleLocationChange s)) /\
  snd (handleLocationChange (eraseGhost s)) = snd (handleLocationChange s).
Proof.
  unfold handleLocationChange.
  cbn [eraseGhost pathname set_triggers set_retryAttempts triggers].
  destruct (negb _); [split; [erased | reflexivity] |].
  destruct (loadFilters_shape s) as [[v Hv] | [e He]];
    [rewrite !Hv by reflexivity | rewrite !He by reflexivity];
    unfold mountPointPresent; fields.
  all: destruct (filterContainer (document s));
    [| unfold retryInitialization; fields; split; [| reflexivity];
       destruct (_ <=? _)%nat; erased].
  all: match goal with
       | |- context [initializeDropdown ?a] =>
           match goal with
           | |- context [fst (initializeDropdown ?b)] =>
               lazymatch a with
               | b => fail
               | _ =>
                   destruct (initializeDropdown_shape a b eq_refl eq_refl
                               eq_refl)
                     as [[-> ->] | (d & c & -> & ->)]
               end
           end
       end; cbn [fst snd]; (split; [erased | reflexivity]).
Qed.

(** The same for the run of a timer. *)
Lemma runTimer_erase s :
  match runTimer s, runTimer (eraseGhost s) with
  | Some (s1, c1), Some (s2, c2) => eraseGhost s2 = eraseGhost s1 /\ c2 = c1
  | None, None => True
  | _, _ => False
  end.
Proof.
  unfold runTimer. cbn [eraseGhost timers]. rewrite nextTimer_erase.
  destruct (nextTimer (timers s)) as [[t rest]|]; [| exact I].
  cbn [eraseTimer due chain now]. unfold retryCallback, mountPointPresent.
  fields.
  destruct (filterContainer (document s));
    [| unfold retryInitialization; fields; split; [| reflexivity];
       destruct (_ <=? _)%nat; erased].
  match goal with
  | |- context [let (_, _) := initializeDropdown ?a in _] =>
      match goal with
      | |- context [initializeDropdown ?b] =>
          lazymatch a with
          | b => fail
          | _ =>
              destruct (initializeDropdown_shape a b eq_refl eq_refl eq_refl)
                as [[-> ->] | (d & c & -> & ->)]
          end
      end
  end; (split; [erased | reflexivity]).
Qed.

(** ** The retry window of a trigger with no retry pending *)

Lemma quiet_window_step s s' : quiet_step s s' -> window_step s s'.
Proof.
  intros [s1 s2 c Hrun | s1 d Hd | s1 t Ht _].
  - exact (late_timer _ _ _ Hrun).
  - exact (late_page _ _ Hd).
  - exact (late_wait _ _ Ht).
Qed.

Lemma quiet_window_run s s' : quiet_run s s' -> window_run s s'.
Proof.
  induction 1 as [s | s s' s'' _ IH Hstep]; [apply window_done |].
  exact (window_next _ _ _ IH (quiet_window_step _ _ Hstep)).
Qed.

Lemma lastTime_snoc ts : forall t u, lastTime t (ts ++ [u]) = u.
Proof.
  induction ts as [|v ts IH]; intros t u; [reflexivity |]. apply IH.
Qed.

Lemma spaced_snoc ts : forall t u,
  spaced t ts -> lastTime t ts + RETRY_DELAY <= u -> spaced t (ts ++ [u]).
Proof.
  induction ts as [|v ts IH]; intros t u; cbn [app spaced lastTime].
  - intros _ H. split; [exact H | exact I].
  - intros [H1 H2] H. split; [exact H1 | now apply IH].
Qed.

(** Re-checks that all belong to the trigger are its re-checks. *)
Lemma rechecksSince_all n0 g s :
  Forall (fun c => fst c = g) (drop n0 (rechecks s)) ->
  rechecksSince n0 g s = recheckTimes n0 s.
Proof.
  unfold rechecksSince, recheckTimes. generalize (drop n0 (rechecks s)).
  induction 1 as [|c l Hc _ IH]; [reflexivity |].
  cbn [List.filter]. rewrite Hc, Nat.eqb_refl. cbn [List.map].
  now rewrite IH.
Qed.

Lemma lone_establish s :
  timers s = [] ->
  isPullRequestPage (pathname s) = true ->
  filterContainer (document s) = None ->
  lone_inv (S (triggers s)) (now s) (length (rechecks s))
    (console (fst (handleLocationChange s))) (fst (handleLocationChange s)).
Proof.
  intros Hnone Hpage Habsent.
  destruct (handleLocationChange_absent s Hpage Habsent)
    as (s0 & extra & -> & Hatt & Htimers & Htrig & Hnow & Hrech & Hdoc & Hcon).
  cbn [fst]. rewrite Hnone in Htimers. cbn [app] in Htimers.
  assert (Hts : recheckTimes (length (rechecks s)) s0 = []).
  { unfold recheckTimes. rewrite Hrech, drop_all. reflexivity. }
  split.
  - now rewrite Hdoc.
  - rewrite Hrech. lia.
  - rewrite Hrech, drop_all. constructor.
  - rewrite Hts. exact I.
  - left. eexists. split; [exact Htimers |]. rewrite Hts.
    cbn [chain due lastTime length]. unfold MAX_RETRY_ATTEMPTS.
    repeat split; try reflexivity; try assumption; lia.
Qed.

Lemma lone_timer g t0 n0 c0 s t rest :
  lone_inv g t0 n0 c0 s ->
  nextTimer (timers s) = Some (t, rest) ->
  lone_inv g t0 n0 c0 (fireTimer t rest s).
Proof.
  intros [Habsent Htrace Hchain Hspaced Hstate] Hnext.
  destruct Hstate as [(t' & Hts & Hg & Hdue & Hatt & Hk & Hcon) |
                      (Hts & _)];
    [| rewrite Hts in Hnext; discriminate].
  rewrite Hts in Hnext. cbn [nextTimer] in Hnext.
  injection Hnext as <- <-.
  unfold recheckTimes in *.
  set (time := N.max (now s) (due t')).
  set (old := List.map snd (drop n0 (rechecks s))) in *.
  assert (Htimes :
            List.map snd (drop n0 (rechecks s ++ [(chain t', time)])) =
            old ++ [time]).
  { rewrite drop_app_le by exact Htrace. now rewrite List.map_app. }
  assert (Hchain' :
            Forall (fun c => fst c = g)
              (drop n0 (rechecks s ++ [(chain t', time)]))).
  { rewrite drop_app_le by exact Htrace.
    apply Forall_app. split; [exact Hchain |].
    constructor; [exact Hg | constructor]. }
  assert (Hspaced' : spaced t0 (old ++ [time])).
  { apply spaced_snoc; [exact Hspaced |]. rewrite <- Hdue. subst time. lia. }
  unfold fireTimer, retryInitialization. fold time. fields. rewrite Hatt.
  destruct (Nat.leb_spec MAX_RETRY_ATTEMPTS (S (length old)))
    as [Hmax | Hmax];
    split; unfold recheckTimes; fields; rewrite ?Htimes;
    try assumption.
  - (* the third re-check: the warning, and no timer *)
    rewrite length_app. cbn [length]. lia.
  - right. rewrite length_app, Hcon. cbn [length].
    unfold MAX_RETRY_ATTEMPTS in *. repeat split; try reflexivity; lia.
  - (* another attempt: one timer again *)
    rewrite length_app. cbn [length]. lia.
  - left. eexists. split; [reflexivity |].
    rewrite lastTime_snoc, length_app.
    cbn [chain due length]. unfold MAX_RETRY_ATTEMPTS in *.
    repeat split; try reflexivity; try assumption; lia.
Qed.

Lemma lone_step g t0 n0 c0 s s' :
  lone_inv g t0 n0 c0 s -> window_step s s' -> lone_inv g t0 n0 c0 s'.
Proof.
  intros Hinv Hstep. destruct Hstep as [s1 s2 c Hrun | s1 d Hd | s1 t Ht].
  - rewrite (runTimer_absent _ (lone_absent _ _ _ _ _ Hinv)) in Hrun.
    destruct (nextTimer (timers s1)) as [[t rest]|] eqn:E; [| discriminate].
    injection Hrun as <- _. now apply lone_timer.
  - destruct Hinv. split; assumption.
  - destruct Hinv. split; assumption.
Qed.

Lemma lone_run g t0 n0 c0 s s' :
  lone_inv g t0 n0 c0 s -> window_run s s' -> lone_inv g t0 n0 c0 s'.
Proof.
  intros Hinv Hrun. induction Hrun as [s | s s' s'' _ IH Hstep].
  - exact Hinv.
  - exact (lone_step _ _ _ _ _ _ (IH Hinv) Hstep).
Qed.

(** C7, as amended.  A navigation trigger on a pull-request page at which
    no retry is pending, whose mount point is away and stays away, with
    no further trigger: the trigger itself raises nothing and leaves the
    page alone.  From then on, however late the event loop runs a timer,
    at most three delayed re-checks are made, each at least 500 ms after
    the one before and the first at least 500 ms after the trigger; when
    every timer runs at the time it is due they are made exactly 500,
    1000 and 1500 ms after the trigger.  No run of a timer raises or
    touches the page.  While a timer is pending no warning has been
    logged; when none is pending, three re-checks have been made, the
    warning has been logged once and nothing runs any more; and the
    pending timers run out within three runs.  The next trigger starts
    from a retry counter of zero whatever the counter was. *)
Theorem lone_trigger_retries (s : State) :
  timers s = [] ->
  isPullRequestPage (pathname s) = true ->
  filterContainer (document s) = None ->
  snd (handleLocationChange s) = Normal () /\
  document (fst (handleLocationChange s)) = document s /\
  (forall s',
      window_run (fst (handleLocationChange s)) s' ->
      (length (recheckTimes (length (rechecks s)) s') <=
       MAX_RETRY_ATTEMPTS)%nat /\
      spaced (now s) (recheckTimes (length (rechecks s)) s') /\
      (quiet_run (fst (handleLocationChange s)) s' ->
       recheckTimes (length (rechecks s)) s' =
       List.map (recheckTime (now s))
         (seq 1 (length (recheckTimes (length (rechecks s)) s')))) /\
      (forall s'' c,
          runTimer s' = Some (s'', c) ->
          c = Normal () /\ document s'' = document s') /\
      (timers s' <> [] ->
       console s' = console (fst (handleLocationChange s))) /\
      (timers s' = [] ->
       length (recheckTimes (length (rechecks s)) s') =
         MAX_RETRY_ATTEMPTS /\
       console s' =
         console (fst (handleLocationChange s)) ++ [Warn RETRY_WARNING] /\
       runTimer s' = None) /\
      window_run s' (runTimers MAX_RETRY_ATTEMPTS s') /\
      timers (runTimers MAX_RETRY_ATTEMPTS s') = []) /\
  (forall s' n,
      handleLocationChange (set_retryAttempts n s') = handleLocationChange s').
Proof.
  intros Hnone Hpage Habsent.
  pose proof (lone_establish s Hnone Hpage Habsent) as Hinv0.
  pose proof (inv_establish s (consistent_initial s Hnone) Hpage Habsent)
    as Hwin0. cbn zeta in Hwin0.
  destruct (handleLocationChange_absent s Hpage Habsent)
    as (s0 & extra0 & Heq & _ & _ & _ & _ & _ & Hdoc & _).
  rewrite Heq in *. cbn [fst snd] in *.
  split; [reflexivity |]. split; [exact Hdoc |].
  split; [| exact handleLocationChange_resets].
  intros s' Hrun.
  pose proof (lone_run _ _ _ _ _ _ Hinv0 Hrun)
    as [Habs' Htrace' Hchain' Hspaced' Hstate'].
  assert (Hcount : (length (recheckTimes (length (rechecks s)) s') <=
                    MAX_RETRY_ATTEMPTS)%nat).
  { destruct Hstate' as [(t & _ & _ & _ & _ & Hk & _) | (_ & Hk & _)]; lia. }
  split; [exact Hcount |]. split; [exact Hspaced' |].
  split; [| split; [| split; [| split]]].
  - intros Hquiet.
    destruct (inv_run _ _ _ _ _ _ Hwin0 Hquiet)
      as [_ _ _ _ _ _ (k & Hsince & _)].
    rewrite (rechecksSince_all _ _ _ Hchain') in Hsince.
    assert (Hk : length (recheckTimes (length (rechecks s)) s') = k)
      by (rewrite Hsince, List.length_map, List.length_seq; reflexivity).
    rewrite Hk. exact Hsince.
  - intros s'' c Hstep. rewrite (runTimer_absent _ Habs') in Hstep.
    destruct (nextTimer (timers s')) as [[t rest]|]; [| discriminate].
    injection Hstep as <- <-. split; [reflexivity | apply fireTimer_document].
  - intros Hpending.
    destruct Hstate' as [(t & _ & _ & _ & _ & _ & Hcon) | (Hts & _)];
      [exact Hcon | contradiction].
  - intros Hnil.
    destruct Hstate' as [(t & Hts & _) | (_ & Hk & _ & Hcon)];
      [rewrite Hts in Hnil; discriminate |].
    split; [exact Hk |]. split; [exact Hcon |].
    unfold runTimer. now rewrite Hnil.
  - destruct (runTimers_exhaust MAX_RETRY_ATTEMPTS s') as [Hq Hnil].
    + exact Habs'.
    + destruct Hstate' as [(t & _ & _ & _ & Hatt & Hk & _) |
                           (_ & _ & Hatt & _)]; lia.
    + destruct Hstate' as [(t & Hts & _ & _ & Hatt & Hk & _) |
                           (Hts & _ & Hatt & _)];
        rewrite Hts, Hatt; cbn [length]; unfold MAX_RETRY_ATTEMPTS; lia.
    + split; [exact (quiet_window_run _ _ Hq) | exact Hnil].
Qed.

(** * Further properties of the script *)

(** ** The repository path *)

Lemma split_plain sep a :
  Forall (fun c => c <> sep) a -> split sep a = [a].
Proof.
  induction 1 as [|c a Hc _ IH]; [reflexivity |].
  cbn [split]. rewrite IH. apply N.eqb_neq in Hc. now rewrite Hc.
Qed.

Lemma split_app_sep sep a b :
  Forall (fun c => c <> sep) a ->
  split sep (a ++ sep :: b) = a :: split sep b.
Proof.
  induction 1 as [|c a Hc _ IH]; cbn [app split].
  - now rewrite N.eqb_refl.
  - rewrite IH. apply N.eqb_neq in Hc. now rewrite Hc.
Qed.

(** X1.  [getRepoPath] gives the first two segments of the location
    path, joined by a slash: the owner and the repository of a path
    [/owner/repo/...], whatever follows; of a path with one segment it
    gives that segment alone. *)
Theorem getRepoPath_segments (owner repo rest : jsstring) :
  Forall (fun c => c <> 47) owner ->
  Forall (fun c => c <> 47) repo ->
  getRepoPath (lit "/" ++ owner ++ lit "/" ++ repo ++ lit "/" ++ rest) =
    owner ++ lit "/" ++ repo /\
  getRepoPath (lit "/" ++ owner ++ lit "/" ++ repo) =
    owner ++ lit "/" ++ repo /\
  getRepoPath (lit "/" ++ owner) = owner.
Proof.
  intros Ho Hr. unfold getRepoPath.
  change (lit "/") with [47]. cbn [app split N.eqb Pos.eqb].
  rewrite (split_app_sep 47 owner _ Ho), (split_app_sep 47 owner _ Ho).
  rewrite (split_app_sep 47 repo _ Hr).
  rewrite (split_plain 47 repo Hr), (split_plain 47 owner Ho).
  repeat split; reflexivity.
Qed.

(** ** Saving and adding *)

Lemma setItem_Normal st key value st' :
  setItem st key value = Normal st' ->
  items st' = <[key := value]> (items st).
Proof.
  unfold setItem. destruct (accessible st); [| discriminate].
  destruct (_ <=? _); [| discriminate]. now intros [= <-].
Qed.

Lemma setItem_Throw st key value e :
  setItem st key value = Throw e ->
  e = SecurityError \/ e = QuotaExceededError.
Proof.
  unfold setItem. destruct (accessible st); [| intros [= <-]; now left].
  destruct (_ <=? _); [discriminate | intros [= <-]; now right].
Qed.

(** X2.  [saveFilters] never raises and writes nothing but the one key
    of the storage, or else one line of the console: either the key then
    holds the JSON text of the filters in memory and nothing is logged,
    or the storage refused the write, it is as it was, and the error
    (access denied or quota exceeded) is logged.  The filters in memory,
    the page and the timers stay as they are. *)
Theorem saveFilters_effect (s : State) :
  filters (saveFilters s) = filters s /\
  document (saveFilters s) = document s /\
  timers (saveFilters s) = timers s /\
  retryAttempts (saveFilters s) = retryAttempts s /\
  (forall key, key <> getStorageKey ->
     items (localStorage (saveFilters s)) !! key =
     items (localStorage s) !! key) /\
  (items (localStorage (saveFilters s)) !! getStorageKey =
     Some (JSON_stringify (filters s)) /\
   console (saveFilters s) = console s \/
   exists e,
     (e = SecurityError \/ e = QuotaExceededError) /\
     localStorage (saveFilters s) = localStorage s /\
     console (saveFilters s) =
       console s ++ [Error (lit "Error saving filters:") e]).
Proof.
  unfold saveFilters.
  destruct (setItem _ _ _) as [st|e] eqn:E;
    cbn [mbind completion_bind try_catch]; fields.
  - apply setItem_Normal in E. rewrite E.
    repeat split; try reflexivity.
    + intros key Hkey. now apply lookup_insert_ne.
    + left. split; [apply lookup_insert_eq | reflexivity].
  - repeat split; try reflexivity. right. exists e.
    split; [exact (setItem_Throw _ _ _ _ E) |]. split; reflexivity.
Qed.

(** What [initializeDropdown] leaves alone. *)
Lemma initializeDropdown_fields s :
  filters (fst (initializeDropdown s)) = filters s /\
  retryAttempts (fst (initializeDropdown s)) = retryAttempts s /\
  pathname (fst (initializeDropdown s)) = pathname s /\
  localStorage (fst (initializeDropdown s)) = localStorage s /\
  console (fst (initializeDropdown s)) = console s /\
  prompts (fst (initializeDropdown s)) = prompts s /\
  rechecks (fst (initializeDropdown s)) = rechecks s /\
  searchInput (document (fst (initializeDropdown s))) =
    searchInput (document s).
Proof.
  unfold initializeDropdown.
  destruct (filtersDropdown (document s)); [| auto 10].
  destruct (removeCustomItems _) as [cleared [[]|e]]; [| auto 10].
  fields.
  destruct (filterContainer (document s)); [| auto 10].
  destruct (addExistingFilters _ _ _) as [items [[]|e]]; [| auto 10].
  destruct createAddToFavButton; auto 10.
Qed.

(** Reading back what [setItem] stored for a sequence of filters. *)
Lemma loadFilters_stored s st0 fs :
  setItem st0 getStorageKey (JSON_stringify (filterArray fs)) =
    Normal (localStorage s) ->
  loadFilters s = (s, filterArray fs).
Proof.
  intros Hset. unfold loadFilters, loadFilters_body.
  destruct (stringify_filterArray_nonempty fs) as [text Htext].
  rewrite Htext in Hset. unfold setItem in Hset.
  destruct (accessible st0); [| discriminate].
  destruct (_ <=? _); [| discriminate].
  injection Hset as <-. unfold getItem. cbn [accessible items].
  rewrite lookup_insert_eq. cbn [mbind completion_bind].
  rewrite <- Htext, JSON_roundtrip. reflexivity.
Qed.

(** X3.  Adding a filter with a query and a label, neither empty, when
    the storage takes the write: the new filter is appended at the end of
    the filters in memory, the storage holds the longer sequence, and
    [loadFilters] reads that sequence back, whether or not the render
    that follows succeeds; the user was prompted once. *)
Theorem addNewFilter_persists (s : State) (fs : list Filter)
  (q lbl : jsstring) (st : Storage) :
  filters s = filterArray fs ->
  q <> [] -> lbl <> [] ->
  setItem (localStorage s) getStorageKey
    (JSON_stringify (filterArray (fs ++ [{| label := lbl; query := q |}]))) =
    Normal st ->
  filters (addNewFilter q (Some lbl) s) =
    filterArray (fs ++ [{| label := lbl; query := q |}]) /\
  localStorage (addNewFilter q (Some lbl) s) = st /\
  loadFilters (addNewFilter q (Some lbl) s) =
    (addNewFilter q (Some lbl) s,
     filterArray (fs ++ [{| label := lbl; query := q |}])) /\
  prompts (addNewFilter q (Some lbl) s) =
    prompts s ++ [lit "Enter filter label:"].
Proof.
  intros Hfs Hq Hl Hset.
  set (f := {| label := lbl; query := q |}) in *.
  assert (Hadd : exists s3,
    addNewFilter q (Some lbl) s = s3 /\
    filters s3 = filterArray (fs ++ [f]) /\ localStorage s3 = st /\
    prompts s3 = prompts s ++ [lit "Enter filter label:"]).
  { unfold addNewFilter. destruct q as [|c q']; [congruence |].
    destruct lbl as [|d lbl']; [congruence |].
    cbn [promptAsync]. unfold pushFilter. fields. rewrite Hfs.
    unfold filterArray at 1.
    set (s2 := set_filters _ _).
    assert (Hf2 : filters s2 = filterArray (fs ++ [f])).
    { subst s2. fields. unfold filterArray. now rewrite List.map_app. }
    assert (Hsave : saveFilters s2 = set_localStorage st s2).
    { unfold saveFilters. rewrite Hf2.
      replace (localStorage s2) with (localStorage s) by reflexivity.
      rewrite Hset. reflexivity. }
    rewrite Hsave.
    pose proof (initializeDropdown_fields (set_localStorage st s2))
      as (H1 & _ & _ & H4 & _ & H6 & _).
    destruct (initializeDropdown _) as [s3 [[]|e]]; cbn [fst] in *;
      eexists; (split; [reflexivity |]); fields;
      rewrite H1, H4, H6; fields; auto. }
  destruct Hadd as (s3 & -> & H1 & H2 & H3).
  repeat split; try assumption.
  apply (loadFilters_stored s3 (localStorage s)). now rewrite H2.
Qed.

(** A navigation trigger on a pull-request page takes what [loadFilters]
    returns as the filters and leaves the storage alone. *)
Lemma handleLocationChange_loads s :
  isPullRequestPage (pathname s) = true ->
  filters (fst (handleLocationChange s)) = snd (loadFilters s) /\
  localStorage (fst (handleLocationChange s)) = localStorage s.
Proof.
  intros Hpage. unfold handleLocationChange. fields. rewrite Hpage.
  cbn [negb]. unfold loadFilters.
  change (loadFilters_body (set_triggers (S (triggers s))
                              (set_retryAttempts 0 s)))
    with (loadFilters_body s).
  destruct (loadFilters_body s) as [v|e];
    cbn [mbind completion_bind try_catch fst snd].
  - destruct (mountPointPresent _).
    + match goal with |- context [initializeDropdown ?x] =>
        pose proof (initializeDropdown_fields x) as (H1 & _ & _ & H4 & _)
      end.
      rewrite H1, H4. split; reflexivity.
    + cbn [fst]. unfold retryInitialization.
      destruct (_ <=? _)%nat; split; reflexivity.
  - destruct (mountPointPresent _).
    + match goal with |- context [initializeDropdown ?x] =>
        pose proof (initializeDropdown_fields x) as (H1 & _ & _ & H4 & _)
      end.
      rewrite H1, H4. split; reflexivity.
    + cbn [fst]. unfold retryInitialization.
      destruct (_ <=? _)%nat; split; reflexivity.
Qed.

(** X4.  The stored value is not validated.  When the key holds a JSON
    text of a value that is not an array (an object, a string, a number,
    [null]), a navigation trigger on a pull-request page makes that value
    the filters in memory; from then on every attempt to add a filter
    fails at [push]: the [TypeError] is logged, and the filters and the
    storage stay as they are. *)
Theorem stored_value_not_validated (s : State) (text : jsstring) (v : json) :
  isPullRequestPage (pathname s) = true ->
  getItem (localStorage s) getStorageKey = Normal (Some text) ->
  text <> [] ->
  JSON_parse text = Normal v ->
  (forall l, v <> JArr l) ->
  filters (fst (handleLocationChange s)) = v /\
  forall q lbl, q <> [] -> lbl <> [] ->
    addNewFilter q (Some lbl) (fst (handleLocationChange s)) =
    log (Error (lit "Error adding filter:") TypeError)
      (add_prompt (lit "Enter filter label:") (fst (handleLocationChange s))).
Proof.
  intros Hpage Hget Htext Hparse Hv.
  assert (Hf : filters (fst (handleLocationChange s)) = v).
  { rewrite (proj1 (handleLocationChange_loads s Hpage)).
    unfold loadFilters, loadFilters_body. rewrite Hget.
    cbn [mbind completion_bind].
    destruct text as [|c text]; [congruence |]. now rewrite Hparse. }
  split; [exact Hf |]. intros q lbl Hq Hl.
  unfold addNewFilter. destruct q as [|c q]; [congruence |].
  destruct lbl as [|d lbl]; [congruence |].
  cbn [promptAsync]. unfold pushFilter. fields. rewrite Hf.
  destruct v as [| b | n | str | l | m]; try reflexivity.
  now destruct (Hv l).
Qed.

(** ** Clearing the old items *)

Lemma removeCustomItems_flat kids :
  flatItems kids = true ->
  removeCustomItems kids = (List.filter isHostItem kids, Normal ()).
Proof.
  induction kids as [|k kids IH]; [reflexivity |].
  unfold flatItems. cbn [forallb removeCustomItems List.filter].
  intros [Hk Hrest]%andb_true_iff.
  apply negb_true_iff in Hk. rewrite Hk. unfold isHostItem.
  destruct (hasClass k CUSTOM_ITEM); cbn [negb].
  - now apply IH.
  - rewrite (IH Hrest). reflexivity.
Qed.

Lemma removeCustomItems_nested kids :
  flatItems kids = false ->
  snd (removeCustomItems kids) = Throw NotFoundError.
Proof.
  induction kids as [|k kids IH]; [discriminate |].
  unfold flatItems. cbn [forallb removeCustomItems].
  destruct (hasCustomDescendant k); cbn [negb andb].
  - intros _. now destruct (hasClass k CUSTOM_ITEM).
  - intros Hrest. specialize (IH Hrest).
    destruct (hasClass k CUSTOM_ITEM); [exact IH |].
    now destruct (removeCustomItems kids).
Qed.

Lemma removeCustomItems_host kids :
  List.filter isHostItem (fst (removeCustomItems kids)) =
  List.filter isHostItem kids.
Proof.
  induction kids as [|k kids IH]; [reflexivity |].
  cbn [removeCustomItems List.filter]. unfold isHostItem at 2.
  destruct (hasClass k CUSTOM_ITEM) eqn:Ec; cbn [negb].
  - now destruct (hasCustomDescendant k).
  - destruct (hasCustomDescendant k).
    + cbn [fst List.filter]. unfold isHostItem at 1. now rewrite Ec.
    + destruct (removeCustomItems kids) as [r c]. cbn [fst] in *.
      cbn [List.filter]. unfold isHostItem at 1. rewrite Ec. cbn [negb].
      now rewrite IH.
Qed.

Lemma removeCustomItems_throws kids e :
  snd (removeCustomItems kids) = Throw e -> e = NotFoundError.
Proof.
  destruct (flatItems kids) eqn:E.
  - rewrite (removeCustomItems_flat _ E). discriminate.
  - rewrite (removeCustomItems_nested _ E). now intros [= <-].
Qed.

Lemma filter_host_idem kids :
  List.filter isHostItem (List.filter isHostItem kids) =
  List.filter isHostItem kids.
Proof.
  induction kids as [|k kids IH]; [reflexivity |]. cbn [List.filter].
  destruct (isHostItem k) eqn:E; [| exact IH].
  cbn [List.filter]. now rewrite E, IH.
Qed.

Lemma filter_host_injected kids :
  injectedItems (List.filter isHostItem kids) = [].
Proof.
  unfold injectedItems.
  induction kids as [|k kids IH]; [reflexivity |]. cbn [List.filter].
  unfold isHostItem at 1.
  destruct (hasClass k CUSTOM_ITEM) eqn:E; cbn [negb]; [exact IH |].
  cbn [List.filter]. now rewrite E.
Qed.

Lemma filter_host_flat kids :
  flatItems kids = true -> flatItems (List.filter isHostItem kids) = true.
Proof.
  unfold flatItems.
  induction kids as [|k kids IH]; [reflexivity |]. cbn [forallb List.filter].
  intros [Hk Hrest]%andb_true_iff.
  destruct (isHostItem k); [| now apply IH].
  cbn [forallb]. now rewrite Hk, IH.
Qed.

(** X5.  [clearOldItems] does nothing without a dropdown.  With one, it
    removes the children of class [custom-item] and keeps the others in
    their order, provided no child holds an element of that class further
    down; if one does, [removeChild] raises a [NotFoundError] part-way.
    Either way the children that are not of that class all stay, in
    their order. *)
Theorem clearOldItems_spec (kids : list node) :
  clearOldItems None = (None, Normal ()) /\
  clearOldItems (Some kids) =
    (if flatItems kids
     then (Some (List.filter isHostItem kids), Normal ())
     else (Some (fst (removeCustomItems kids)), Throw NotFoundError)) /\
  List.filter isHostItem (fst (removeCustomItems kids)) =
    List.filter isHostItem kids.
Proof.
  split; [reflexivity |]. split; [| apply removeCustomItems_host].
  unfold clearOldItems. destruct (flatItems kids) eqn:E.
  - now rewrite (removeCustomItems_flat _ E).
  - pose proof (removeCustomItems_nested _ E) as H.
    destruct (removeCustomItems kids) as [r c]. cbn [fst snd] in *.
    now rewrite H.
Qed.

(** X6.  After [clearOldItems] has returned, the dropdown has no child of
    class [custom-item], and clearing it again changes nothing. *)
Theorem clearOldItems_idempotent (kids r : list node) :
  clearOldItems (Some kids) = (Some r, Normal ()) ->
  injectedItems r = [] /\
  clearOldItems (Some r) = (Some r, Normal ()).
Proof.
  unfold clearOldItems. destruct (flatItems kids) eqn:E.
  - rewrite (removeCustomItems_flat _ E). intros [= <-].
    split; [apply filter_host_injected |].
    rewrite (removeCustomItems_flat _ (filter_host_flat _ E)).
    now rewrite filter_host_idem.
  - pose proof (removeCustomItems_nested _ E) as H.
    destruct (removeCustomItems kids) as [r' c]. cbn [snd] in H.
    rewrite H. discriminate.
Qed.

(** ** What a render touches *)

Lemma prependItems_suffix path fs : forall kids,
  exists added, fst (prependItems path fs kids) = added ++ kids.
Proof.
  induction fs as [|f fs IH]; intros kids; [now exists [] |].
  cbn [prependItems].
  destruct (_ ← getProperty f (lit "label"); _) as [item|e];
    [| now exists []].
  destruct (IH (nodeOrText item :: kids)) as [added ->].
  exists (added ++ [nodeOrText item]). now rewrite <- app_assoc.
Qed.

Lemma addExistingFilters_suffix path fs kids :
  exists added, fst (addExistingFilters path fs kids) = added ++ kids.
Proof.
  unfold addExistingFilters.
  destruct fs as [| b | n | str | l | m];
    try (now exists []); [destruct str; now exists [] | | ].
  - apply prependItems_suffix.
  - destruct (greaterThanZero _) as [[]|e]; now exists [].
Qed.

Lemma filter_sublist (p : node -> bool) kids :
  sublist (List.filter p kids) kids.
Proof.
  induction kids as [|k kids IH]; [constructor |]. cbn [List.filter].
  destruct (p k); now constructor.
Qed.

(** X7.  [initializeDropdown] writes the two mount points and nothing
    else: the filters in memory, the storage, the console, the timers,
    the retry counter and the search input stay as they are.  It makes
    no mount point and removes none; it takes no entry of the host page
    out of the dropdown (the children not of class [custom-item] stay, in
    their order) and nothing out of the search bar, to which it can only
    append. *)
Theorem initializeDropdown_writes_mounts (s : State) :
  filters (fst (initializeDropdown s)) = filters s /\
  localStorage (fst (initializeDropdown s)) = localStorage s /\
  console (fst (initializeDropdown s)) = console s /\
  timers (fst (initializeDropdown s)) = timers s /\
  retryAttempts (fst (initializeDropdown s)) = retryAttempts s /\
  pathname (fst (initializeDropdown s)) = pathname s /\
  searchInput (document (fst (initializeDropdown s))) =
    searchInput (document s) /\
  match filtersDropdown (document s),
        filtersDropdown (document (fst (initializeDropdown s))) with
  | Some kids, Some kids' => sublist (List.filter isHostItem kids) kids'
  | None, None => True
  | _, _ => False
  end /\
  match filterContainer (document s),
        filterContainer (document (fst (initializeDropdown s))) with
  | Some container, Some container' => container `prefix_of` container'
  | None, None => True
  | _, _ => False
  end.
Proof.
  pose proof (initializeDropdown_fields s) as (H1 & H2 & H3 & H4 & H5 & _ & _ & H8).
  pose proof (initializeDropdown_frame s) as (H9 & _).
  repeat (split; [assumption |]).
  unfold initializeDropdown.
  destruct (filtersDropdown (document s)) as [kids|] eqn:Ed.
  2: { cbn [fst]. rewrite Ed. split; [exact I |].
       destruct (filterContainer (document s)); [reflexivity | exact I]. }
  pose proof (removeCustomItems_host kids) as Hhost.
  destruct (removeCustomItems kids) as [cleared c]. cbn [fst] in Hhost.
  assert (Hsub : sublist (List.filter isHostItem kids) cleared).
  { rewrite <- Hhost. apply filter_sublist. }
  destruct c as [[]|e]; fields.
  2: { cbn [fst]. fields. split; [exact Hsub |].
       destruct (filterContainer (document s)); [reflexivity | exact I]. }
  destruct (filterContainer (document s)) as [container|] eqn:Ec.
  2: { cbn [fst]. fields. rewrite Ec. split; [exact Hsub | exact I]. }
  destruct (addExistingFilters_suffix (pathname s) (filters s) cleared)
    as [added Hadded].
  destruct (addExistingFilters _ _ _) as [items c']. cbn [fst] in Hadded.
  subst items.
  assert (Hsub' : sublist (List.filter isHostItem kids) (added ++ cleared))
    by now apply sublist_inserts_l.
  destruct c' as [[]|e].
  - rewrite createAddToFavButton_value. cbn [fst]. fields.
    split; [exact Hsub' |]. now apply prefix_app_r.
  - cbn [fst]. fields. rewrite Ec. split; [exact Hsub' | reflexivity].
Qed.

(** X8.  A render while the dropdown is on the page and the search bar
    is not: the injected items are removed and none is put back, no
    button is made, and nothing is raised. *)
Theorem initializeDropdown_without_search_bar (s : State)
  (kids : list node) :
  filtersDropdown (document s) = Some kids ->
  filterContainer (document s) = None ->
  flatItems kids = true ->
  initializeDropdown s =
    (set_filtersDropdown (List.filter isHostItem kids) s, Normal ()) /\
  shownItems (fst (initializeDropdown s)) = Some [].
Proof.
  intros Hd Hc Hflat.
  assert (H : initializeDropdown s =
              (set_filtersDropdown (List.filter isHostItem kids) s,
               Normal ())).
  { unfold initializeDropdown.
    rewrite Hd, (removeCustomItems_flat _ Hflat). fields. now rewrite Hc. }
  split; [exact H |]. rewrite H. unfold shownItems. cbn [fst]. fields.
  cbn [option_map]. now rewrite filter_host_injected.
Qed.

Lemma encodeURIComponent_throws_bounded n : forall q e,
  (length q <= n)%nat ->
  encodeURIComponent q = Throw e -> e = URIError.
Proof.
  induction n as [|n IH]; intros q e Hn.
  { destruct q; [discriminate | cbn [length] in Hn; lia]. }
  destruct q as [|c q]; [discriminate |].
  cbn [encodeURIComponent].
  destruct (isUnreserved c).
  - destruct (encodeURIComponent q) as [r|e'] eqn:Er; [discriminate |].
    cbn [mbind completion_bind]. intros [= <-].
    apply (IH q); [cbn [length] in Hn; lia | exact Er].
  - destruct (isLowSurrogate c); [now intros [= <-] |].
    destruct (isHighSurrogate c).
    + destruct q as [|d q]; [now intros [= <-] |].
      destruct (isLowSurrogate d); [| now intros [= <-]].
      destruct (encodeURIComponent q) as [r|e'] eqn:Er; [discriminate |].
      cbn [mbind completion_bind]. intros [= <-].
      apply (IH q); [cbn [length] in Hn; lia | exact Er].
    + destruct (encodeURIComponent q) as [r|e'] eqn:Er; [discriminate |].
      cbn [mbind completion_bind]. intros [= <-].
      apply (IH q); [cbn [length] in Hn; lia | exact Er].
Qed.

Lemma inOrder_throws {A} (l : list (completion A)) e :
  inOrder l = Throw e -> In (Throw e) l.
Proof.
  induction l as [|c l IH]; [discriminate |]. cbn [inOrder].
  destruct c as [x|e1]; cbn [mbind completion_bind].
  - destruct (inOrder l) as [xs|e2]; [discriminate |].
    cbn [mbind completion_bind]. intros [= <-]. right. now apply IH.
  - intros [= <-]. now left.
Qed.

Lemma arrayDepth_In x l :
  In x l ->
  (arrayDepth x <= fold_right (fun y d => Nat.max (arrayDepth y) d) 0 l)%nat.
Proof.
  induction l as [|y l IH]; [intros [] |]. cbn [fold_right].
  intros [-> | Hin]; [lia |]. specialize (IH Hin). lia.
Qed.

(** The conversion to a string throws nothing but a [TypeError]. *)
Lemma ToString_json_throws_bounded n : forall v e,
  (arrayDepth v <= n)%nat ->
  ToString_json v = Throw e -> e = TypeError.
Proof.
  induction n as [|n IH]; intros v e Hn;
    destruct v as [| b | x | str | l | m]; cbn [ToString_json];
    try discriminate;
    try (destruct b; discriminate);
    try (destruct (hasProperty m (lit "toString"));
         [now intros [= <-] | discriminate]).
  - cbn [arrayDepth] in Hn. lia.
  - destruct (inOrder _) as [parts|e1] eqn:E; [discriminate |].
    cbn [mbind completion_bind]. intros [= <-].
    apply inOrder_throws, in_map_iff in E as (x & Hx & Hin).
    cbn [arrayDepth] in Hn. pose proof (arrayDepth_In _ _ Hin) as Hd.
    destruct x; try discriminate; (eapply IH; [| exact Hx]); lia.
Qed.

Lemma ToString_throws v e : ToString v = Throw e -> e = TypeError.
Proof.
  destruct v as [x|]; [| discriminate]. cbn [ToString].
  apply (ToString_json_throws_bounded (arrayDepth x)). lia.
Qed.

Lemma greaterThanZero_throws v e :
  greaterThanZero v = Throw e -> e = TypeError.
Proof.
  destruct v as [x|]; [| discriminate].
  destruct x as [| b | x | str | l | m]; cbn [greaterThanZero];
    try discriminate.
  - destruct (ToString_json (JArr l)) as [t|e1] eqn:E; [discriminate |].
    cbn [mbind completion_bind]. intros [= <-].
    exact (ToString_throws (Some (JArr l)) _ E).
  - destruct (hasProperty m (lit "toString")); [| discriminate].
    now intros [= <-].
Qed.

Lemma prependItems_throws path fs : forall kids e,
  snd (prependItems path fs kids) = Throw e ->
  e = TypeError \/ e = URIError.
Proof.
  induction fs as [|f fs IH]; intros kids e; [discriminate |].
  cbn [prependItems].
  destruct (getProperty f (lit "label")) as [l|e1] eqn:El.
  2: { cbn [mbind completion_bind snd]. intros [= <-].
       destruct f; try discriminate. injection El as <-. now left. }
  destruct (getProperty f (lit "query")) as [q|e2] eqn:Eq.
  2: { cbn [mbind completion_bind snd]. intros [= <-].
       destruct f; discriminate. }
  cbn [mbind completion_bind]. unfold createFilterItem.
  destruct (ToString q) as [qs|e3] eqn:Eq';
    cbn [mbind completion_bind snd].
  2: { intros [= <-]. left. exact (ToString_throws _ _ Eq'). }
  destruct (encodeURIComponent qs) as [enc|e4] eqn:Ee;
    cbn [mbind completion_bind snd].
  2: { intros [= <-]. right.
       now apply (encodeURIComponent_throws_bounded _ _ _ (le_n _) Ee). }
  destruct (ToString l) as [ls|e5] eqn:El';
    cbn [mbind completion_bind snd].
  - apply IH.
  - intros [= <-]. left. exact (ToString_throws _ _ El').
Qed.

Lemma addExistingFilters_throws path fs kids e :
  snd (addExistingFilters path fs kids) = Throw e ->
  e = TypeError \/ e = URIError.
Proof.
  unfold addExistingFilters.
  destruct fs as [| b | n | str | l | m]; cbn [snd]; try discriminate.
  - intros [= <-]. now left.
  - destruct str; cbn [snd]; [discriminate | intros [= <-]; now left].
  - apply prependItems_throws.
  - destruct (greaterThanZero _) as [[]|e'] eqn:Eg; cbn [snd];
      [intros [= <-]; now left | discriminate |].
    intros [= <-]. left. exact (greaterThanZero_throws _ _ Eg).
Qed.

(** X9.  When a render raises, no button has been appended: the search
    bar is as it was.  What it raises is a [NotFoundError] from clearing,
    or a [TypeError] or [URIError] from building the items. *)
Theorem initializeDropdown_raises (s s' : State) (e : exn) :
  initializeDropdown s = (s', Throw e) ->
  filterContainer (document s') = filterContainer (document s) /\
  (e = NotFoundError \/ e = TypeError \/ e = URIError).
Proof.
  unfold initializeDropdown.
  destruct (filtersDropdown (document s)) as [kids|]; [| discriminate].
  pose proof (removeCustomItems_throws kids) as Hclear.
  destruct (removeCustomItems kids) as [cleared [[]|e1]]; cbn [snd] in Hclear.
  2: { intros [= <- <-]. split; [reflexivity |]. left. now apply Hclear. }
  fields.
  destruct (filterContainer (document s)) as [container|] eqn:Ec;
    [| discriminate].
  pose proof (addExistingFilters_throws (pathname s) (filters s) cleared)
    as Hadd.
  destruct (addExistingFilters _ _ _) as [items [[]|e2]]; cbn [snd] in Hadd.
  - rewrite createAddToFavButton_value. discriminate.
  - intros [= <- <-]. fields. split; [now rewrite Ec |].
    right. now apply Hadd.
Qed.

(** ** Navigation triggers *)

(** X10.  A stored value that is [null] or a non-empty JSON string makes
    the navigation trigger itself fail: on a pull-request page with both
    mount points the render raises a [TypeError] that nothing catches,
    after the old items were cleared; no item and no button are added,
    no retry is set and nothing is logged. *)
Theorem handleLocationChange_raises (s : State) (text : jsstring) (v : json)
  (kids container : list node) :
  isPullRequestPage (pathname s) = true ->
  getItem (localStorage s) getStorageKey = Normal (Some text) ->
  text <> [] ->
  JSON_parse text = Normal v ->
  v = JNull \/ (exists c r, v = JStr (c :: r)) ->
  filtersDropdown (document s) = Some kids ->
  flatItems kids = true ->
  filterContainer (document s) = Some container ->
  exists s',
    handleLocationChange s = (s', Throw TypeError) /\
    filtersDropdown (document s') = Some (List.filter isHostItem kids) /\
    filterContainer (document s') = Some container /\
    timers s' = timers s /\
    console s' = console s.
Proof.
  intros Hpage Hget Htext Hparse Hv Hd Hflat Hc.
  unfold handleLocationChange. fields. rewrite Hpage. cbn [negb].
  unfold loadFilters, loadFilters_body. fields. rewrite Hget.
  destruct text as [|c0 text]; [congruence |].
  cbn [mbind completion_bind]. rewrite Hparse.
  cbn [mbind completion_bind try_catch].
  unfold mountPointPresent. fields. rewrite Hc.
  unfold initializeDropdown. fields. rewrite Hd.
  rewrite (removeCustomItems_flat _ Hflat). fields. rewrite Hc.
  destruct Hv as [-> | (c & r & ->)]; cbn [addExistingFilters];
    eexists; (split; [reflexivity |]); fields; auto.
Qed.

(** X11.  The retry waits for the search bar only.  On a pull-request
    page where the search bar is there and the filter menu is not, a
    navigation trigger gives up at once: it raises nothing, changes
    nothing on the page, sets no timer and logs no warning (the console
    gets at most the error of a failed load). *)
Theorem handleLocationChange_without_menu (s : State)
  (container : list node) :
  isPullRequestPage (pathname s) = true ->
  filterContainer (document s) = Some container ->
  filtersDropdown (document s) = None ->
  exists s',
    handleLocationChange s = (s', Normal ()) /\
    document s' = document s /\
    timers s' = timers s /\
    retryAttempts s' = 0%nat /\
    (console s' = console s \/
     exists e,
       console s' = console s ++ [Error (lit "Error loading filters:") e]).
Proof.
  intros Hpage Hc Hd.
  unfold handleLocationChange. fields. rewrite Hpage. cbn [negb].
  unfold loadFilters.
  destruct (loadFilters_body _) as [v|e];
    cbn [mbind completion_bind try_catch];
    unfold mountPointPresent; fields; rewrite Hc;
    unfold initializeDropdown; fields; rewrite Hd;
    eexists; (split; [reflexivity |]); fields;
    repeat (split; [reflexivity |]).
  - now left.
  - right. now exists e.
Qed.

Lemma retryInitialization_timers g s :
  exists new,
    timers (retryInitialization g s) = timers s ++ new /\
    (length new <= 1)%nat.
Proof.
  unfold retryInitialization. destruct (_ <=? _)%nat; fields.
  - exists []. split; [now rewrite app_nil_r | cbn [length]; lia].
  - eexists. split; [reflexivity | cbn [length]; lia].
Qed.

(** X12.  A navigation trigger cancels no pending retry: the timers set
    before it all stay, in their order, and at most one is added.  On a
    page that is not a pull-request list it adds none, raises nothing
    and leaves the filters, the storage, the page and the console as
    they are, so a retry of the page before still runs there. *)
Theorem handleLocationChange_keeps_timers (s : State) :
  (exists new,
     timers (fst (handleLocationChange s)) = timers s ++ new /\
     (length new <= 1)%nat) /\
  (isPullRequestPage (pathname s) = false ->
   snd (handleLocationChange s) = Normal () /\
   timers (fst (handleLocationChange s)) = timers s /\
   retryAttempts (fst (handleLocationChange s)) = 0%nat /\
   filters (fst (handleLocationChange s)) = filters s /\
   localStorage (fst (handleLocationChange s)) = localStorage s /\
   document (fst (handleLocationChange s)) = document s /\
   console (fst (handleLocationChange s)) = console s).
Proof.
  split.
  - unfold handleLocationChange. fields.
    destruct (isPullRequestPage (pathname s)); cbn [negb fst].
    2: { exists []. split; [now rewrite app_nil_r | cbn [length]; lia]. }
    set (s1 := set_triggers _ _).
    pose proof (loadFilters_frame s1) as (Ht & _).
    destruct (loadFilters s1) as [s2 v]. cbn [fst] in Ht.
    destruct (mountPointPresent _).
    + pose proof (initializeDropdown_frame (set_filters v s2)) as (Hi & _).
      rewrite Hi. fields. rewrite Ht. exists [].
      split; [now rewrite app_nil_r | cbn [length]; lia].
    + cbn [fst].
      destruct (retryInitialization_timers (S (triggers s))
                  (set_filters v s2)) as (new & -> & Hlen).
      fields. rewrite Ht. now exists new.
  - intros Hpage. unfold handleLocationChange. fields. rewrite Hpage.
    cbn [negb fst snd]. repeat split; reflexivity.
Qed.

(** ** The retry counter and the timers *)






Lemma nextTimer_Some ts :
  ts <> [] -> exists t rest, nextTimer ts = Some (t, rest).
Proof.
  intros H. destruct (nextTimer ts) as [[t rest]|] eqn:E; [eauto |].
  now apply nextTimer_None in E.
Qed.

Lemma fireTimer_cases t rest s :
  length (rechecks (fireTimer t rest s)) = S (length (rechecks s)) /\
  ((MAX_RETRY_ATTEMPTS <= retryAttempts s)%nat /\
   timers (fireTimer t rest s) = rest /\
   retryAttempts (fireTimer t rest s) = retryAttempts s /\
   console (fireTimer t rest s) = console s ++ [Warn RETRY_WARNING] \/
   (retryAttempts s < MAX_RETRY_ATTEMPTS)%nat /\
   (exists new, timers (fireTimer t rest s) = rest ++ [new]) /\
   retryAttempts (fireTimer t rest s) = S (retryAttempts s) /\
   console (fireTimer t rest s) = console s).
Proof.
  unfold fireTimer, retryInitialization. fields.
  destruct (Nat.leb_spec MAX_RETRY_ATTEMPTS (retryAttempts s)); fields;
    (split; [rewrite length_app; cbn [length]; lia |]).
  - left. auto.
  - right. split; [assumption |]. split; [eexists; reflexivity | auto].
Qed.

Lemma runTimers_count n : forall s,
  filterContainer (document s) = None ->
  (retryAttempts s <= MAX_RETRY_ATTEMPTS)%nat ->
  timers s <> [] ->
  (length (timers s) + (MAX_RETRY_ATTEMPTS - retryAttempts s))%nat = n ->
  timers (runTimers n s) = [] /\
  length (rechecks (runTimers n s)) = (length (rechecks s) + n)%nat /\
  console (runTimers n s) =
    console s ++ repeat (Warn RETRY_WARNING) (length (timers s)) /\
  forall m, (m < n)%nat -> timers (runTimers m s) <> [].
Proof.
  induction n as [|n IH]; intros s Habsent Hatt Hne Hn.
  { destruct (timers s); [congruence | cbn [length] in Hn; lia]. }
  destruct (nextTimer_Some _ Hne) as (t & rest & E).
  pose proof (nextTimer_length _ _ _ E) as Hlen.
  pose proof (runTimer_absent s Habsent) as Hrun. rewrite E in Hrun.
  assert (Hfirst : forall m,
            runTimers (S m) s = runTimers m (fireTimer t rest s))
    by (intros m; cbn [runTimers]; now rewrite Hrun).
  assert (Hsmall : forall m,
            (forall m', (m' < n)%nat ->
                        timers (runTimers m' (fireTimer t rest s)) <> []) ->
            (m < S n)%nat -> timers (runTimers m s) <> []).
  { intros m Hm Hlt. destruct m as [|m]; [exact Hne |].
    rewrite Hfirst. apply Hm. lia. }
  rewrite Hfirst.
  assert (Hdoc : filterContainer (document (fireTimer t rest s)) = None)
    by now rewrite fireTimer_document.
  destruct (fireTimer_cases t rest s)
    as (Hr & [(Hmax & Ht & Ha & Hc) | (Hmax & (new & Ht) & Ha & Hc)]).
  - (* the counter is used up: a warning, and one timer less *)
    destruct rest as [|u rest].
    + assert (n = 0%nat) by (cbn [length] in Hlen; lia). subst n.
      cbn [runTimers]. rewrite Ht, Hr, Hc, Hlen. cbn [length repeat].
      repeat split; try reflexivity; try lia.
      intros m Hm. apply Hsmall; [intros m' Hm'; lia | exact Hm].
    + destruct (IH (fireTimer t (u :: rest) s)) as (H1 & H2 & H3 & H4);
        try assumption.
      { rewrite Ha. exact Hatt. }
      { rewrite Ht. discriminate. }
      { rewrite Ht, Ha. lia. }
      rewrite H1, H2, H3, Hr, Hc, Ht, Hlen.
      cbn [repeat]. rewrite <- app_assoc.
      repeat split; try reflexivity; try lia.
      intros m Hm. apply Hsmall; [exact H4 | exact Hm].
  - (* an attempt is used up, and the timer is set again *)
    destruct (IH (fireTimer t rest s)) as (H1 & H2 & H3 & H4);
      try assumption.
    { rewrite Ha. lia. }
    { rewrite Ht. now destruct rest. }
    { rewrite Ht, Ha, length_app. cbn [length]. lia. }
    rewrite H1, H2, H3, Hr, Hc, Ht, Hlen, length_app.
    cbn [length]. replace (length rest + 1)%nat with (S (length rest)) by lia.
    repeat split; try reflexivity; try lia.
    intros m Hm. apply Hsmall; [exact H4 | exact Hm].
Qed.

(** X14.  Retries of several triggers share the one counter.  While the
    search bar stays away and no trigger arrives, a state with pending
    timers runs exactly as many delayed re-checks as it has timers plus
    the attempts its counter has left, not three for each timer; then no
    timer is pending, and each timer that was pending has ended in one
    warning on the console. *)
Theorem pending_timers_share_counter (s : State) :
  filterContainer (document s) = None ->
  (retryAttempts s <= MAX_RETRY_ATTEMPTS)%nat ->
  timers s <> [] ->
  forall n,
  n = (length (timers s) + (MAX_RETRY_ATTEMPTS - retryAttempts s))%nat ->
  timers (runTimers n s) = [] /\
  length (rechecks (runTimers n s)) = (length (rechecks s) + n)%nat /\
  console (runTimers n s) =
    console s ++ repeat (Warn RETRY_WARNING) (length (timers s)) /\
  forall m, (m < n)%nat -> timers (runTimers m s) <> [].
Proof.
  intros Habsent Hatt Hne n ->. now apply runTimers_count.
Qed.

(** X15.  The delayed re-check looks for the search bar and at nothing
    else, not at the location.  When a timer runs and the search bar is
    there, the callback renders: it sets no further timer, leaves the
    retry counter and the console alone, and, when the dropdown is there
    too and the render raises nothing, the search bar has one more
    favourite button, on whatever page the window is by then. *)
Theorem runTimer_mount_present (s s' : State) (t : Timer)
  (rest : list Timer) (container : list node) (c : completion unit) :
  nextTimer (timers s) = Some (t, rest) ->
  filterContainer (document s) = Some container ->
  runTimer s = Some (s', c) ->
  timers s' = rest /\
  retryAttempts s' = retryAttempts s /\
  console s' = console s /\
  (forall kids,
     filtersDropdown (document s) = Some kids -> c = Normal () ->
     filterContainer (document s') = Some (container ++ [favButton])).
Proof.
  intros Hnext Hc. unfold runTimer. rewrite Hnext.
  unfold retryCallback, mountPointPresent. fields. rewrite Hc.
  set (s0 := add_recheck _ _). intros [= Hrun].
  pose proof (initializeDropdown_fields s0) as (_ & H2 & _ & _ & H5 & _).
  pose proof (initializeDropdown_frame s0) as (H9 & _).
  rewrite Hrun in H2, H5, H9. cbn [fst] in H2, H5, H9.
  repeat (split; [assumption |]).
  intros kids Hd ->.
  apply (initializeDropdown_appends s0 s' kids container); assumption.
Qed.

(** ** A label that is plain text *)

Lemma textPlain_spec c :
  textPlain c = true -> c <> 0 /\ c <> 13 /\ c <> 38 /\ c <> 60.
Proof.
  unfold textPlain. rewrite negb_true_iff, !orb_false_iff, !N.eqb_neq.
  tauto.
Qed.

Lemma hrun_text s : forall acc,
  Forall (fun c => textPlain c = true) s ->
  hrun (Data acc) s = ([], Data (acc ++ s)).
Proof.
  induction s as [|c s IH]; intros acc H.
  - now rewrite app_nil_r.
  - apply Forall_cons in H as [Hc H].
    apply textPlain_spec in Hc as (H0 & _ & _ & H60).
    cbn [hrun hstep].
    destruct (N.eqb_spec c 60); [contradiction |].
    destruct (N.eqb_spec c 0); [contradiction |].
    rewrite (IH _ H), <- app_assoc. reflexivity.
Qed.

Lemma decodeReferences_text s :
  Forall (fun c => textPlain c = true) s -> decodeReferences 0 s = s.
Proof.
  induction 1 as [|c s Hc _ IH]; [reflexivity |].
  cbn [decodeReferences]. apply textPlain_spec in Hc as (_ & _ & H38 & _).
  destruct (N.eqb_spec c 38); [contradiction |]. now rewrite IH.
Qed.

Lemma textPlain_not_CR s :
  Forall (fun c => textPlain c = true) s -> Forall (fun c => c <> 13) s.
Proof.
  intros H. eapply Forall_impl; [exact H |].
  simpl. intros c Hc. apply textPlain_spec in Hc. tauto.
Qed.

Lemma itemBody_split label :
  trimEnd (itemBody label) = itemBodyHead ++ label ++ itemBodyTail.
Proof.
  assert (H : itemBody label =
              (itemBodyHead ++ label) ++ itemBodyTail ++ nl ++ lit "    ").
  { unfold itemBody, itemBodyHead, itemBodyTail.
    rewrite <- !app_assoc. reflexivity. }
  rewrite H, trimEnd_app by (vm_compute; discriminate).
  rewrite <- app_assoc. reflexivity.
Qed.

Lemma tokenize_endTag text :
  tokenize (Data text) (lit "</a>") = flushText text ++ [HEndTag (lit "a")].
Proof. cbv -[flushText app]. now rewrite app_nil_r. Qed.

(** The markup of an item whose label is plain text parses to the
    anchor, the check mark and one run of text. *)
Lemma parseFragment_plainItem checked href label :
  Forall (fun c => attrPlain c = true) checked ->
  Forall (fun c => attrPlain c = true) href ->
  Forall (fun c => textPlain c = true) label ->
  parseFragment (itemOpenTag checked href ++
                 itemBodyHead ++ label ++ itemBodyTail) =
  [plainItem checked href label].
Proof.
  intros Hc Hh Hl. unfold parseFragment.
  rewrite normalizeNewlines_app by now apply itemOpenTag_not_CR.
  rewrite normalizeNewlines_app by (apply literal_not_CR; reflexivity).
  rewrite normalizeNewlines_app by now apply textPlain_not_CR.
  replace (normalizeNewlines itemBodyTail) with itemBodyTail
    by (vm_compute; reflexivity).
  rewrite tokenize_hrun, (hrun_itemOpenTag _ _ Hc Hh). cbn [fst snd].
  rewrite tokenize_hrun.
  set (r := hrun (Data []) itemBodyHead). vm_compute in r. subst r.
  cbn [fst snd].
  rewrite tokenize_hrun, hrun_text by exact Hl. cbn [fst snd app].
  change itemBodyTail with ((nl ++ lit "      ") ++ lit "</a>").
  rewrite tokenize_hrun, hrun_text
    by (apply Forall_forallb; reflexivity).
  cbn [fst snd app]. rewrite tokenize_endTag.
  match goal with |- context [flushText ?t] => set (text := t) end.
  assert (Htext : Forall (fun c => textPlain c = true) text).
  { subst text. repeat (constructor; [reflexivity |]).
    rewrite Forall_app.
    split; [assumption | apply Forall_forallb; reflexivity]. }
  assert (Hflush : flushText text = [HText text]).
  { unfold flushText. rewrite (decodeReferences_text _ Htext).
    subst text. reflexivity. }
  rewrite Hflush. subst text. unfold plainItem, checkIcon.
  generalize (itemAttributes checked href). intros attrs.
  vm_compute. reflexivity.
Qed.

(** What an item of the template shows. *)
Lemma trimEnd_space a b :
  forallb isWhiteSpace b = true -> trimEnd (a ++ b) = trimEnd a.
Proof.
  intros Hb. induction a as [|c a IH].
  - cbn [app]. induction b as [|d b IHb]; [reflexivity |].
    cbn [forallb] in Hb. apply andb_true_iff in Hb as [Hd Hb].
    cbn [trimEnd]. rewrite (IHb Hb). cbn [trimEnd]. now rewrite Hd.
  - cbn [app trimEnd]. now rewrite IH.
Qed.

Lemma trimStart_space a b :
  forallb isWhiteSpace a = true -> trimStart (a ++ b) = trimStart b.
Proof.
  induction a as [|c a IH]; [reflexivity |]. cbn [forallb app trimStart].
  intros [-> Ha]%andb_true_iff. exact (IH Ha).
Qed.

Lemma trimStart_all_space b :
  forallb isWhiteSpace b = true -> trimStart b = [].
Proof.
  intros H. rewrite <- (app_nil_r b). now rewrite trimStart_space.
Qed.

Lemma trim_space a s b :
  forallb isWhiteSpace a = true -> forallb isWhiteSpace b = true ->
  trim (a ++ s ++ b) = trim s.
Proof.
  intros Ha Hb. unfold trim. rewrite (trimStart_space _ _ Ha).
  induction s as [|c s IH]; cbn [app trimStart].
  - now rewrite (trimStart_all_space _ Hb).
  - destruct (isWhiteSpace c); [exact IH |].
    change (c :: s ++ b) with ((c :: s) ++ b). now apply trimEnd_space.
Qed.

Lemma itemText_plainItem checked href label :
  itemText (plainItem checked href label) = trim label.
Proof.
  unfold itemText, plainItem, checkIcon.
  cbn [textContent flat_map]. rewrite !app_nil_r.
  change (trim ((nl ++ lit "        ") ++
                ((nl ++ lit "          ") ++ [] ++ nl ++ lit "        ") ++
                nl ++ lit "        " ++ label ++ nl ++ lit "      ") =
          trim label).
  rewrite (app_assoc (nl ++ lit "        ")).
  change (nl ++ lit "        " ++ label ++ nl ++ lit "      ")
    with ((nl ++ lit "        ") ++ label ++ nl ++ lit "      ").
  rewrite (app_assoc _ (nl ++ lit "        ") (label ++ _)).
  now apply trim_space.
Qed.

Lemma plainItem_created path label q enc checked :
  Forall (fun c => isPathChar c = true) path ->
  ~ In 38 (getRepoPath path) ->
  encodeURIComponent q = Normal enc ->
  Forall (fun c => textPlain c = true) label ->
  createFilterItem path (Some (JStr label)) (Some (JStr q)) checked =
    Normal (Some (plainItem (ToString_bool checked)
                    (itemHref (getRepoPath path) enc) label)).
Proof.
  intros Hpath Hamp Henc Hl.
  unfold createFilterItem. cbn [ToString ToString_json mbind completion_bind].
  rewrite Henc. cbn [mbind completion_bind]. unfold createElementFromHtml.
  rewrite trim_itemHtml, itemBody_split, parseFragment_plainItem.
  - reflexivity.
  - apply ToString_bool_plain.
  - apply itemHref_plain;
      [now apply repoPath_plain | now apply (encodeURIComponent_plain q)].
  - exact Hl.
Qed.

(** X16.  An item for a label that is plain text (no less-than sign, no
    ampersand, no carriage return, no U+0000), at a location path as the
    browser serialises it whose first two segments hold no ampersand and
    for a query that [encodeURIComponent] encodes: [createFilterItem]
    returns the anchor of the template, of class [custom-item], holding
    the check mark and the label as one run of text; the label is no
    markup, and the item shows the label, trimmed. *)
Theorem createFilterItem_plain (path label q enc : jsstring)
  (checked : bool) :
  Forall (fun c => isPathChar c = true) path ->
  ~ In 38 (getRepoPath path) ->
  encodeURIComponent q = Normal enc ->
  Forall (fun c => textPlain c = true) label ->
  createFilterItem path (Some (JStr label)) (Some (JStr q)) checked =
    Normal (Some (plainItem (ToString_bool checked)
                    (itemHref (getRepoPath path) enc) label)) /\
  hasClass (plainItem (ToString_bool checked)
              (itemHref (getRepoPath path) enc) label) CUSTOM_ITEM = true /\
  itemText (plainItem (ToString_bool checked)
              (itemHref (getRepoPath path) enc) label) = trim label.
Proof.
  intros Hpath Hamp Henc Hl.
  split; [now apply plainItem_created |].
  split; [reflexivity | apply itemText_plainItem].
Qed.

(** ** Rendering again *)

Lemma createFilterItem_anchor path label query checked item :
  Forall (fun c => isPathChar c = true) path ->
  ~ In 38 (getRepoPath path) ->
  createFilterItem path label query checked = Normal item ->
  exists href kids,
    item = Some (Element (lit "a")
                   (itemAttributes (ToString_bool checked) href) [] kids).
Proof.
  intros Hpath Hamp. unfold createFilterItem.
  destruct (ToString query) as [q|e]; [| discriminate].
  cbn [mbind completion_bind].
  destruct (encodeURIComponent q) as [enc|e] eqn:Henc; [| discriminate].
  cbn [mbind completion_bind].
  destruct (ToString label) as [text|e]; [| discriminate].
  cbn [mbind completion_bind]. unfold createElementFromHtml.
  rewrite trim_itemHtml.
  destruct (parseFragment_item (ToString_bool checked)
              (itemHref (getRepoPath path) enc)
              (trimEnd (itemBody text)))
    as (kids & rest & ->).
  - apply ToString_bool_plain.
  - apply itemHref_plain;
      [now apply repoPath_plain | now apply (encodeURIComponent_plain _ _ Henc)].
  - intros [= <-]. eauto.
Qed.

(** What [prependItems] puts in front are items of class [custom-item]. *)
Lemma prependItems_added path fs : forall kids,
  Forall (fun c => isPathChar c = true) path ->
  ~ In 38 (getRepoPath path) ->
  exists added,
    fst (prependItems path fs kids) = added ++ kids /\
    List.filter isHostItem added = [].
Proof.
  induction fs as [|f fs IH]; intros kids Hpath Hamp; [now exists [] |].
  cbn [prependItems].
  destruct (getProperty f (lit "label")) as [l|e]; [| now exists []].
  destruct (getProperty f (lit "query")) as [q|e]; [| now exists []].
  cbn [mbind completion_bind].
  destruct (createFilterItem path l q false) as [item|e] eqn:E;
    [| now exists []].
  destruct (createFilterItem_anchor _ _ _ _ _ Hpath Hamp E)
    as (href & kids' & ->).
  cbn [nodeOrText].
  destruct (IH (Element (lit "a")
                  (itemAttributes (ToString_bool false) href) [] kids'
                :: kids) Hpath Hamp) as (added & -> & Hadded).
  exists (added ++ [Element (lit "a")
                      (itemAttributes (ToString_bool false) href) [] kids']).
  split; [now rewrite <- app_assoc |].
  rewrite List.filter_app, Hadded. reflexivity.
Qed.

Lemma addExistingFilters_added path fs kids :
  Forall (fun c => isPathChar c = true) path ->
  ~ In 38 (getRepoPath path) ->
  exists added,
    fst (addExistingFilters path fs kids) = added ++ kids /\
    List.filter isHostItem added = [].
Proof.
  intros Hpath Hamp. unfold addExistingFilters.
  destruct fs as [| b | n | str | l | m];
    try (now exists []); [destruct str; now exists [] | | ].
  - now apply prependItems_added.
  - destruct (greaterThanZero _) as [[]|e]; now exists [].
Qed.

Lemma removeCustomItems_Normal kids r :
  removeCustomItems kids = (r, Normal ()) ->
  r = List.filter isHostItem kids.
Proof.
  destruct (flatItems kids) eqn:E.
  - rewrite (removeCustomItems_flat _ E). now intros [= <-].
  - pose proof (removeCustomItems_nested _ E) as H. intros Hr.
    rewrite Hr in H. discriminate.
Qed.

(** X17.  Rendering twice shows the items once.  At a location path as
    the browser serialises it whose first two segments hold no
    ampersand: when a render has returned and the next render returns
    too, the dropdown is after the second what it was after the first;
    the items of the first render are cleared and built again, whatever
    the filters and their labels. *)
Theorem render_twice_same_items (s s1 s2 : State) :
  Forall (fun c => isPathChar c = true) (pathname s) ->
  ~ In 38 (getRepoPath (pathname s)) ->
  initializeDropdown s = (s1, Normal ()) ->
  initializeDropdown s1 = (s2, Normal ()) ->
  filtersDropdown (document s2) = filtersDropdown (document s1).
Proof.
  intros Hpath Hamp. unfold initializeDropdown at 1.
  destruct (filtersDropdown (document s)) as [kids|] eqn:Hd.
  2: { intros [= <-]. unfold initializeDropdown. rewrite Hd.
       now intros [= <-]. }
  destruct (removeCustomItems kids) as [cleared [[]|e]] eqn:Hclear;
    [| discriminate].
  apply removeCustomItems_Normal in Hclear.
  assert (Hagain : removeCustomItems cleared = (cleared, Normal ()) \/
                   flatItems kids = false).
  { destruct (flatItems kids) eqn:E; [left | now right].
    subst cleared.
    rewrite (removeCustomItems_flat _ (filter_host_flat _ E)).
    now rewrite filter_host_idem. }
  fields.
  destruct (filterContainer (document s)) as [container|] eqn:Hc.
  - destruct (addExistingFilters_added (pathname s) (filters s) cleared
                Hpath Hamp) as (added & Hadded & Hcustom).
    destruct (addExistingFilters (pathname s) (filters s) cleared)
      as [items [[]|e]] eqn:Hadd; [| discriminate].
    cbn [fst] in Hadded. rewrite createAddToFavButton_value.
    intros [= <-]. unfold initializeDropdown. fields.
    destruct (removeCustomItems items) as [r [[]|e]] eqn:Hr;
      [| discriminate].
    apply removeCustomItems_Normal in Hr.
    assert (r = cleared) as ->.
    { rewrite Hr, Hadded, List.filter_app, Hcustom, Hclear.
      cbn [app]. apply filter_host_idem. }
    fields. rewrite Hadd, createAddToFavButton_value.
    now intros [= <-].
  - intros [= <-]. unfold initializeDropdown. fields.
    destruct (removeCustomItems cleared) as [r [[]|e]] eqn:Hr;
      [| discriminate].
    apply removeCustomItems_Normal in Hr. fields. rewrite Hc.
    intros [= <-]. fields. rewrite Hr, Hclear. f_equal.
    apply filter_host_idem.
Qed.

(** ** Rendering filters with plain labels *)

Lemma renderItem_plain path f :
  Forall (fun c => isPathChar c = true) path ->
  ~ In 38 (getRepoPath path) ->
  isPlainFilter f = true ->
  renderItem path f = Normal (plainItemOf path f).
Proof.
  intros Hpath Hamp [Hl Hq]%andb_true_iff.
  unfold renderItem, plainItemOf.
  destruct (encodeURIComponent (query f)) as [enc|e] eqn:Henc;
    [| discriminate].
  rewrite (plainItem_created _ _ _ _ false Hpath Hamp Henc)
    by now apply Forall_forallb.
  reflexivity.
Qed.

Lemma renderItems_plain path fs :
  Forall (fun c => isPathChar c = true) path ->
  ~ In 38 (getRepoPath path) ->
  forallb isPlainFilter fs = true ->
  Forall2 (fun f item => renderItem path f = Normal item) fs
    (List.map (plainItemOf path) fs).
Proof.
  intros Hpath Hamp. induction fs as [|f fs IH]; [constructor |].
  cbn [forallb List.map]. intros [Hf Hfs]%andb_true_iff.
  constructor; [now apply renderItem_plain | now apply IH].
Qed.

Lemma plainItems_injected path fs kids :
  injectedItems (List.map (plainItemOf path) fs ++
                 List.filter isHostItem kids) =
  List.map (plainItemOf path) fs.
Proof.
  unfold injectedItems. rewrite List.filter_app.
  fold (injectedItems (List.filter isHostItem kids)).
  rewrite filter_host_injected, app_nil_r.
  induction fs as [|f fs IH]; [reflexivity |].
  cbn [List.map List.filter].
  change (hasClass (plainItemOf path f) CUSTOM_ITEM) with true.
  now rewrite IH.
Qed.

Lemma plainItems_host path fs kids :
  List.filter isHostItem (List.map (plainItemOf path) fs ++ kids) =
  List.filter isHostItem kids.
Proof.
  rewrite List.filter_app.
  induction fs as [|f fs IH]; [reflexivity |].
  cbn [List.map List.filter].
  change (isHostItem (plainItemOf path f)) with false. exact IH.
Qed.

Lemma plainItems_flat path fs kids :
  flatItems kids = true ->
  flatItems (List.map (plainItemOf path) fs ++ kids) = true.
Proof.
  intros H. unfold flatItems. rewrite forallb_app.
  fold (flatItems kids). rewrite H, andb_true_r.
  induction fs as [|f fs IH]; [reflexivity |].
  cbn [List.map forallb].
  change (hasCustomDescendant (plainItemOf path f)) with false.
  exact IH.
Qed.

Lemma render_plain s fs kids container :
  filters s = filterArray fs ->
  filtersDropdown (document s) = Some kids ->
  flatItems kids = true ->
  filterContainer (document s) = Some container ->
  Forall (fun c => isPathChar c = true) (pathname s) ->
  ~ In 38 (getRepoPath (pathname s)) ->
  forallb isPlainFilter fs = true ->
  exists s',
    initializeDropdown s = (s', Normal ()) /\
    filtersDropdown (document s') =
      Some (List.map (plainItemOf (pathname s)) fs ++
            List.filter isHostItem kids) /\
    filterContainer (document s') = Some (container ++ [favButton]) /\
    filters s' = filters s /\ pathname s' = pathname s.
Proof.
  intros Hfs Hd Hflat Hc Hpath Hamp Hplain.
  unfold initializeDropdown.
  rewrite Hd, (removeCustomItems_flat _ Hflat). fields.
  rewrite Hc, Hfs. unfold filterArray. cbn [addExistingFilters].
  rewrite (prependItems_filters _ _ _ _
             (renderItems_plain _ _ Hpath Hamp Hplain)).
  rewrite createAddToFavButton_value.
  eexists. split; [reflexivity |]. fields. auto.
Qed.

(** X18.  Filters with plain labels render.  With both mount points
    there, a dropdown whose injected items are all children of it, a
    location path as the browser serialises it whose first two segments
    hold no ampersand, and filters whose labels are plain text and whose
    queries [encodeURIComponent] encodes: the render raises nothing; the
    dropdown then holds one item for each filter, in the order of the
    filters, before the entries of the host page, and shows the labels,
    trimmed; and a second render raises nothing either and leaves the
    dropdown as the first left it. *)
Theorem render_plain_filters (s : State) (fs : list Filter)
  (kids container : list node) :
  filters s = filterArray fs ->
  filtersDropdown (document s) = Some kids ->
  flatItems kids = true ->
  filterContainer (document s) = Some container ->
  Forall (fun c => isPathChar c = true) (pathname s) ->
  ~ In 38 (getRepoPath (pathname s)) ->
  forallb isPlainFilter fs = true ->
  exists s',
    initializeDropdown s = (s', Normal ()) /\
    filtersDropdown (document s') =
      Some (List.map (plainItemOf (pathname s)) fs ++
            List.filter isHostItem kids) /\
    shownItems s' = Some (List.map (fun f => trim (label f)) fs) /\
    exists s'',
      initializeDropdown s' = (s'', Normal ()) /\
      filtersDropdown (document s'') = filtersDropdown (document s').
Proof.
  intros Hfs Hd Hflat Hc Hpath Hamp Hplain.
  destruct (render_plain s fs kids container)
    as (s' & Hrun & Hd' & Hc' & Hf' & Hp'); try assumption.
  exists s'. split; [exact Hrun |]. split; [exact Hd' |]. split.
  - unfold shownItems. rewrite Hd'. cbn [option_map].
    rewrite plainItems_injected, List.map_map. f_equal.
    apply List.map_ext. intros f. apply itemText_plainItem.
  - destruct (render_plain s' fs
                (List.map (plainItemOf (pathname s)) fs ++
                 List.filter isHostItem kids) (container ++ [favButton]))
      as (s'' & Hrun' & Hd'' & _); try assumption.
    + now rewrite Hf'.
    + apply plainItems_flat. now apply filter_host_flat.
    + now rewrite Hp'.
    + now rewrite Hp'.
    + exists s''. split; [exact Hrun' |].
      rewrite Hd'', Hd', Hp', plainItems_host, filter_host_idem.
      reflexivity.
Qed.

(** ** From the storage to the dropdown, and from a click to both *)

(** X19.  A navigation trigger shows the stored filters.  On a
    pull-request page where the key holds the JSON text of filters with
    plain labels and encodable queries, with both mount points there and
    the path as for X18: the trigger raises nothing, takes the stored
    filters as the filters in memory, and the dropdown shows their
    labels, trimmed, in the order they were stored; no retry is set and
    nothing is logged. *)
Theorem handleLocationChange_shows_stored (s : State) (fs : list Filter)
  (kids container : list node) :
  isPullRequestPage (pathname s) = true ->
  getItem (localStorage s) getStorageKey =
    Normal (Some (JSON_stringify (filterArray fs))) ->
  filtersDropdown (document s) = Some kids ->
  flatItems kids = true ->
  filterContainer (document s) = Some container ->
  Forall (fun c => isPathChar c = true) (pathname s) ->
  ~ In 38 (getRepoPath (pathname s)) ->
  forallb isPlainFilter fs = true ->
  exists s',
    handleLocationChange s = (s', Normal ()) /\
    filters s' = filterArray fs /\
    shownItems s' = Some (List.map (fun f => trim (label f)) fs) /\
    timers s' = timers s /\
    console s' = console s.
Proof.
  intros Hpage Hget Hd Hflat Hc Hpath Hamp Hplain.
  unfold handleLocationChange. fields. rewrite Hpage. cbn [negb].
  unfold loadFilters, loadFilters_body. fields. rewrite Hget.
  destruct (stringify_filterArray_nonempty fs) as [text Htext].
  rewrite Htext. cbn [mbind completion_bind]. rewrite <- Htext.
  rewrite JSON_roundtrip. cbn [mbind completion_bind try_catch].
  unfold mountPointPresent. fields. rewrite Hc.
  set (s0 := set_filters _ _).
  destruct (render_plain s0 fs kids container)
    as (s' & Hrun & Hd' & _ & Hf' & _); try assumption; try reflexivity.
  pose proof (initializeDropdown_fields s0) as (_ & _ & _ & _ & H5 & _).
  pose proof (initializeDropdown_frame s0) as (H9 & _).
  rewrite Hrun in H5, H9. cbn [fst] in H5, H9.
  exists s'. split; [exact Hrun |]. split; [exact Hf' |]. split.
  - unfold shownItems. rewrite Hd'. cbn [option_map].
    rewrite plainItems_injected, List.map_map. f_equal.
    apply List.map_ext. intros f. apply itemText_plainItem.
  - split; assumption.
Qed.

(** X20.  Adding a filter shows it last.  With filters in memory whose
    labels are plain, a query and a label for the new one that are not
    empty, plain and encodable, a storage that takes the write, and the
    page as for X18: after [addNewFilter] the dropdown shows the labels
    of the filters before and then the new label, the search bar has one
    more favourite button, and nothing is logged. *)
Theorem addNewFilter_shows (s : State) (fs : list Filter)
  (q lbl : jsstring) (st : Storage) (kids container : list node) :
  filters s = filterArray fs ->
  q <> [] -> lbl <> [] ->
  setItem (localStorage s) getStorageKey
    (JSON_stringify (filterArray (fs ++ [{| label := lbl; query := q |}]))) =
    Normal st ->
  filtersDropdown (document s) = Some kids ->
  flatItems kids = true ->
  filterContainer (document s) = Some container ->
  Forall (fun c => isPathChar c = true) (pathname s) ->
  ~ In 38 (getRepoPath (pathname s)) ->
  forallb isPlainFilter (fs ++ [{| label := lbl; query := q |}]) = true ->
  shownItems (addNewFilter q (Some lbl) s) =
    Some (List.map (fun f => trim (label f)) fs ++ [trim lbl]) /\
  filterContainer (document (addNewFilter q (Some lbl) s)) =
    Some (container ++ [favButton]) /\
  console (addNewFilter q (Some lbl) s) = console s.
Proof.
  intros Hfs Hq Hl Hset Hd Hflat Hc Hpath Hamp Hplain.
  set (f := {| label := lbl; query := q |}) in *.
  assert (Hadd : exists s',
    addNewFilter q (Some lbl) s = s' /\
    filtersDropdown (document s') =
      Some (List.map (plainItemOf (pathname s)) (fs ++ [f]) ++
            List.filter isHostItem kids) /\
    filterContainer (document s') = Some (container ++ [favButton]) /\
    console s' = console s).
  { unfold addNewFilter. destruct q as [|c0 q']; [congruence |].
    destruct lbl as [|d0 lbl']; [congruence |].
    cbn [promptAsync]. unfold pushFilter. fields. rewrite Hfs.
    unfold filterArray at 1.
    set (s2 := set_filters _ _).
    assert (Hf2 : filters s2 = filterArray (fs ++ [f])).
    { subst s2. fields. unfold filterArray. now rewrite List.map_app. }
    assert (Hsave : saveFilters s2 = set_localStorage st s2).
    { unfold saveFilters. rewrite Hf2.
      replace (localStorage s2) with (localStorage s) by reflexivity.
      rewrite Hset. reflexivity. }
    rewrite Hsave.
    destruct (render_plain (set_localStorage st s2) (fs ++ [f]) kids
                container)
      as (s' & Hrun & Hd' & Hc' & _); try assumption.
    pose proof (initializeDropdown_fields (set_localStorage st s2))
      as (_ & _ & _ & _ & H5 & _).
    rewrite Hrun in H5 |- *. cbn [fst] in H5.
    exists s'. split; [reflexivity |]. split; [exact Hd' |].
    split; [exact Hc' | exact H5]. }
  destruct Hadd as (s' & -> & Hd' & Hc' & H5).
  split; [| split; [exact Hc' | exact H5]].
  unfold shownItems. rewrite Hd'. cbn [option_map].
  rewrite plainItems_injected, List.map_map, List.map_app. cbn [List.map].
  f_equal. f_equal.
  - apply List.map_ext. intros g. apply itemText_plainItem.
  - f_equal. apply itemText_plainItem.
Qed.


End Facts.

(** ** The statements at concrete pages *)

#[local] Existing Instance literalNumbers.

(** C1, the claim as stated fails: with the filters [A], [B], [C] stored
    in this order, a successful render shows the injected items in the
    order [A], [B], [C], not [C], [B], [A]. *)
Lemma render_not_newest_first :
  snd (initializeDropdown pageABC) = Normal () /\
  shownItems (fst (initializeDropdown pageABC)) =
    Some [lit "A"; lit "B"; lit "C"] /\
  shownItems (fst (initializeDropdown pageABC)) <>
    Some [lit "C"; lit "B"; lit "A"].
Proof. vm_compute. repeat split; discriminate. Qed.

(** The amended C1 at the page of the three filters. *)
Lemma render_insertion_order_witness :
  exists items s',
    filters pageABC = filterArray [filterA; filterB; filterC] /\
    removeCustomItems [hostEntry] = ([hostEntry], Normal ()) /\
    Forall2 (fun f item => renderItem (pathname pageABC) f = Normal item)
      [filterA; filterB; filterC] items /\
    initializeDropdown pageABC = (s', Normal ()) /\
    filtersDropdown (document s') = Some (items ++ [hostEntry]) /\
    filterContainer (document s') = Some ([hostInput] ++ [favButton]) /\
    List.map itemText items = [lit "A"; lit "B"; lit "C"].
Proof.
  assert (H : exists items,
             Forall2
               (fun f item => renderItem (pathname pageABC) f = Normal item)
               [filterA; filterB; filterC] items /\
             List.map itemText items = [lit "A"; lit "B"; lit "C"]).
  { eexists. split.
    - repeat (constructor; [vm_compute; reflexivity |]). constructor.
    - vm_compute. reflexivity. }
  destruct H as (items & Hitems & Htext).
  destruct (render_insertion_order pageABC [filterA; filterB; filterC]
              [hostEntry] [hostEntry] [hostInput] items
              eq_refl eq_refl eq_refl eq_refl Hitems)
    as (s' & Hrun & Hdrop & Hcont).
  exists items, s'. repeat split; assumption.
Defined.

(** C4, the claim as stated fails: when the storage takes no write,
    [saveFilters] logs the error and [loadFilters] then reads the empty
    sequence, not the filter that was saved. *)
Lemma save_then_load_fails_when_full :
  filters pageFull = filterArray [filterA] /\
  snd (loadFilters (saveFilters pageFull)) = JArr [] /\
  snd (loadFilters (saveFilters pageFull)) <> filterArray [filterA].
Proof. vm_compute. repeat split; discriminate. Qed.

(** The amended C4 at the page of the three filters, whose storage takes
    the write. *)
Lemma save_then_load_witness :
  exists st,
    filters pageABC = filterArray [filterA; filterB; filterC] /\
    setItem (localStorage pageABC) getStorageKey
      (JSON_stringify (filters pageABC)) = Normal st /\
    saveFilters pageABC = set_localStorage st pageABC /\
    loadFilters (saveFilters pageABC) =
    (saveFilters pageABC, filterArray [filterA; filterB; filterC]).
Proof.
  assert (H : exists st,
             setItem (localStorage pageABC) getStorageKey
               (JSON_stringify (filters pageABC)) = Normal st).
  { eexists. vm_compute. reflexivity. }
  destruct H as [st Hst]. exists st.
  split; [reflexivity |]. split; [exact Hst |].
  exact (save_then_load pageABC [filterA; filterB; filterC] st eq_refl Hst).
Defined.

(** C6, the claim as stated fails: the empty string is not JSON, yet when
    the key holds it [loadFilters] returns the empty sequence without a
    diagnostic. *)
Lemma loadFilters_empty_text_silent :
  getItem (localStorage pageEmptyText) getStorageKey = Normal (Some []) /\
  JSON_parse [] = Throw SyntaxError /\
  snd (loadFilters pageEmptyText) = JArr [] /\
  console (fst (loadFilters pageEmptyText)) = console pageEmptyText.
Proof. vm_compute. repeat split. Qed.

(** The amended C6 at a page whose key holds a JSON text cut short. *)
Lemma loadFilters_recovers_witness :
  getItem (localStorage pageTruncated) getStorageKey =
    Normal (Some truncatedText) /\
  truncatedText <> [] /\
  JSON_parse truncatedText = Throw SyntaxError /\
  loadFilters pageTruncated =
  (log (Error (lit "Error loading filters:") SyntaxError) pageTruncated,
   JArr []).
Proof.
  assert (Hget : getItem (localStorage pageTruncated) getStorageKey =
                 Normal (Some truncatedText)) by (vm_compute; reflexivity).
  assert (Hne : truncatedText <> []) by (vm_compute; discriminate).
  assert (Hparse : JSON_parse truncatedText = Throw SyntaxError)
    by (vm_compute; reflexivity).
  split; [exact Hget |]. split; [exact Hne |]. split; [exact Hparse |].
  exact (proj1 (proj2 (loadFilters_recovers pageTruncated))
           truncatedText SyntaxError Hget Hne Hparse).
Defined.

(** C8 at a prompt that the user cancels. *)
Lemma addNewFilter_aborts_witness :
  (lit "is:open" = [] \/ @None jsstring = None \/ @None jsstring = Some []) /\
  let s' := addNewFilter (lit "is:open") None pageABC in
  filters s' = filters pageABC /\
  localStorage s' = localStorage pageABC /\
  document s' = document pageABC /\
  console s' = console pageABC /\
  (lit "is:open" = [] -> s' = pageABC) /\
  (lit "is:open" <> [] ->
   s' = add_prompt (lit "Enter filter label:") pageABC).
Proof.
  split; [right; left; reflexivity |].
  apply (addNewFilter_aborts pageABC (lit "is:open") None).
  right; left; reflexivity.
Defined.

(** C3, evaluated.  Rendering the page of the three filters twice leaves
    the same items in the dropdown as rendering it once, but a second
    favourite button in the search bar: nothing removes the button of the
    first render. *)
Theorem render_twice_adds_button :
  let s1 := fst (initializeDropdown pageABC) in
  let s2 := fst (initializeDropdown s1) in
  snd (initializeDropdown pageABC) = Normal () /\
  snd (initializeDropdown s1) = Normal () /\
  shownItems s2 = shownItems s1 /\
  buttonCount s1 = Some 1%nat /\
  buttonCount s2 = Some 2%nat /\
  filterContainer (document s2) <> filterContainer (document s1).
Proof. vm_compute. repeat split; discriminate. Qed.

(** C2, evaluated.  A label that is markup is parsed as markup: the item
    built for it has an [img] element with an [onerror] attribute among
    its children, and its text is not the label. *)
Theorem label_parsed_as_markup :
  exists item img,
    createFilterItem (lit "/org/repo/pulls") (Some (JStr markupLabel))
      (Some (JStr (lit "is:open"))) false = Normal (Some item) /\
    In img (childNodes item) /\
    tagName img = Some (lit "img") /\
    attribute img (lit "onerror") = Some (lit "alert(1)") /\
    textContent item <> textContent (Text markupLabel) /\
    ~ In (Text markupLabel) (childNodes item).
Proof.
  eexists. eexists. split; [vm_compute; reflexivity |].
  split; [right; right; right; left; reflexivity |].
  split; [reflexivity |]. split; [reflexivity |].
  split; [vm_compute; discriminate |].
  vm_compute. intuition discriminate.
Qed.

(** C10, the claim as stated fails: at a location whose first segment is
    [a&amp;b] the HTML parser replaces the character reference, and the
    link of the item is not the string the template wrote. *)
Lemma link_decodes_reference :
  encodeURIComponent (lit "x") = Normal (lit "x") /\
  itemLink (createFilterItem ampersandPath (Some (JStr (lit "A")))
              (Some (JStr (lit "x"))) false) =
    Some (lit "/a&b/c/issues?q=x") /\
  itemLink (createFilterItem ampersandPath (Some (JStr (lit "A")))
              (Some (JStr (lit "x"))) false) <>
    Some (lit "/" ++ getRepoPath ampersandPath ++ lit "/issues?q=" ++
          lit "x").
Proof. vm_compute. repeat split; discriminate. Qed.

(** The amended C10 at the pull-request list of [org/repo], for a query
    with a colon and a space and a label that is markup. *)
Lemma filter_item_link_witness :
  Forall (fun c => isPathChar c = true) (lit "/org/repo/pulls") /\
  ~ In 38 (getRepoPath (lit "/org/repo/pulls")) /\
  encodeURIComponent (lit "is:open label:bug") =
    Normal (lit "is%3Aopen%20label%3Abug") /\
  ToString (Some (JStr markupLabel)) = Normal markupLabel /\
  exists item,
    createFilterItem (lit "/org/repo/pulls") (Some (JStr markupLabel))
      (Some (JStr (lit "is:open label:bug"))) false = Normal (Some item) /\
    tagName item = Some (lit "a") /\
    attribute item (lit "href") =
      Some (lit "/" ++ getRepoPath (lit "/org/repo/pulls") ++
            lit "/issues?q=" ++ lit "is%3Aopen%20label%3Abug").
Proof.
  assert (Hpath : Forall (fun c => isPathChar c = true)
                    (lit "/org/repo/pulls")).
  { apply Forall_forall. intros c Hc%list_elem_of_In.
    vm_compute in Hc. intuition (subst; reflexivity). }
  assert (Hamp : ~ In 38 (getRepoPath (lit "/org/repo/pulls"))).
  { vm_compute. intuition discriminate. }
  assert (Henc : encodeURIComponent (lit "is:open label:bug") =
                 Normal (lit "is%3Aopen%20label%3Abug"))
    by (vm_compute; reflexivity).
  assert (Hlabel : ToString (Some (JStr markupLabel)) = Normal markupLabel)
    by reflexivity.
  split; [exact Hpath |]. split; [exact Hamp |]. split; [exact Henc |].
  split; [exact Hlabel |].
  exact (filter_item_link (lit "/org/repo/pulls") (Some (JStr markupLabel))
           markupLabel (lit "is:open label:bug")
           (lit "is%3Aopen%20label%3Abug") false Hpath Hamp Henc Hlabel).
Defined.

(** C7, the claim as stated fails.  The script is constructed on the
    bare page at time 0 and a navigation trigger arrives at time 100,
    while the retry of the construction is pending.  The trigger resets
    the one retry counter and cancels no timer: after it four delayed
    re-checks are made, at 500, 600, 1000 and 1100, not at most three
    and not 500 ms apart, and a re-check follows the first warning. *)
Lemma overlapping_triggers_recheck_more :
  reachable pageRetrying /\
  isPullRequestPage (pathname pageRetrying) = true /\
  filterContainer (document pageRetrying) = None /\
  snd (handleLocationChange pageRetrying) = Normal () /\
  quiet_run (fst (handleLocationChange pageRetrying))
    (runTimers 4 (fst (handleLocationChange pageRetrying))) /\
  filterContainer
    (document (runTimers 4 (fst (handleLocationChange pageRetrying)))) =
    None /\
  recheckTimes (length (rechecks pageRetrying))
    (runTimers 4 (fst (handleLocationChange pageRetrying))) =
    [500; 600; 1000; 1100] /\
  (MAX_RETRY_ATTEMPTS <
   length (recheckTimes (length (rechecks pageRetrying))
             (runTimers 4 (fst (handleLocationChange pageRetrying)))))%nat /\
  console (runTimers 3 (fst (handleLocationChange pageRetrying))) =
    [Warn RETRY_WARNING] /\
  recheckTimes (length (rechecks pageRetrying))
    (runTimers 3 (fst (handleLocationChange pageRetrying))) =
    [500; 600; 1000] /\
  console (runTimers 4 (fst (handleLocationChange pageRetrying))) =
    [Warn RETRY_WARNING; Warn RETRY_WARNING].
Proof.
  split.
  { unfold pageRetrying. apply reach_wait.
    - apply reach_construct. reflexivity.
    - vm_compute. discriminate.
    - assert (Ht : timers (fst (construct pageBare)) =
                   [{| due := 500; chain := 1 |}])
        by (vm_compute; reflexivity).
      rewrite Ht. constructor; [cbn [due]; lia | constructor]. }
  split; [vm_compute; reflexivity |]. split; [vm_compute; reflexivity |].
  split; [vm_compute; reflexivity |].
  split.
  { apply runTimers_exhaust; [vm_compute; reflexivity | |];
      vm_compute; lia. }
  vm_compute. repeat split; lia.
Qed.

(** The amended C7 at the pull-request page whose mount points never
    appear and where no retry is pending. *)
Lemma lone_trigger_retries_witness :
  timers pageBare = [] /\
  isPullRequestPage (pathname pageBare) = true /\
  filterContainer (document pageBare) = None /\
  snd (handleLocationChange pageBare) = Normal () /\
  document (fst (handleLocationChange pageBare)) = document pageBare /\
  (forall s',
      window_run (fst (handleLocationChange pageBare)) s' ->
      (length (recheckTimes (length (rechecks pageBare)) s') <=
       MAX_RETRY_ATTEMPTS)%nat /\
      spaced (now pageBare) (recheckTimes (length (rechecks pageBare)) s') /\
      (quiet_run (fst (handleLocationChange pageBare)) s' ->
       recheckTimes (length (rechecks pageBare)) s' =
       List.map (recheckTime (now pageBare))
         (seq 1 (length (recheckTimes (length (rechecks pageBare)) s')))) /\
      (forall s'' c,
          runTimer s' = Some (s'', c) ->
          c = Normal () /\ document s'' = document s') /\
      (timers s' <> [] ->
       console s' = console (fst (handleLocationChange pageBare))) /\
      (timers s' = [] ->
       length (recheckTimes (length (rechecks pageBare)) s') =
         MAX_RETRY_ATTEMPTS /\
       console s' =
         console (fst (handleLocationChange pageBare)) ++
         [Warn RETRY_WARNING] /\
       runTimer s' = None) /\
      window_run s' (runTimers MAX_RETRY_ATTEMPTS s') /\
      timers (runTimers MAX_RETRY_ATTEMPTS s') = []) /\
  (forall s' n,
      handleLocationChange (set_retryAttempts n s') =
      handleLocationChange s').
Proof.
  split; [reflexivity |]. split; [reflexivity |]. split; [reflexivity |].
  exact (lone_trigger_retries pageBare eq_refl eq_refl eq_refl).
Defined.

(** The lone retry window with timers that run late: the re-checks of
    the bare page taken up at 700, 1300 and 2000 instead of 500, 1200
    and 1800; then the warning, and nothing left to run. *)
Example late_timers_run :
  rechecks
    (runTimers 1
       (set_now 2000
          (runTimers 1
             (set_now 1300
                (runTimers 1
                   (set_now 700 (fst (handleLocationChange pageBare)))))))) =
    [(1%nat, 700); (1%nat, 1300); (1%nat, 2000)] /\
  console
    (runTimers 1
       (set_now 2000
          (runTimers 1
             (set_now 1300
                (runTimers 1
                   (set_now 700 (fst (handleLocationChange pageBare)))))))) =
    [Warn RETRY_WARNING].
Proof. vm_compute. split; reflexivity. Qed.

(** X21 at the pull-request page whose mount points never appear. *)
Lemma retry_window_witness :
  consistent pageBare /\
  isPullRequestPage (pathname pageBare) = true /\
  filterContainer (document pageBare) = None /\
  snd (handleLocationChange pageBare) = Normal () /\
  document (fst (handleLocationChange pageBare)) = document pageBare /\
  (forall s',
      quiet_run (fst (handleLocationChange pageBare)) s' ->
      (exists k,
          (k <= MAX_RETRY_ATTEMPTS)%nat /\
          rechecksSince (length (rechecks pageBare))
            (triggers (fst (handleLocationChange pageBare))) s' =
          List.map (recheckTime (now pageBare)) (seq 1 k)) /\
      (forall s'' c,
          runTimer s' = Some (s'', c) ->
          c = Normal () /\ document s'' = document s') /\
      (quiet_run s'
         (runTimers (length (timers s') + MAX_RETRY_ATTEMPTS) s') /\
       timers (runTimers (length (timers s') + MAX_RETRY_ATTEMPTS) s') =
         []) /\
      (ofChain (triggers (fst (handleLocationChange pageBare)))
         (timers s') = [] ->
       exists extra,
         console s' =
           console (fst (handleLocationChange pageBare)) ++ extra /\
         In (Warn RETRY_WARNING) extra) /\
      (timers s' = [] -> runTimer s' = None)) /\
  (forall s' n,
      handleLocationChange (set_retryAttempts n s') =
      handleLocationChange s').
Proof.
  assert (Hcons : consistent pageBare) by constructor.
  split; [exact Hcons |]. split; [reflexivity |]. split; [reflexivity |].
  exact (retry_window pageBare Hcons eq_refl eq_refl).
Defined.

(** The retry window of the bare page, run to its end: three re-checks,
    500 ms apart, then the warning, and nothing left to run. *)
Example retry_window_run :
  rechecks (runTimers 3 (fst (handleLocationChange pageBare))) =
    [(1%nat, 500); (1%nat, 1000); (1%nat, 1500)] /\
  console (runTimers 3 (fst (handleLocationChange pageBare))) =
    [Warn RETRY_WARNING] /\
  timers (runTimers 3 (fst (handleLocationChange pageBare))) = [] /\
  timers (runTimers 2 (fst (handleLocationChange pageBare))) <> [] /\
  document (runTimers 3 (fst (handleLocationChange pageBare))) =
    bareDocument.
Proof. vm_compute. repeat split; discriminate. Qed.


(** A label that cannot be made a string: an object whose own
    [toString] hides the inherited one.  [createFilterItem] throws, after
    the query was encoded, and the render raises without a button. *)
Example label_conversion_throws :
  getProperty filterOddLabel (lit "label") =
    Normal (Some (JObj [(lit "toString", JStr (lit "x"))])) /\
  createFilterItem (lit "/org/repo/pulls")
    (Some (JObj [(lit "toString", JStr (lit "x"))]))
    (Some (JStr (lit "is:open"))) false = Throw TypeError /\
  snd (initializeDropdown
         (pageState (JArr [filterOddLabel]) emptyStorage pullsDocument)) =
    Throw TypeError /\
  buttonCount
    (fst (initializeDropdown
            (pageState (JArr [filterOddLabel]) emptyStorage
               pullsDocument))) = Some 0%nat.
Proof. vm_compute. repeat split; reflexivity. Qed.

(** Filters whose [length] cannot be made a number: the comparison with
    zero throws and the render raises without a button; an object with
    no such property compares as false and the render goes on. *)
Example length_conversion_throws :
  snd (initializeDropdown (pageState oddLength emptyStorage pullsDocument)) =
    Throw TypeError /\
  buttonCount
    (fst (initializeDropdown
            (pageState oddLength emptyStorage pullsDocument))) =
    Some 0%nat /\
  snd (initializeDropdown (pageState (JObj []) emptyStorage pullsDocument)) =
    Normal () /\
  buttonCount
    (fst (initializeDropdown
            (pageState (JObj []) emptyStorage pullsDocument))) =
    Some 1%nat.
Proof. vm_compute. repeat split; reflexivity. Qed.

(** ** The further properties at concrete pages *)

(** X1 at the pull-request list of [org/repo]. *)
Lemma getRepoPath_segments_witness :
  Forall (fun c => c <> 47) (lit "org") /\
  Forall (fun c => c <> 47) (lit "repo") /\
  getRepoPath (lit "/" ++ lit "org" ++ lit "/" ++ lit "repo" ++ lit "/" ++
               lit "pulls") = lit "org" ++ lit "/" ++ lit "repo" /\
  getRepoPath (lit "/" ++ lit "org" ++ lit "/" ++ lit "repo") =
    lit "org" ++ lit "/" ++ lit "repo" /\
  getRepoPath (lit "/" ++ lit "org") = lit "org".
Proof.
  assert (Ho : Forall (fun c => c <> 47) (lit "org"))
    by (repeat constructor; discriminate).
  assert (Hr : Forall (fun c => c <> 47) (lit "repo"))
    by (repeat constructor; discriminate).
  split; [exact Ho |]. split; [exact Hr |].
  exact (getRepoPath_segments (lit "org") (lit "repo") (lit "pulls") Ho Hr).
Defined.

(** X3 at the page of the three filters: a fourth is added. *)
Lemma addNewFilter_persists_witness :
  exists st,
    filters pageABC = filterArray [filterA; filterB; filterC] /\
    lit "is:draft" <> [] /\ lit "D" <> [] /\
    setItem (localStorage pageABC) getStorageKey
      (JSON_stringify
         (filterArray ([filterA; filterB; filterC] ++
                       [{| label := lit "D"; query := lit "is:draft" |}]))) =
      Normal st /\
    filters (addNewFilter (lit "is:draft") (Some (lit "D")) pageABC) =
      filterArray ([filterA; filterB; filterC] ++
                   [{| label := lit "D"; query := lit "is:draft" |}]) /\
    localStorage (addNewFilter (lit "is:draft") (Some (lit "D")) pageABC) =
      st /\
    loadFilters (addNewFilter (lit "is:draft") (Some (lit "D")) pageABC) =
      (addNewFilter (lit "is:draft") (Some (lit "D")) pageABC,
       filterArray ([filterA; filterB; filterC] ++
                    [{| label := lit "D"; query := lit "is:draft" |}])) /\
    prompts (addNewFilter (lit "is:draft") (Some (lit "D")) pageABC) =
      prompts pageABC ++ [lit "Enter filter label:"].
Proof.
  assert (Hset : exists st,
    setItem (localStorage pageABC) getStorageKey
      (JSON_stringify
         (filterArray ([filterA; filterB; filterC] ++
                       [{| label := lit "D"; query := lit "is:draft" |}]))) =
      Normal st) by (eexists; vm_compute; reflexivity).
  destruct Hset as [st Hset]. exists st.
  assert (Hq : lit "is:draft" <> []) by discriminate.
  assert (Hl : lit "D" <> []) by discriminate.
  split; [reflexivity |]. split; [exact Hq |]. split; [exact Hl |].
  split; [exact Hset |].
  exact (addNewFilter_persists pageABC [filterA; filterB; filterC]
           (lit "is:draft") (lit "D") st eq_refl Hq Hl Hset).
Defined.

(** X4 at a page whose key holds the text of an empty object. *)
Lemma stored_value_not_validated_witness :
  isPullRequestPage (pathname pageObject) = true /\
  getItem (localStorage pageObject) getStorageKey =
    Normal (Some (lit "{}")) /\
  lit "{}" <> [] /\
  JSON_parse (lit "{}") = Normal (JObj []) /\
  (forall l, JObj [] <> JArr l) /\
  filters (fst (handleLocationChange pageObject)) = JObj [] /\
  forall q lbl, q <> [] -> lbl <> [] ->
    addNewFilter q (Some lbl) (fst (handleLocationChange pageObject)) =
    log (Error (lit "Error adding filter:") TypeError)
      (add_prompt (lit "Enter filter label:")
         (fst (handleLocationChange pageObject))).
Proof.
  assert (Hpage : isPullRequestPage (pathname pageObject) = true)
    by (vm_compute; reflexivity).
  assert (Hget : getItem (localStorage pageObject) getStorageKey =
                 Normal (Some (lit "{}"))) by (vm_compute; reflexivity).
  assert (Hne : lit "{}" <> []) by discriminate.
  assert (Hparse : JSON_parse (lit "{}") = Normal (JObj []))
    by (vm_compute; reflexivity).
  assert (Hv : forall l : list json, JObj [] <> JArr l) by discriminate.
  split; [exact Hpage |]. split; [exact Hget |]. split; [exact Hne |].
  split; [exact Hparse |]. split; [exact Hv |].
  exact (stored_value_not_validated pageObject (lit "{}") (JObj [])
           Hpage Hget Hne Hparse Hv).
Defined.

(** X6 at a dropdown that holds an injected item and a host entry. *)
Lemma clearOldItems_idempotent_witness :
  clearOldItems (Some [itemA; hostEntry]) = (Some [hostEntry], Normal ()) /\
  injectedItems [hostEntry] = [] /\
  clearOldItems (Some [hostEntry]) = (Some [hostEntry], Normal ()).
Proof.
  assert (H : clearOldItems (Some [itemA; hostEntry]) =
              (Some [hostEntry], Normal ())) by (vm_compute; reflexivity).
  split; [exact H |].
  exact (clearOldItems_idempotent [itemA; hostEntry] [hostEntry] H).
Defined.

(** X8 at the page whose filter menu holds an injected item while the
    search bar is away. *)
Lemma initializeDropdown_without_search_bar_witness :
  filtersDropdown (document (pageState (JArr []) emptyStorage menuOnly)) =
    Some [itemA; hostEntry] /\
  filterContainer (document (pageState (JArr []) emptyStorage menuOnly)) =
    None /\
  flatItems [itemA; hostEntry] = true /\
  initializeDropdown (pageState (JArr []) emptyStorage menuOnly) =
    (set_filtersDropdown (List.filter isHostItem [itemA; hostEntry])
       (pageState (JArr []) emptyStorage menuOnly), Normal ()) /\
  shownItems
    (fst (initializeDropdown (pageState (JArr []) emptyStorage menuOnly))) =
    Some [].
Proof.
  assert (Hflat : flatItems [itemA; hostEntry] = true)
    by (vm_compute; reflexivity).
  split; [reflexivity |]. split; [reflexivity |]. split; [exact Hflat |].
  exact (initializeDropdown_without_search_bar
           (pageState (JArr []) emptyStorage menuOnly) [itemA; hostEntry]
           eq_refl eq_refl Hflat).
Defined.

(** X9 at a dropdown where an injected item sits inside a host entry. *)
Lemma initializeDropdown_raises_witness :
  exists s',
    initializeDropdown (pageState (JArr []) emptyStorage nestedDocument) =
      (s', Throw NotFoundError) /\
    filterContainer (document s') =
      filterContainer
        (document (pageState (JArr []) emptyStorage nestedDocument)) /\
    (NotFoundError = NotFoundError \/ NotFoundError = TypeError \/
     NotFoundError = URIError).
Proof.
  assert (H : exists s',
    initializeDropdown (pageState (JArr []) emptyStorage nestedDocument) =
      (s', Throw NotFoundError)) by (eexists; vm_compute; reflexivity).
  destruct H as [s' H]. exists s'. split; [exact H |].
  exact (initializeDropdown_raises _ s' NotFoundError H).
Defined.

(** X10 at a page whose key holds the text [null]. *)
Lemma handleLocationChange_raises_witness :
  isPullRequestPage (pathname pageNull) = true /\
  getItem (localStorage pageNull) getStorageKey =
    Normal (Some (lit "null")) /\
  lit "null" <> [] /\
  JSON_parse (lit "null") = Normal JNull /\
  flatItems [hostEntry] = true /\
  exists s',
    handleLocationChange pageNull = (s', Throw TypeError) /\
    filtersDropdown (document s') =
      Some (List.filter isHostItem [hostEntry]) /\
    filterContainer (document s') = Some [hostInput] /\
    timers s' = timers pageNull /\
    console s' = console pageNull.
Proof.
  assert (Hpage : isPullRequestPage (pathname pageNull) = true)
    by (vm_compute; reflexivity).
  assert (Hget : getItem (localStorage pageNull) getStorageKey =
                 Normal (Some (lit "null"))) by (vm_compute; reflexivity).
  assert (Hne : lit "null" <> []) by discriminate.
  assert (Hparse : JSON_parse (lit "null") = Normal JNull)
    by (vm_compute; reflexivity).
  assert (Hflat : flatItems [hostEntry] = true) by (vm_compute; reflexivity).
  split; [exact Hpage |]. split; [exact Hget |]. split; [exact Hne |].
  split; [exact Hparse |]. split; [exact Hflat |].
  exact (handleLocationChange_raises pageNull (lit "null") JNull
           [hostEntry] [hostInput] Hpage Hget Hne Hparse
           (or_introl eq_refl) eq_refl Hflat eq_refl).
Defined.

(** X11 at the pull-request list whose search bar is there and whose
    filter menu is not. *)
Lemma handleLocationChange_without_menu_witness :
  isPullRequestPage
    (pathname (pageState (JArr []) emptyStorage searchBarOnly)) = true /\
  exists s',
    handleLocationChange (pageState (JArr []) emptyStorage searchBarOnly) =
      (s', Normal ()) /\
    document s' = searchBarOnly /\
    timers s' = [] /\
    retryAttempts s' = 0%nat /\
    (console s' = [] \/
     exists e,
       console s' = [] ++ [Error (lit "Error loading filters:") e]).
Proof.
  assert (Hpage : isPullRequestPage
            (pathname (pageState (JArr []) emptyStorage searchBarOnly)) =
            true) by (vm_compute; reflexivity).
  split; [exact Hpage |].
  exact (handleLocationChange_without_menu
           (pageState (JArr []) emptyStorage searchBarOnly) [hostInput]
           Hpage eq_refl eq_refl).
Defined.


(** X14 at the bare page after two navigation triggers: two timers are
    pending and the counter stands at one, so four re-checks run, not
    six, and two warnings are logged. *)
Lemma pending_timers_share_counter_witness :
  filterContainer (document pageTwoTriggers) = None /\
  (retryAttempts pageTwoTriggers <= MAX_RETRY_ATTEMPTS)%nat /\
  timers pageTwoTriggers <> [] /\
  4%nat = (length (timers pageTwoTriggers) +
           (MAX_RETRY_ATTEMPTS - retryAttempts pageTwoTriggers))%nat /\
  timers (runTimers 4 pageTwoTriggers) = [] /\
  length (rechecks (runTimers 4 pageTwoTriggers)) =
    (length (rechecks pageTwoTriggers) + 4)%nat /\
  console (runTimers 4 pageTwoTriggers) =
    console pageTwoTriggers ++
    repeat (Warn RETRY_WARNING) (length (timers pageTwoTriggers)) /\
  forall m, (m < 4)%nat -> timers (runTimers m pageTwoTriggers) <> [].
Proof.
  assert (Hc : filterContainer (document pageTwoTriggers) = None)
    by (vm_compute; reflexivity).
  assert (Ha : (retryAttempts pageTwoTriggers <= MAX_RETRY_ATTEMPTS)%nat)
    by (vm_compute; lia).
  assert (Ht : timers pageTwoTriggers <> []) by (vm_compute; discriminate).
  assert (Hn : 4%nat = (length (timers pageTwoTriggers) +
                        (MAX_RETRY_ATTEMPTS -
                         retryAttempts pageTwoTriggers))%nat)
    by (vm_compute; reflexivity).
  split; [exact Hc |]. split; [exact Ha |]. split; [exact Ht |].
  split; [exact Hn |].
  exact (pending_timers_share_counter pageTwoTriggers Hc Ha Ht 4%nat Hn).
Defined.

(** X15 at the issues list with a retry of the page before pending: the
    timer renders there. *)
Lemma runTimer_mount_present_witness :
  isPullRequestPage (pathname pageStaleTimer) = false /\
  nextTimer (timers pageStaleTimer) =
    Some ({| due := 500; chain := 1 |}, []) /\
  filterContainer (document pageStaleTimer) = Some [hostInput] /\
  exists s',
    runTimer pageStaleTimer = Some (s', Normal ()) /\
    timers s' = [] /\
    retryAttempts s' = retryAttempts pageStaleTimer /\
    console s' = console pageStaleTimer /\
    (forall kids,
       filtersDropdown (document pageStaleTimer) = Some kids ->
       Normal () = Normal () ->
       filterContainer (document s') = Some ([hostInput] ++ [favButton])).
Proof.
  assert (Hrun : exists s', runTimer pageStaleTimer = Some (s', Normal ()))
    by (eexists; vm_compute; reflexivity).
  destruct Hrun as [s' Hrun].
  split; [vm_compute; reflexivity |]. split; [reflexivity |].
  split; [reflexivity |]. exists s'. split; [exact Hrun |].
  exact (runTimer_mount_present pageStaleTimer s' {| due := 500; chain := 1 |}
           [] [hostInput] (Normal ()) eq_refl eq_refl Hrun).
Defined.

(** X16 at the pull-request list of [org/repo], for a label of two
    words. *)
Lemma createFilterItem_plain_witness :
  Forall (fun c => isPathChar c = true) (lit "/org/repo/pulls") /\
  ~ In 38 (getRepoPath (lit "/org/repo/pulls")) /\
  encodeURIComponent (lit "is:open label:bug") =
    Normal (lit "is%3Aopen%20label%3Abug") /\
  Forall (fun c => textPlain c = true) (lit "Open bugs") /\
  createFilterItem (lit "/org/repo/pulls") (Some (JStr (lit "Open bugs")))
    (Some (JStr (lit "is:open label:bug"))) false =
    Normal (Some (plainItem (ToString_bool false)
                    (itemHref (getRepoPath (lit "/org/repo/pulls"))
                       (lit "is%3Aopen%20label%3Abug"))
                    (lit "Open bugs"))) /\
  hasClass (plainItem (ToString_bool false)
              (itemHref (getRepoPath (lit "/org/repo/pulls"))
                 (lit "is%3Aopen%20label%3Abug"))
              (lit "Open bugs")) CUSTOM_ITEM = true /\
  itemText (plainItem (ToString_bool false)
              (itemHref (getRepoPath (lit "/org/repo/pulls"))
                 (lit "is%3Aopen%20label%3Abug"))
              (lit "Open bugs")) = trim (lit "Open bugs").
Proof.
  assert (Hpath : Forall (fun c => isPathChar c = true)
                    (lit "/org/repo/pulls"))
    by (apply Forall_forallb; vm_compute; reflexivity).
  assert (Hamp : ~ In 38 (getRepoPath (lit "/org/repo/pulls"))).
  { vm_compute. intuition discriminate. }
  assert (Henc : encodeURIComponent (lit "is:open label:bug") =
                 Normal (lit "is%3Aopen%20label%3Abug"))
    by (vm_compute; reflexivity).
  assert (Hl : Forall (fun c => textPlain c = true) (lit "Open bugs"))
    by (apply Forall_forallb; vm_compute; reflexivity).
  split; [exact Hpath |]. split; [exact Hamp |]. split; [exact Henc |].
  split; [exact Hl |].
  exact (createFilterItem_plain (lit "/org/repo/pulls") (lit "Open bugs")
           (lit "is:open label:bug") (lit "is%3Aopen%20label%3Abug") false
           Hpath Hamp Henc Hl).
Defined.

(** X17 at a page whose one filter has a label that is markup. *)
Lemma render_twice_same_items_witness :
  exists s1 s2,
    Forall (fun c => isPathChar c = true) (pathname pageMarkup) /\
    ~ In 38 (getRepoPath (pathname pageMarkup)) /\
    initializeDropdown pageMarkup = (s1, Normal ()) /\
    initializeDropdown s1 = (s2, Normal ()) /\
    filtersDropdown (document s2) = filtersDropdown (document s1).
Proof.
  assert (Hpath : Forall (fun c => isPathChar c = true)
                    (pathname pageMarkup))
    by (apply Forall_forallb; vm_compute; reflexivity).
  assert (Hamp : ~ In 38 (getRepoPath (pathname pageMarkup))).
  { vm_compute. intuition discriminate. }
  assert (H1 : exists s1, initializeDropdown pageMarkup = (s1, Normal ()))
    by (eexists; vm_compute; reflexivity).
  destruct H1 as [s1 H1].
  assert (H2 : exists s2, initializeDropdown s1 = (s2, Normal ())).
  { assert (E : s1 = fst (initializeDropdown pageMarkup))
      by (rewrite H1; reflexivity).
    rewrite E. eexists. vm_compute. reflexivity. }
  destruct H2 as [s2 H2].
  exists s1, s2. split; [exact Hpath |]. split; [exact Hamp |].
  split; [exact H1 |]. split; [exact H2 |].
  exact (render_twice_same_items pageMarkup s1 s2 Hpath Hamp H1 H2).
Defined.

(** X18 at the page of the three filters. *)
Lemma render_plain_filters_witness :
  filters pageABC = filterArray [filterA; filterB; filterC] /\
  flatItems [hostEntry] = true /\
  Forall (fun c => isPathChar c = true) (pathname pageABC) /\
  ~ In 38 (getRepoPath (pathname pageABC)) /\
  forallb isPlainFilter [filterA; filterB; filterC] = true /\
  exists s',
    initializeDropdown pageABC = (s', Normal ()) /\
    filtersDropdown (document s') =
      Some (List.map (plainItemOf (pathname pageABC))
              [filterA; filterB; filterC] ++
            List.filter isHostItem [hostEntry]) /\
    shownItems s' =
      Some (List.map (fun f => trim (label f))
              [filterA; filterB; filterC]) /\
    exists s'',
      initializeDropdown s' = (s'', Normal ()) /\
      filtersDropdown (document s'') = filtersDropdown (document s').
Proof.
  assert (Hflat : flatItems [hostEntry] = true) by (vm_compute; reflexivity).
  assert (Hpath : Forall (fun c => isPathChar c = true) (pathname pageABC))
    by (apply Forall_forallb; vm_compute; reflexivity).
  assert (Hamp : ~ In 38 (getRepoPath (pathname pageABC))).
  { vm_compute. intuition discriminate. }
  assert (Hplain : forallb isPlainFilter [filterA; filterB; filterC] = true)
    by (vm_compute; reflexivity).
  split; [reflexivity |]. split; [exact Hflat |]. split; [exact Hpath |].
  split; [exact Hamp |]. split; [exact Hplain |].
  exact (render_plain_filters pageABC [filterA; filterB; filterC]
           [hostEntry] [hostInput] eq_refl eq_refl Hflat eq_refl
           Hpath Hamp Hplain).
Defined.

(** X19 at the page whose key holds the three filters. *)
Lemma handleLocationChange_shows_stored_witness :
  isPullRequestPage (pathname pageStored) = true /\
  getItem (localStorage pageStored) getStorageKey =
    Normal (Some (JSON_stringify
                    (filterArray [filterA; filterB; filterC]))) /\
  flatItems [hostEntry] = true /\
  Forall (fun c => isPathChar c = true) (pathname pageStored) /\
  ~ In 38 (getRepoPath (pathname pageStored)) /\
  forallb isPlainFilter [filterA; filterB; filterC] = true /\
  exists s',
    handleLocationChange pageStored = (s', Normal ()) /\
    filters s' = filterArray [filterA; filterB; filterC] /\
    shownItems s' =
      Some (List.map (fun f => trim (label f))
              [filterA; filterB; filterC]) /\
    timers s' = timers pageStored /\
    console s' = console pageStored.
Proof.
  assert (Hpage : isPullRequestPage (pathname pageStored) = true)
    by (vm_compute; reflexivity).
  assert (Hget : getItem (localStorage pageStored) getStorageKey =
                 Normal (Some (JSON_stringify
                                 (filterArray [filterA; filterB; filterC]))))
    by (vm_compute; reflexivity).
  assert (Hflat : flatItems [hostEntry] = true) by (vm_compute; reflexivity).
  assert (Hpath : Forall (fun c => isPathChar c = true)
                    (pathname pageStored))
    by (apply Forall_forallb; vm_compute; reflexivity).
  assert (Hamp : ~ In 38 (getRepoPath (pathname pageStored))).
  { vm_compute. intuition discriminate. }
  assert (Hplain : forallb isPlainFilter [filterA; filterB; filterC] = true)
    by (vm_compute; reflexivity).
  split; [exact Hpage |]. split; [exact Hget |]. split; [exact Hflat |].
  split; [exact Hpath |]. split; [exact Hamp |]. split; [exact Hplain |].
  exact (handleLocationChange_shows_stored pageStored
           [filterA; filterB; filterC] [hostEntry] [hostInput]
           Hpage Hget eq_refl Hflat eq_refl Hpath Hamp Hplain).
Defined.

(** X20 at the page of the three filters: the filter [D] is added. *)
Lemma addNewFilter_shows_witness :
  exists st,
    filters pageABC = filterArray [filterA; filterB; filterC] /\
    lit "is:draft" <> [] /\ lit "D" <> [] /\
    setItem (localStorage pageABC) getStorageKey
      (JSON_stringify
         (filterArray ([filterA; filterB; filterC] ++
                       [{| label := lit "D"; query := lit "is:draft" |}]))) =
      Normal st /\
    flatItems [hostEntry] = true /\
    Forall (fun c => isPathChar c = true) (pathname pageABC) /\
    ~ In 38 (getRepoPath (pathname pageABC)) /\
    forallb isPlainFilter
      ([filterA; filterB; filterC] ++
       [{| label := lit "D"; query := lit "is:draft" |}]) = true /\
    shownItems (addNewFilter (lit "is:draft") (Some (lit "D")) pageABC) =
      Some (List.map (fun f => trim (label f)) [filterA; filterB; filterC] ++
            [trim (lit "D")]) /\
    filterContainer
      (document (addNewFilter (lit "is:draft") (Some (lit "D")) pageABC)) =
      Some ([hostInput] ++ [favButton]) /\
    console (addNewFilter (lit "is:draft") (Some (lit "D")) pageABC) =
      console pageABC.
Proof.
  assert (Hset : exists st,
    setItem (localStorage pageABC) getStorageKey
      (JSON_stringify
         (filterArray ([filterA; filterB; filterC] ++
                       [{| label := lit "D"; query := lit "is:draft" |}]))) =
      Normal st) by (eexists; vm_compute; reflexivity).
  destruct Hset as [st Hset]. exists st.
  assert (Hq : lit "is:draft" <> []) by discriminate.
  assert (Hl : lit "D" <> []) by discriminate.
  assert (Hflat : flatItems [hostEntry] = true) by (vm_compute; reflexivity).
  assert (Hpath : Forall (fun c => isPathChar c = true) (pathname pageABC))
    by (apply Forall_forallb; vm_compute; reflexivity).
  assert (Hamp : ~ In 38 (getRepoPath (pathname pageABC))).
  { vm_compute. intuition discriminate. }
  assert (Hplain : forallb isPlainFilter
            ([filterA; filterB; filterC] ++
             [{| label := lit "D"; query := lit "is:draft" |}]) = true)
    by (vm_compute; reflexivity).
  split; [reflexivity |]. split; [exact Hq |]. split; [exact Hl |].
  split; [exact Hset |]. split; [exact Hflat |]. split; [exact Hpath |].
  split; [exact Hamp |]. split; [exact Hplain |].
  exact (addNewFilter_shows pageABC [filterA; filterB; filterC]
           (lit "is:draft") (lit "D") st [hostEntry] [hostInput]
           eq_refl Hq Hl Hset eq_refl Hflat eq_refl Hpath Hamp Hplain).
Defined.
